(** * Dr. Claude persistence layer: a shallow embedding of [src/models.py]

    The [Database] class of the application keeps four tables in an SQLite
    file and encrypts every text column with Fernet under a key derived from
    the user's password with PBKDF2-HMAC-SHA256.  This development embeds the
    class, together with the parts of the Python libraries that its behaviour
    depends on, as executable definitions, and proves the properties the
    specification states about it. *)

From Stdlib Require Import ZArith List Lia Bool String Ascii Btauto.
From Stdlib Require Import Sorting.Sorted Sorting.Permutation.
Import ListNotations.
Open Scope Z_scope.

(** ** Byte strings

    A Python [bytes] object is a list of integers in [0, 256). *)

Module Bytes.

Definition bytes := list Z.

Definition is_byte (b : Z) : Prop := 0 <= b < 256.

Definition wf (bs : bytes) : Prop := Forall is_byte bs.

Definition len (bs : bytes) : Z := Z.of_nat (List.length bs).

(** A cipher block: sixteen bytes. *)
Definition block16 (bs : bytes) : Prop := List.length bs = 16%nat /\ wf bs.

(** [int.to_bytes(n, 'big')]: the [n] low-order bytes of [x], most
    significant first. *)
Fixpoint be_bytes (n : nat) (x : Z) : bytes :=
  match n with
  | O => []
  | S k => (x / 256 ^ Z.of_nat k) mod 256 :: be_bytes k x
  end.

(** [int.from_bytes(bs, 'big')]. *)
Definition be_int (bs : bytes) : Z :=
  fold_left (fun acc b => acc * 256 + b) bs 0.

Definition xor_bytes (xs ys : bytes) : bytes :=
  map (fun p => Z.lxor (fst p) (snd p)) (combine xs ys).

(** Cut a list into consecutive pieces of [sz] elements; [fuel] bounds the
    number of pieces. *)
Fixpoint pieces {A : Type} (sz : nat) (fuel : nat) (l : list A) : list (list A) :=
  match fuel with
  | O => []
  | S f =>
      match l with
      | [] => []
      | _ => firstn sz l :: pieces sz f (skipn sz l)
      end
  end.

Definition chunks {A : Type} (sz : nat) (l : list A) : list (list A) :=
  pieces sz (List.length l) l.

Definition of_string (s : string) : bytes :=
  map (fun c => Z.of_N (N_of_ascii c)) (list_ascii_of_string s).

Definition to_string (bs : bytes) : string :=
  string_of_list_ascii (map (fun b => ascii_of_N (Z.to_N b)) bs).

End Bytes.
Import Bytes.

(** ** SHA-256 (FIPS 180-4) *)

Module Sha256.

Definition add32 (x y : Z) : Z := (x + y) mod 2 ^ 32.

Definition rotr (n x : Z) : Z :=
  Z.lor (Z.shiftr x n) (Z.shiftl x (32 - n)) mod 2 ^ 32.

Definition shr (n x : Z) : Z := Z.shiftr x n.

Definition not32 (x : Z) : Z := Z.lxor x (2 ^ 32 - 1).

Definition Ch (x y z : Z) : Z := Z.lxor (Z.land x y) (Z.land (not32 x) z).

Definition Maj (x y z : Z) : Z :=
  Z.lxor (Z.lxor (Z.land x y) (Z.land x z)) (Z.land y z).

Definition Sigma0 (x : Z) : Z := Z.lxor (Z.lxor (rotr 2 x) (rotr 13 x)) (rotr 22 x).
Definition Sigma1 (x : Z) : Z := Z.lxor (Z.lxor (rotr 6 x) (rotr 11 x)) (rotr 25 x).
Definition sigma0 (x : Z) : Z := Z.lxor (Z.lxor (rotr 7 x) (rotr 18 x)) (shr 3 x).
Definition sigma1 (x : Z) : Z := Z.lxor (Z.lxor (rotr 17 x) (rotr 19 x)) (shr 10 x).

(** The constants of the standard are the fractional parts of the square and
    cube roots of the first primes; they are computed here rather than
    listed. *)
Definition is_prime (n : Z) : bool :=
  forallb (fun d => negb (n mod d =? 0)) (map Z.of_nat (seq 2 (Z.to_nat n - 2))).

Definition first_primes : list Z :=
  firstn 64 (filter is_prime (map Z.of_nat (seq 2 310))).

Definition cube_root (n : Z) : Z :=
  fold_left (fun r k => let c := r + 2 ^ k in if c * c * c <=? n then c else r)
            (map Z.of_nat (rev (seq 0 36))) 0.

Definition K : list Z :=
  Eval vm_compute in map (fun p => cube_root (p * 2 ^ 96) mod 2 ^ 32) first_primes.

Definition H0 : list Z :=
  Eval vm_compute in map (fun p => Z.sqrt (p * 2 ^ 64) mod 2 ^ 32) (firstn 8 first_primes).

Definition pad (msg : bytes) : bytes :=
  let l := len msg in
  msg ++ [128] ++ repeat 0 (Z.to_nat ((55 - l) mod 64)) ++ be_bytes 8 (8 * l).

(** The message schedule, kept newest word first while it is extended. *)
Fixpoint extend (n : nat) (rw : list Z) : list Z :=
  match n with
  | O => rw
  | S k =>
      let w := add32 (add32 (add32 (sigma1 (nth 1 rw 0)) (nth 6 rw 0))
                            (sigma0 (nth 14 rw 0))) (nth 15 rw 0) in
      extend k (w :: rw)
  end.

Definition schedule (block : bytes) : list Z :=
  rev (extend 48 (rev (map be_int (chunks 4 block)))).

Record regs := Regs { ra : Z; rb : Z; rc : Z; rd : Z; re : Z; rf : Z; rg : Z; rh : Z }.

Definition round (s : regs) (kw : Z * Z) : regs :=
  let t1 := add32 (add32 (add32 (add32 (rh s) (Sigma1 (re s))) (Ch (re s) (rf s) (rg s)))
                         (fst kw)) (snd kw) in
  let t2 := add32 (Sigma0 (ra s)) (Maj (ra s) (rb s) (rc s)) in
  Regs (add32 t1 t2) (ra s) (rb s) (rc s) (add32 (rd s) t1) (re s) (rf s) (rg s).

Definition regs_of (h : list Z) : regs :=
  Regs (nth 0 h 0) (nth 1 h 0) (nth 2 h 0) (nth 3 h 0)
       (nth 4 h 0) (nth 5 h 0) (nth 6 h 0) (nth 7 h 0).

Definition list_of (s : regs) : list Z :=
  [ra s; rb s; rc s; rd s; re s; rf s; rg s; rh s].

Definition compress (h : list Z) (block : bytes) : list Z :=
  let s := fold_left round (combine K (schedule block)) (regs_of h) in
  map (fun p => add32 (fst p) (snd p)) (combine h (list_of s)).

Definition sha256 (msg : bytes) : bytes :=
  flat_map (be_bytes 4) (fold_left compress (chunks 64 (pad msg)) H0).

End Sha256.

(** ** HMAC-SHA256 (RFC 2104) and PBKDF2 (RFC 8018) *)

Module Hmac.

Definition block_size : nat := 64.

(** A key longer than the block is hashed first; the result is filled with
    zero bytes up to the block size. *)
Definition block_key (key : bytes) : bytes :=
  let k := if (Z.of_nat block_size <? len key) then Sha256.sha256 key else key in
  k ++ repeat 0 (block_size - List.length k).

Definition hmac (key msg : bytes) : bytes :=
  let k := block_key key in
  let inner := Sha256.sha256 (map (Z.lxor 54) k ++ msg) in
  Sha256.sha256 (map (Z.lxor 92) k ++ inner).

End Hmac.

Module Pbkdf2.

Definition step (password : bytes) (ut : bytes * bytes) : bytes * bytes :=
  let u := Hmac.hmac password (fst ut) in
  (u, xor_bytes (snd ut) u).

(** The block function [F] of the standard: the exclusive or of [c]
    iterated applications of the pseudo-random function. *)
Definition F (password salt : bytes) (c : N) (i : Z) : bytes :=
  let u1 := Hmac.hmac password (salt ++ be_bytes 4 i) in
  snd (N.iter (c - 1) (step password) (u1, u1)).

Definition derive (password salt : bytes) (c : N) (dklen : nat) : bytes :=
  let nblocks := Nat.div (dklen + 31) 32 in
  firstn dklen (flat_map (fun i => F password salt c (Z.of_nat i)) (seq 1 nblocks)).

End Pbkdf2.

(** ** Base64 with the URL-safe alphabet ([base64.urlsafe_b64encode] and
    [base64.urlsafe_b64decode]) *)

Module Base64.

Definition enc_char (i : Z) : Z :=
  if i <? 26 then 65 + i
  else if i <? 52 then 71 + i
  else if i <? 62 then i - 4
  else if i =? 62 then 45 else 95.

Definition pad_char : Z := 61.

Fixpoint encode (bs : bytes) : bytes :=
  match bs with
  | [] => []
  | [a] =>
      [enc_char (Z.shiftr a 2); enc_char (Z.shiftl (Z.land a 3) 4); pad_char; pad_char]
  | [a; b] =>
      [enc_char (Z.shiftr a 2);
       enc_char (Z.lor (Z.shiftl (Z.land a 3) 4) (Z.shiftr b 4));
       enc_char (Z.shiftl (Z.land b 15) 2); pad_char]
  | a :: b :: c :: rest =>
      enc_char (Z.shiftr a 2)
      :: enc_char (Z.lor (Z.shiftl (Z.land a 3) 4) (Z.shiftr b 4))
      :: enc_char (Z.lor (Z.shiftl (Z.land b 15) 2) (Z.shiftr c 6))
      :: enc_char (Z.land c 63)
      :: encode rest
  end.

(** The decoding table after the URL-safe translation: [-] and [_] stand for
    62 and 63, and so do [+] and [/] of the standard alphabet, which the
    translation leaves in place. *)
Definition dec_char (c : Z) : option Z :=
  if (65 <=? c) && (c <=? 90) then Some (c - 65)
  else if (97 <=? c) && (c <=? 122) then Some (c - 71)
  else if (48 <=? c) && (c <=? 57) then Some (c + 4)
  else if (c =? 45) || (c =? 43) then Some 62
  else if (c =? 95) || (c =? 47) then Some 63
  else None.

(** The state of [binascii.a2b_base64] in its lenient mode: position in the
    current group of four, bits left over, padding characters seen in a row,
    bytes produced (newest first), and whether a complete padding ended the
    input. *)
Record dstate := DState {
  quad_pos : Z; leftchar : Z; pads : Z; out_rev : bytes; finished : bool }.

Definition dstep (s : dstate) (ch : Z) : dstate :=
  if finished s then s
  else if ch =? pad_char then
    if (2 <=? quad_pos s) && (4 <=? quad_pos s + (pads s + 1))
    then DState (quad_pos s) (leftchar s) (pads s + 1) (out_rev s) true
    else if 2 <=? quad_pos s
         then DState (quad_pos s) (leftchar s) (pads s + 1) (out_rev s) false
         else s
  else
    match dec_char ch with
    | None => s
    | Some v =>
        if quad_pos s =? 0 then DState 1 v 0 (out_rev s) false
        else if quad_pos s =? 1 then
          DState 2 (Z.land v 15) 0
                 (Z.lor (Z.shiftl (leftchar s) 2) (Z.shiftr v 4) mod 256 :: out_rev s) false
        else if quad_pos s =? 2 then
          DState 3 (Z.land v 3) 0
                 (Z.lor (Z.shiftl (leftchar s) 4) (Z.shiftr v 2) mod 256 :: out_rev s) false
        else
          DState 0 0 0 (Z.lor (Z.shiftl (leftchar s) 6) v mod 256 :: out_rev s) false
    end.

(** [None] stands for [binascii.Error] (incorrect padding). *)
Definition decode (cs : bytes) : option bytes :=
  let s := fold_left dstep cs (DState 0 0 0 [] false) in
  if finished s || (quad_pos s =? 0) then Some (rev (out_rev s)) else None.

End Base64.

(** ** AES-128 (FIPS 197) *)

Module Aes.

(** Multiplication by [x] in GF(2^8) modulo [x^8 + x^4 + x^3 + x + 1]. *)
Definition xtime (a : Z) : Z :=
  let d := Z.shiftl a 1 in
  if 256 <=? d then Z.lxor d 283 else d.

Fixpoint gmul_aux (n : nat) (a b acc : Z) : Z :=
  match n with
  | O => acc
  | S k => gmul_aux k (xtime a) (Z.shiftr b 1) (if Z.odd b then Z.lxor acc a else acc)
  end.

Definition gmul (a b : Z) : Z := gmul_aux 8 a b 0.

Definition gpow (a : Z) (n : nat) : Z := Nat.iter n (gmul a) 1.

Definition rotl8 (b n : Z) : Z :=
  Z.lor (Z.shiftl b n) (Z.shiftr b (8 - n)) mod 256.

(** The substitution box: the inverse in the field followed by the affine
    map of the standard. *)
Definition sbox_of (b : Z) : Z :=
  let i := gpow b 254 in
  Z.lxor (Z.lxor (Z.lxor (Z.lxor (Z.lxor i (rotl8 i 1)) (rotl8 i 2)) (rotl8 i 3)) (rotl8 i 4)) 99.

Definition byte_values : list Z := map Z.of_nat (seq 0 256).

Definition sbox : list Z := Eval vm_compute in map sbox_of byte_values.

Fixpoint index_from (i : Z) (v : Z) (l : list Z) : Z :=
  match l with
  | [] => 0
  | x :: r => if x =? v then i else index_from (i + 1) v r
  end.

Definition inv_sbox : list Z := Eval vm_compute in map (fun v => index_from 0 v sbox) byte_values.

Definition sub_byte (b : Z) : Z := nth (Z.to_nat b) sbox 0.
Definition inv_sub_byte (b : Z) : Z := nth (Z.to_nat b) inv_sbox 0.

(** The state is the sixteen bytes of a block in input order: byte [r + 4c]
    sits in row [r] and column [c]. *)
Definition sub_bytes (s : bytes) : bytes := map sub_byte s.
Definition inv_sub_bytes (s : bytes) : bytes := map inv_sub_byte s.

Definition pick (s : bytes) (idx : list nat) : bytes := map (fun i => nth i s 0) idx.

Definition shift_rows (s : bytes) : bytes :=
  pick s [0; 5; 10; 15; 4; 9; 14; 3; 8; 13; 2; 7; 12; 1; 6; 11]%nat.

Definition inv_shift_rows (s : bytes) : bytes :=
  pick s [0; 13; 10; 7; 4; 1; 14; 11; 8; 5; 2; 15; 12; 9; 6; 3]%nat.

Definition xor4 (a b c d : Z) : Z := Z.lxor (Z.lxor (Z.lxor a b) c) d.

Definition mix_column (col : bytes) : bytes :=
  let a := nth 0 col 0 in let b := nth 1 col 0 in
  let c := nth 2 col 0 in let d := nth 3 col 0 in
  [ xor4 (gmul 2 a) (gmul 3 b) c d;
    xor4 a (gmul 2 b) (gmul 3 c) d;
    xor4 a b (gmul 2 c) (gmul 3 d);
    xor4 (gmul 3 a) b c (gmul 2 d) ].

Definition inv_mix_column (col : bytes) : bytes :=
  let a := nth 0 col 0 in let b := nth 1 col 0 in
  let c := nth 2 col 0 in let d := nth 3 col 0 in
  [ xor4 (gmul 14 a) (gmul 11 b) (gmul 13 c) (gmul 9 d);
    xor4 (gmul 9 a) (gmul 14 b) (gmul 11 c) (gmul 13 d);
    xor4 (gmul 13 a) (gmul 9 b) (gmul 14 c) (gmul 11 d);
    xor4 (gmul 11 a) (gmul 13 b) (gmul 9 c) (gmul 14 d) ].

Definition columns (s : bytes) : list bytes :=
  [ pick s [0; 1; 2; 3]%nat; pick s [4; 5; 6; 7]%nat;
    pick s [8; 9; 10; 11]%nat; pick s [12; 13; 14; 15]%nat ].

Definition mix_columns (s : bytes) : bytes := flat_map mix_column (columns s).
Definition inv_mix_columns (s : bytes) : bytes := flat_map inv_mix_column (columns s).

Definition add_round_key (rk s : bytes) : bytes := xor_bytes s rk.

(** Key expansion, one round key at a time. *)
Definition next_round_key (rk : bytes) (rcon : Z) : bytes :=
  let w := columns rk in
  let w0 := nth 0 w [] in let w1 := nth 1 w [] in
  let w2 := nth 2 w [] in let w3 := nth 3 w [] in
  let t := xor_bytes (map sub_byte (pick w3 [1; 2; 3; 0]%nat)) [rcon; 0; 0; 0] in
  let v0 := xor_bytes w0 t in
  let v1 := xor_bytes w1 v0 in
  let v2 := xor_bytes w2 v1 in
  let v3 := xor_bytes w3 v2 in
  v0 ++ v1 ++ v2 ++ v3.

Fixpoint expand (n : nat) (rk : bytes) (rcon : Z) : list bytes :=
  match n with
  | O => []
  | S k => let rk' := next_round_key rk rcon in rk' :: expand k rk' (xtime rcon)
  end.

(** The ten round keys that follow the cipher key itself. *)
Definition round_keys (key : bytes) : list bytes := expand 10 key 1.

Definition enc_round (s rk : bytes) : bytes :=
  add_round_key rk (mix_columns (shift_rows (sub_bytes s))).

Definition dec_round (s rk : bytes) : bytes :=
  inv_mix_columns (add_round_key rk (inv_sub_bytes (inv_shift_rows s))).

Definition encrypt_block (key block : bytes) : bytes :=
  let rks := round_keys key in
  let s := fold_left enc_round (firstn 9 rks) (add_round_key key block) in
  add_round_key (nth 9 rks []) (shift_rows (sub_bytes s)).

Definition decrypt_block (key block : bytes) : bytes :=
  let rks := round_keys key in
  let s := fold_left dec_round (rev (firstn 9 rks)) (add_round_key (nth 9 rks []) block) in
  add_round_key key (inv_sub_bytes (inv_shift_rows s)).

End Aes.

(** ** Exceptions

    A Python call either returns a value or raises; the exceptions that the
    modelled code can raise are enumerated. *)

Inductive exn : Type :=
| InvalidToken          (* cryptography.fernet.InvalidToken *)
| ValueError
| OverflowError
| UnicodeDecodeError
| JSONDecodeError
| IntegrityError        (* sqlite3.IntegrityError *)
| ProgrammingError      (* sqlite3.ProgrammingError *)
| OperationalError.     (* sqlite3.OperationalError *)

Inductive result (A : Type) : Type :=
| Ok (a : A)
| Raise (e : exn).

Arguments Ok {A} a.
Arguments Raise {A} e.

Definition bind {A B : Type} (r : result A) (k : A -> result B) : result B :=
  match r with
  | Ok a => k a
  | Raise e => Raise e
  end.

Notation "'let*' x ':=' r 'in' k" := (bind r (fun x => k))
  (at level 10, x pattern, r at level 100, k at level 200).

(** ** Numbers as text *)

Module Text.

Definition digit (n : Z) : ascii := ascii_of_N (Z.to_N (48 + n mod 10)).

(** The [w] low-order decimal digits of [n]: the format [%0wd] for a number
    of at most [w] digits. *)
Fixpoint zero_padded (w : nat) (n : Z) : string :=
  match w with
  | O => EmptyString
  | S k => (zero_padded k (n / 10) ++ String (digit n) EmptyString)%string
  end.

Fixpoint decimal_aux (fuel : nat) (n : Z) (acc : string) : string :=
  match fuel with
  | O => acc
  | S k =>
      let acc' := String (digit n) acc in
      if n <? 10 then acc' else decimal_aux k (n / 10) acc'
  end.

(** [str(n)] for [n >= 0]; a number has no more decimal digits than binary
    ones. *)
Definition decimal (n : Z) : string :=
  decimal_aux (S (Z.to_nat (Z.log2 n))) n EmptyString.

(** [str(n)] *)
Definition str_of_int (n : Z) : string :=
  if n <? 0 then String "-" (decimal (- n)) else decimal n.

(** The line feed character. *)
Definition nl : string := String (ascii_of_nat 10) EmptyString.

End Text.

(** ** The environment of a call

    [time.time()], [datetime.datetime.now()] and [os.urandom] read the
    outside world.  The world is a clock that is read at successive ticks
    and a supply of random bytes that is consumed front to back. *)

Module Datetime.

Record t := Make {
  year : Z; month : Z; day : Z;
  hour : Z; minute : Z; second : Z; microsecond : Z }.

Definition MINYEAR : Z := 1.
Definition MAXYEAR : Z := 9999.

Definition is_leap (y : Z) : bool :=
  (y mod 4 =? 0) && (negb (y mod 100 =? 0) || (y mod 400 =? 0)).

Definition days_in_month (y m : Z) : Z :=
  if m =? 2 then (if is_leap y then 29 else 28)
  else if (m =? 4) || (m =? 6) || (m =? 9) || (m =? 11) then 30
  else 31.

Definition check_date (y m d : Z) : bool :=
  (MINYEAR <=? y) && (y <=? MAXYEAR) && (1 <=? m) && (m <=? 12)
  && (1 <=? d) && (d <=? days_in_month y m).

Definition check_time (h mi s us : Z) : bool :=
  (0 <=? h) && (h <? 24) && (0 <=? mi) && (mi <? 60)
  && (0 <=? s) && (s <? 60) && (0 <=? us) && (us <? 1000000).

Definition valid (dt : t) : bool :=
  check_date (year dt) (month dt) (day dt)
  && check_time (hour dt) (minute dt) (second dt) (microsecond dt).

(** [datetime.datetime(year, month, day)] *)
Definition new (y m d : Z) : result t :=
  if check_date y m d then Ok (Make y m d 0 0 0 0) else Raise ValueError.

(** [dt.replace(day=d)] *)
Definition replace_day (dt : t) (d : Z) : result t :=
  if check_date (year dt) (month dt) d
  then Ok (Make (year dt) (month dt) d (hour dt) (minute dt) (second dt) (microsecond dt))
  else Raise ValueError.

(** [dt.replace(day=d, hour=0, minute=0, second=0, microsecond=0)] *)
Definition replace_day_midnight (dt : t) (d : Z) : result t :=
  if check_date (year dt) (month dt) d
  then Ok (Make (year dt) (month dt) d 0 0 0 0)
  else Raise ValueError.

(** The same time of day on the next and on the previous calendar day; a
    date outside the years 1 to 9999 is an [OverflowError]. *)
Definition tomorrow (dt : t) : result t :=
  let with_date y m d :=
    Make y m d (hour dt) (minute dt) (second dt) (microsecond dt) in
  if day dt <? days_in_month (year dt) (month dt)
  then Ok (with_date (year dt) (month dt) (day dt + 1))
  else if month dt <? 12 then Ok (with_date (year dt) (month dt + 1) 1)
  else if year dt <? MAXYEAR then Ok (with_date (year dt + 1) 1 1)
  else Raise OverflowError.

Definition yesterday (dt : t) : result t :=
  let with_date y m d :=
    Make y m d (hour dt) (minute dt) (second dt) (microsecond dt) in
  if 1 <? day dt then Ok (with_date (year dt) (month dt) (day dt - 1))
  else if 1 <? month dt
  then Ok (with_date (year dt) (month dt - 1) (days_in_month (year dt) (month dt - 1)))
  else if MINYEAR <? year dt then Ok (with_date (year dt - 1) 12 31)
  else Raise OverflowError.

(** [dt + datetime.timedelta(days=n)] for [n] days ahead. *)
Fixpoint add_days (n : nat) (dt : t) : result t :=
  match n with
  | O => Ok dt
  | S k => let* d := tomorrow dt in add_days k d
  end.

(** [dt - datetime.timedelta(microseconds=1)] *)
Definition sub_microsecond (dt : t) : result t :=
  let mk h mi s us := Make (year dt) (month dt) (day dt) h mi s us in
  if 0 <? microsecond dt
  then Ok (mk (hour dt) (minute dt) (second dt) (microsecond dt - 1))
  else if 0 <? second dt then Ok (mk (hour dt) (minute dt) (second dt - 1) 999999)
  else if 0 <? minute dt then Ok (mk (hour dt) (minute dt - 1) 59 999999)
  else if 0 <? hour dt then Ok (mk (hour dt - 1) 59 59 999999)
  else
    let* p := yesterday dt in
    Ok (Make (year p) (month p) (day p) 23 59 59 999999).

(** [dt.isoformat()]: the fraction is left out when it is zero. *)
Definition isoformat (dt : t) : string :=
  (Text.zero_padded 4 (year dt) ++ "-" ++ Text.zero_padded 2 (month dt) ++ "-"
   ++ Text.zero_padded 2 (day dt) ++ "T" ++ Text.zero_padded 2 (hour dt) ++ ":"
   ++ Text.zero_padded 2 (minute dt) ++ ":" ++ Text.zero_padded 2 (second dt)
   ++ (if (microsecond dt =? 0)%Z then EmptyString
       else "." ++ Text.zero_padded 6 (microsecond dt)))%string.

Definition month_name (m : Z) : string :=
  nth (Z.to_nat (m - 1))
      ["January"; "February"; "March"; "April"; "May"; "June"; "July";
       "August"; "September"; "October"; "November"; "December"]%string
      EmptyString.

(** [dt.strftime('%B %Y')] in the C locale; the year is printed by the C
    library without padding. *)
Definition strftime_B_Y (dt : t) : string :=
  (month_name (month dt) ++ " " ++ Text.decimal (year dt))%string.

(** The comparison of two naive datetimes: field by field, the year first. *)
Definition compare (a b : t) : comparison :=
  match year a ?= year b with
  | Eq =>
      match month a ?= month b with
      | Eq =>
          match day a ?= day b with
          | Eq =>
              match hour a ?= hour b with
              | Eq =>
                  match minute a ?= minute b with
                  | Eq =>
                      match second a ?= second b with
                      | Eq => microsecond a ?= microsecond b
                      | c => c
                      end
                  | c => c
                  end
              | c => c
              end
          | c => c
          end
      | c => c
      end
  | c => c
  end.

(** [a <= b] and [a < b] *)
Definition leb (a b : t) : bool := match compare a b with Gt => false | _ => true end.
Definition ltb (a b : t) : bool := match compare a b with Lt => true | _ => false end.

(** *** Aware datetimes

    A datetime with a time zone is its local time and the offset of the
    zone from UTC in minutes.  Two of them are compared after their
    offsets have been subtracted. *)

Definition minute_before (dt : t) : result t :=
  let mk h mi := Make (year dt) (month dt) (day dt) h mi (second dt) (microsecond dt) in
  if 0 <? minute dt then Ok (mk (hour dt) (minute dt - 1))
  else if 0 <? hour dt then Ok (mk (hour dt - 1) 59)
  else
    let* p := yesterday dt in
    Ok (Make (year p) (month p) (day p) 23 59 (second dt) (microsecond dt)).

Definition minute_after (dt : t) : result t :=
  let mk h mi := Make (year dt) (month dt) (day dt) h mi (second dt) (microsecond dt) in
  if minute dt <? 59 then Ok (mk (hour dt) (minute dt + 1))
  else if hour dt <? 23 then Ok (mk (hour dt + 1) 0)
  else
    let* n := tomorrow dt in
    Ok (Make (year n) (month n) (day n) 0 0 (second dt) (microsecond dt)).

Fixpoint shift (step : t -> result t) (n : nat) (dt : t) : result t :=
  match n with
  | O => Ok dt
  | S k => let* d := step dt in shift step k d
  end.

(** [dt - dt.utcoffset()], the time in UTC. *)
Definition to_utc (dt : t) (offset : Z) : result t :=
  if 0 <=? offset then shift minute_before (Z.to_nat offset) dt
  else shift minute_after (Z.to_nat (- offset)) dt.

(** [dt.isoformat()] of an aware datetime: the local time and the offset as
    a sign, hours and minutes. *)
Definition isoformat_aware (dt : t) (offset : Z) : string :=
  (isoformat dt ++ (if (offset <? 0)%Z then "-" else "+")
   ++ Text.zero_padded 2 (Z.abs offset / 60)%Z ++ ":"
   ++ Text.zero_padded 2 (Z.abs offset mod 60)%Z)%string.

End Datetime.

Module World.

Record t := Make {
  ticks : nat;                    (* clock readings made so far *)
  unix_time : nat -> N;           (* [int(time.time())] at each reading *)
  local_now : nat -> Datetime.t;  (* [datetime.now()] at each reading *)
  rand_pos : nat;                 (* random bytes consumed so far *)
  rand : nat -> Z }.              (* the supply of random bytes *)

(** [int(time.time())] *)
Definition time (w : t) : Z * t :=
  (Z.of_N (unix_time w (ticks w)),
   Make (S (ticks w)) (unix_time w) (local_now w) (rand_pos w) (rand w)).

(** [datetime.datetime.now()] *)
Definition now (w : t) : Datetime.t * t :=
  (local_now w (ticks w),
   Make (S (ticks w)) (unix_time w) (local_now w) (rand_pos w) (rand w)).

(** [os.urandom(n)] *)
Definition urandom (n : nat) (w : t) : bytes * t :=
  (map (fun i => rand w (rand_pos w + i)%nat mod 256) (seq 0 n),
   Make (ticks w) (unix_time w) (local_now w) (rand_pos w + n) (rand w)).

End World.

(** ** Cipher block chaining and PKCS7 padding *)

Module Cbc.

Fixpoint encrypt (key prev : bytes) (blocks : list bytes) : list bytes :=
  match blocks with
  | [] => []
  | b :: rest =>
      let c := Aes.encrypt_block key (xor_bytes b prev) in
      c :: encrypt key c rest
  end.

Fixpoint decrypt (key prev : bytes) (blocks : list bytes) : list bytes :=
  match blocks with
  | [] => []
  | c :: rest => xor_bytes (Aes.decrypt_block key c) prev :: decrypt key c rest
  end.

End Cbc.

Module Pkcs7.

Definition block_len : nat := 16.

Definition pad (data : bytes) : bytes :=
  let n := (block_len - Nat.modulo (List.length data) block_len)%nat in
  data ++ repeat (Z.of_nat n) n.

(** The check of the unpadder on the fully buffered input: a whole number of
    blocks, at least one, whose last byte [v] is between 1 and the block
    length and is repeated over the last [v] positions. *)
Definition unpad (data : bytes) : option bytes :=
  let n := List.length data in
  if (n =? 0)%nat || negb (Nat.modulo n block_len =? 0)%nat then None
  else
    let v := last data 0 in
    if (1 <=? v) && (v <=? Z.of_nat block_len)
       && forallb (Z.eqb v) (skipn (n - Z.to_nat v) data)
    then Some (firstn (n - Z.to_nat v) data)
    else None.

End Pkcs7.

(** ** Fernet tokens ([cryptography.fernet.Fernet]) *)

Module Fernet.

Record t := Make { signing_key : bytes; encryption_key : bytes }.

(** [Fernet(key)]: the key is 32 bytes in URL-safe base64; the first half
    signs and the second half encrypts. *)
Definition new (key : bytes) : result t :=
  match Base64.decode key with
  | None => Raise ValueError
  | Some k =>
      if (List.length k =? 32)%nat
      then Ok (Make (firstn 16 k) (skipn 16 k))
      else Raise ValueError
  end.

(** The bytes that the signature covers: version, time, IV and ciphertext. *)
Definition basic_parts (f : t) (data : bytes) (current_time : Z) (iv : bytes) : bytes :=
  let padded := Pkcs7.pad data in
  let ciphertext := List.concat (Cbc.encrypt (encryption_key f) iv (chunks 16 padded)) in
  [128] ++ be_bytes 8 current_time ++ iv ++ ciphertext.

Definition encrypt_from_parts (f : t) (data : bytes) (current_time : Z) (iv : bytes) : bytes :=
  let parts := basic_parts f data current_time iv in
  Base64.encode (parts ++ Hmac.hmac (signing_key f) parts).

(** [encrypt(data)]: the current time is read first, then sixteen random
    bytes for the IV. *)
Definition encrypt (f : t) (data : bytes) (w : World.t) : bytes * World.t :=
  let (current_time, w1) := World.time w in
  let (iv, w2) := World.urandom 16 w1 in
  (encrypt_from_parts f data current_time iv, w2).

(** Python's [data[:-n]] and [data[-n:]]. *)
Definition drop_last (n : nat) (data : bytes) : bytes :=
  firstn (List.length data - n) data.
Definition take_last (n : nat) (data : bytes) : bytes :=
  skipn (List.length data - n) data.
Definition slice (i j : nat) (data : bytes) : bytes := firstn (j - i) (skipn i data).

Definition bytes_eqb (xs ys : bytes) : bool :=
  (List.length xs =? List.length ys)%nat
  && forallb (fun p => fst p =? snd p) (combine xs ys).

(** [decrypt(token)] with no time-to-live. *)
Definition decrypt (f : t) (token : bytes) : result bytes :=
  match Base64.decode token with
  | None => Raise InvalidToken
  | Some data =>
      if negb (nth 0 data 0 =? 128) || (List.length data <? 9)%nat then Raise InvalidToken
      else if negb (bytes_eqb (Hmac.hmac (signing_key f) (drop_last 32 data))
                              (take_last 32 data))
      then Raise InvalidToken
      else
        let iv := slice 9 25 data in
        let ciphertext := slice 25 (List.length data - 32) data in
        if negb (List.length iv =? 16)%nat then Raise ValueError
        else if negb (Nat.modulo (List.length ciphertext) 16 =? 0)%nat then Raise InvalidToken
        else
          let padded := List.concat (Cbc.decrypt (encryption_key f) iv (chunks 16 ciphertext)) in
          match Pkcs7.unpad padded with
          | None => Raise InvalidToken
          | Some data => Ok data
          end
  end.

End Fernet.

(** ** UTF-8

    A Python [str] is represented by its UTF-8 encoding, held in a Rocq
    [string]: [str.encode()] hands over the bytes, and [bytes.decode()]
    accepts exactly the well-formed byte sequences (RFC 3629).  Strings with
    lone surrogates have no UTF-8 encoding and are outside this model. *)

Module Utf8.

Definition cont (b : Z) : bool := (128 <=? b) && (b <=? 191).

(** The code points of a well-formed byte sequence. *)
Fixpoint code_points (bs : bytes) : option (list Z) :=
  match bs with
  | [] => Some []
  | b0 :: r0 =>
      if (0 <=? b0) && (b0 <? 128) then option_map (cons b0) (code_points r0)
      else
        match r0 with
        | [] => None
        | b1 :: r1 =>
            if (194 <=? b0) && (b0 <=? 223) then
              if cont b1
              then option_map (cons ((b0 - 192) * 64 + (b1 - 128))) (code_points r1)
              else None
            else
              match r1 with
              | [] => None
              | b2 :: r2 =>
                  if (224 <=? b0) && (b0 <=? 239) then
                    let cp := (b0 - 224) * 4096 + (b1 - 128) * 64 + (b2 - 128) in
                    if cont b1 && cont b2 && (2048 <=? cp)
                       && negb ((55296 <=? cp) && (cp <=? 57343))
                    then option_map (cons cp) (code_points r2)
                    else None
                  else
                    match r2 with
                    | [] => None
                    | b3 :: r3 =>
                        if (240 <=? b0) && (b0 <=? 244) then
                          let cp := (b0 - 240) * 262144 + (b1 - 128) * 4096
                                    + (b2 - 128) * 64 + (b3 - 128) in
                          if cont b1 && cont b2 && cont b3
                             && (65536 <=? cp) && (cp <=? 1114111)
                          then option_map (cons cp) (code_points r3)
                          else None
                        else None
                    end
              end
        end
  end.

Definition valid (bs : bytes) : bool :=
  match code_points bs with Some _ => true | None => false end.

Definition encode_cp (cp : Z) : bytes :=
  if cp <? 128 then [cp]
  else if cp <? 2048 then [192 + cp / 64; 128 + cp mod 64]
  else if cp <? 65536 then [224 + cp / 4096; 128 + (cp / 64) mod 64; 128 + cp mod 64]
  else [240 + cp / 262144; 128 + (cp / 4096) mod 64; 128 + (cp / 64) mod 64; 128 + cp mod 64].

(** [str.encode()] *)
Definition str_encode (s : string) : bytes := of_string s.

(** [bytes.decode()] *)
Definition bytes_decode (bs : bytes) : result string :=
  if valid bs then Ok (to_string bs) else Raise UnicodeDecodeError.

End Utf8.

Definition hexdigit (n : Z) : ascii :=
  ascii_of_N (Z.to_N (if n <? 10 then 48 + n else 87 + n)).

Definition hex (bs : bytes) : string :=
  string_of_list_ascii (flat_map (fun b => [hexdigit (b / 16); hexdigit (b mod 16)]) bs).

(** ** The SQLite store

    The database file holds the four tables that [_initialize_db] creates.
    A table is the list of its rows in row-id order.  The tables with
    [AUTOINCREMENT] remember the largest id ever handed out, as SQLite does
    in [sqlite_sequence].  Files that are not databases of this schema and
    row ids at the end of the 64-bit range are outside the model. *)

Module Sqlite.

Record profile_row := ProfileRow { pr_id : Z; pr_profile_data : string }.

Record journal_row := JournalRow {
  je_id : Z; je_date : string; je_entry : string; je_is_condensed : Z }.

Record session_row := SessionRow {
  ts_id : Z; ts_date : string; ts_approach : string; ts_session_data : string }.

Record note_row := NoteRow { tn_id : Z; tn_date : string; tn_notes : string }.

Record store := Store {
  user_profile : list profile_row;
  journal_entries : list journal_row;
  journal_seq : Z;
  therapy_sessions : list session_row;
  sessions_seq : Z;
  therapist_notes : list note_row;
  notes_seq : Z }.

(** A database file that has just been created. *)
Definition empty : store := Store [] [] 0 [] 0 [] 0.

(** *** Queries *)

(** The id of the next row of an [AUTOINCREMENT] table: one more than the
    largest id in the table or ever handed out. *)
Definition next_id (seq : Z) (ids : list Z) : Z :=
  fold_left Z.max ids seq + 1.

(** [SELECT COUNT( * ) FROM user_profile] *)
Definition count_profile (s : store) : Z := Z.of_nat (List.length (user_profile s)).

(** [SELECT profile_data FROM user_profile WHERE id = ?], first row. *)
Definition select_profile (id : Z) (s : store) : option string :=
  match filter (fun r => pr_id r =? id) (user_profile s) with
  | [] => None
  | r :: _ => Some (pr_profile_data r)
  end.

(** A Python value used as a condition: [None] and the empty string count
    as false. *)
Definition truthy (o : option string) : bool :=
  match o with
  | Some s => negb (s =? EmptyString)%string
  | None => false
  end.

(** The [WHERE] clause that the three listing methods build: [date >= ?]
    when a start date is given and [date <= ?] when an end date is given.
    Text is compared byte by byte. *)
Definition date_in_range (start_date end_date : option string) (date : string) : bool :=
  match start_date with
  | Some lo => if truthy start_date then (lo <=? date)%string else true
  | None => true
  end
  &&
  match end_date with
  | Some hi => if truthy end_date then (date <=? hi)%string else true
  | None => true
  end.

(** [ORDER BY date DESC].  Rows with equal dates keep the order of the
    scan; SQL leaves their order open. *)
Fixpoint insert_desc {A : Type} (date : A -> string) (x : A) (l : list A) : list A :=
  match l with
  | [] => [x]
  | y :: r =>
      if (date y <=? date x)%string then x :: l else y :: insert_desc date x r
  end.

Definition order_by_date_desc {A : Type} (date : A -> string) (rows : list A) : list A :=
  fold_right (insert_desc date) [] rows.

Definition select_by_date {A : Type} (date : A -> string)
    (start_date end_date : option string) (rows : list A) : list A :=
  order_by_date_desc date (filter (fun r => date_in_range start_date end_date (date r)) rows).

(** *** Statements that change the store *)

Inductive statement : Type :=
| InsertProfile (id : Z) (profile_data : string)
| UpdateProfile (profile_data : string) (id : Z)
| InsertJournal (date entry : string) (is_condensed : Z)
| DeleteJournal (id : Z)
| InsertSession (date approach session_data : string)
| InsertNote (date notes : string).

Definition with_profile (s : store) (rows : list profile_row) : store :=
  Store rows (journal_entries s) (journal_seq s) (therapy_sessions s) (sessions_seq s)
        (therapist_notes s) (notes_seq s).

Definition with_journal (s : store) (rows : list journal_row) (seq : Z) : store :=
  Store (user_profile s) rows seq (therapy_sessions s) (sessions_seq s)
        (therapist_notes s) (notes_seq s).

Definition with_sessions (s : store) (rows : list session_row) (seq : Z) : store :=
  Store (user_profile s) (journal_entries s) (journal_seq s) rows seq
        (therapist_notes s) (notes_seq s).

Definition with_notes (s : store) (rows : list note_row) (seq : Z) : store :=
  Store (user_profile s) (journal_entries s) (journal_seq s) (therapy_sessions s)
        (sessions_seq s) rows seq.

(** The effect of one statement; an [INSERT] of a profile row whose id is
    taken violates the primary key. *)
Definition run (st : statement) (s : store) : result store :=
  match st with
  | InsertProfile id data =>
      if existsb (fun r => pr_id r =? id) (user_profile s) then Raise IntegrityError
      else Ok (with_profile s (user_profile s ++ [ProfileRow id data]))
  | UpdateProfile data id =>
      Ok (with_profile s
            (map (fun r => if pr_id r =? id then ProfileRow (pr_id r) data else r)
                 (user_profile s)))
  | InsertJournal date entry flag =>
      let id := next_id (journal_seq s) (map je_id (journal_entries s)) in
      Ok (with_journal s (journal_entries s ++ [JournalRow id date entry flag]) id)
  | DeleteJournal id =>
      Ok (with_journal s (filter (fun r => negb (je_id r =? id)) (journal_entries s))
                       (journal_seq s))
  | InsertSession date approach data =>
      let id := next_id (sessions_seq s) (map ts_id (therapy_sessions s)) in
      Ok (with_sessions s (therapy_sessions s ++ [SessionRow id date approach data]) id)
  | InsertNote date notes =>
      let id := next_id (notes_seq s) (map tn_id (therapist_notes s)) in
      Ok (with_notes s (therapist_notes s ++ [NoteRow id date notes]) id)
  end.

(** *** Connections

    A connection sees its own uncommitted changes; the file changes only at
    a commit.  A statement that changes the store opens a transaction when
    none is open, so everything since the last commit is pending. *)

Record connection := Connection {
  file : store;       (* what the database file holds *)
  current : store;    (* what this connection sees *)
  closed : bool }.

(** [sqlite3.connect(path)]: a missing file is created empty. *)
Definition connect (existing : option store) : connection :=
  let s := match existing with Some s => s | None => empty end in
  Connection s s false.

(** Every use of a closed connection or of its cursors fails. *)
Definition check_open (c : connection) : result unit :=
  if closed c then Raise ProgrammingError else Ok tt.

(** [cursor.execute(statement)] for a statement that changes the store. *)
Definition execute (st : statement) (c : connection) : result connection :=
  let* _ := check_open c in
  let* s := run st (current c) in
  Ok (Connection (file c) s false).

(** [cursor.execute(query)] followed by [fetchone] or [fetchall]. *)
Definition query {A : Type} (q : store -> A) (c : connection) : result A :=
  let* _ := check_open c in
  Ok (q (current c)).

(** [connection.commit()] *)
Definition commit (c : connection) : result connection :=
  let* _ := check_open c in
  Ok (Connection (current c) (current c) false).

(** [connection.close()]: what was not committed is rolled back. *)
Definition close (c : connection) : connection :=
  Connection (file c) (file c) true.

(** *** The operations of a method on its connection *)

Inductive operation : Type :=
| Execute (st : statement)      (* cursor.execute(...) *)
| Commit.                       (* connection.commit() *)

Definition perform (o : operation) (c : connection) : result connection :=
  match o with
  | Execute st => execute st c
  | Commit => commit c
  end.

(** The operations are carried out one after the other.  The run can be
    cut short from outside -- an error of the database engine, a signal,
    the end of the process --: [cut] is the number of operations that are
    still carried out before that, and [None] when nothing cuts the run
    short.  The connection is returned as the run leaves it: nothing is
    rolled back, and what was executed and not committed stays pending. *)
Fixpoint perform_all (ops : list operation) (cut : option nat) (c : connection)
    : result unit * connection :=
  match ops with
  | [] => (Ok tt, c)
  | o :: rest =>
      match cut with
      | Some O => (Raise OperationalError, c)
      | _ =>
          match perform o c with
          | Ok c' => perform_all rest (option_map Nat.pred cut) c'
          | Raise e => (Raise e, c)
          end
      end
  end.

End Sqlite.

(** ** JSON ([json.dumps] and [json.loads] with their default settings)

    The values are those the two functions exchange.  A float is carried as
    the literal that denotes it; nothing is computed with floats. *)

Module Json.

#[warnings="-register-all"]
Inductive pyval : Type :=
| PNone
| PBool (b : bool)
| PInt (n : Z)
| PFloat (literal : string)
| PStr (s : string)
| PList (items : list pyval)
| PTuple (items : list pyval)
| PDict (pairs : list (string * pyval)).   (* in insertion order *)

(** *** Writing *)

Definition hexchar (d : Z) : Z := if d <? 10 then 48 + d else 87 + d.

(** A backslash, [u] and four hexadecimal digits. *)
Definition u_escape (n : Z) : bytes :=
  [92; 117; hexchar (n / 4096 mod 16); hexchar (n / 256 mod 16);
   hexchar (n / 16 mod 16); hexchar (n mod 16)].

(** The text of one character in a string: quote and backslash get a
    backslash, five control characters have a letter, the other printable
    ASCII characters stand for themselves and everything else is written
    with [u] escapes, as a surrogate pair beyond the basic plane. *)
Definition escape_cp (cp : Z) : bytes :=
  if cp =? 34 then [92; 34]
  else if cp =? 92 then [92; 92]
  else if cp =? 10 then [92; 110]
  else if cp =? 13 then [92; 114]
  else if cp =? 9 then [92; 116]
  else if cp =? 8 then [92; 98]
  else if cp =? 12 then [92; 102]
  else if (32 <=? cp) && (cp <=? 126) then [cp]
  else if cp <? 65536 then u_escape cp
  else
    let v := cp - 65536 in
    u_escape (55296 + v / 1024) ++ u_escape (56320 + v mod 1024).

(** The characters of a string; a string that is not UTF-8 is no Python
    string, and its bytes are taken one by one. *)
Definition chars_of (s : string) : list Z :=
  match Utf8.code_points (of_string s) with
  | Some cps => cps
  | None => of_string s
  end.

Definition encode_basestring_ascii (s : string) : bytes :=
  [34] ++ flat_map escape_cp (chars_of s) ++ [34].

(** [sep.join(parts)] *)
Fixpoint join (sep : bytes) (parts : list bytes) : bytes :=
  match parts with
  | [] => []
  | [p] => p
  | p :: rest => p ++ sep ++ join sep rest
  end.

Fixpoint encode (v : pyval) : bytes :=
  match v with
  | PNone => of_string "null"
  | PBool true => of_string "true"
  | PBool false => of_string "false"
  | PInt n => of_string (Text.str_of_int n)
  | PFloat literal => of_string literal
  | PStr s => encode_basestring_ascii s
  | PList items | PTuple items =>
      [91] ++ join [44; 32] (map encode items) ++ [93]
  | PDict pairs =>
      [123]
      ++ join [44; 32]
           (map (fun kv => let '(k, x) := kv in
                           encode_basestring_ascii k ++ [58; 32] ++ encode x) pairs)
      ++ [125]
  end.

(** [json.dumps(obj)] *)
Definition dumps (v : pyval) : string := to_string (encode v).

(** *** Reading *)

Definition is_ws (c : Z) : bool := (c =? 32) || (c =? 9) || (c =? 10) || (c =? 13).

Fixpoint skip_ws (s : bytes) : bytes :=
  match s with
  | c :: r => if is_ws c then skip_ws r else s
  | [] => []
  end.

Definition hexval (c : Z) : option Z :=
  if (48 <=? c) && (c <=? 57) then Some (c - 48)
  else if (97 <=? c) && (c <=? 102) then Some (c - 87)
  else if (65 <=? c) && (c <=? 70) then Some (c - 55)
  else None.

Definition decode_uXXXX (s : bytes) : option (Z * bytes) :=
  match s with
  | a :: b :: c :: d :: r =>
      match hexval a, hexval b, hexval c, hexval d with
      | Some x, Some y, Some z, Some w => Some (((x * 16 + y) * 16 + z) * 16 + w, r)
      | _, _, _, _ => None
      end
  | _ => None
  end.

(** The character that a letter after a backslash stands for. *)
Definition unescape (e : Z) : option Z :=
  if (e =? 34) || (e =? 92) || (e =? 47) then Some e
  else if e =? 98 then Some 8
  else if e =? 102 then Some 12
  else if e =? 110 then Some 10
  else if e =? 114 then Some 13
  else if e =? 116 then Some 9
  else None.

(** The rest of a string after its opening quote: the characters up to the
    closing quote, and what follows it.  [acc] holds the characters read so
    far, in UTF-8. *)
Fixpoint scanstring (fuel : nat) (s : bytes) (acc : bytes) : option (bytes * bytes) :=
  match fuel with
  | O => None
  | S f =>
      match s with
      | [] => None
      | c :: r =>
          if c =? 34 then Some (acc, r)
          else if c =? 92 then
            match r with
            | [] => None
            | e :: r1 =>
                if e =? 117 then
                  match decode_uXXXX r1 with
                  | None => None
                  | Some (uni, r2) =>
                      let single := scanstring f r2 (acc ++ Utf8.encode_cp uni) in
                      if (55296 <=? uni) && (uni <=? 56319) then
                        match r2 with
                        | b1 :: b2 :: r3 =>
                            if (b1 =? 92) && (b2 =? 117) then
                              match decode_uXXXX r3 with
                              | None => None
                              | Some (uni2, r4) =>
                                  if (56320 <=? uni2) && (uni2 <=? 57343) then
                                    scanstring f r4
                                      (acc ++ Utf8.encode_cp
                                                (65536 + ((uni - 55296) * 1024 + (uni2 - 56320))))
                                  else single
                              end
                            else single
                        | _ => single
                        end
                      else single
                  end
                else
                  match unescape e with
                  | Some ch => scanstring f r1 (acc ++ [ch])
                  | None => None
                  end
            end
          else if c <? 32 then None
          else scanstring f r (acc ++ [c])
      end
  end.

Definition is_digit (c : Z) : bool := (48 <=? c) && (c <=? 57).

(** The longest run of digits at the front, and the rest. *)
Fixpoint take_digits (s : bytes) : bytes * bytes :=
  match s with
  | c :: r => if is_digit c then let (ds, r') := take_digits r in (c :: ds, r') else ([], s)
  | [] => ([], [])
  end.

Definition int_of_digits (ds : bytes) : Z :=
  fold_left (fun a d => a * 10 + (d - 48)) ds 0.

(** An optional fraction: a point and at least one digit. *)
Definition take_frac (s : bytes) : bytes * bytes :=
  match s with
  | c :: r =>
      if c =? 46 then
        match take_digits r with
        | ([], _) => ([], s)
        | (ds, r') => (c :: ds, r')
        end
      else ([], s)
  | [] => ([], [])
  end.

(** An optional exponent: [e] or [E], an optional sign and at least one
    digit. *)
Definition take_exp (s : bytes) : bytes * bytes :=
  match s with
  | c :: r =>
      if (c =? 101) || (c =? 69) then
        let (sign, r1) :=
          match r with
          | g :: r' => if (g =? 43) || (g =? 45) then ([g], r') else ([], r)
          | [] => ([], r)
          end in
        match take_digits r1 with
        | ([], _) => ([], s)
        | (ds, r') => (c :: sign ++ ds, r')
        end
      else ([], s)
  | [] => ([], [])
  end.

(** A number: an integer part without superfluous zeros, then an optional
    fraction and exponent, which make it a float. *)
Definition scan_number (s : bytes) : option (pyval * bytes) :=
  let (sign, s1) :=
    match s with
    | c :: r => if c =? 45 then ([c], r) else ([], s)
    | [] => ([], s)
    end in
  let int_part :=
    match s1 with
    | d :: r =>
        if d =? 48 then Some ([d], r)
        else if is_digit d then let (ds, r') := take_digits r in Some (d :: ds, r')
        else None
    | [] => None
    end in
  match int_part with
  | None => None
  | Some (ds, r) =>
      let (frac, r1) := take_frac r in
      let (exp, r2) := take_exp r1 in
      match frac, exp with
      | [], [] =>
          Some (PInt (match sign with
                      | [] => int_of_digits ds
                      | _ :: _ => - int_of_digits ds
                      end), r2)
      | _, _ => Some (PFloat (to_string (sign ++ ds ++ frac ++ exp)), r2)
      end
  end.

(** [s] without the prefix [p], when it has it. *)
Fixpoint strip_prefix (p s : bytes) : option bytes :=
  match p with
  | [] => Some s
  | a :: p' =>
      match s with
      | b :: s' => if a =? b then strip_prefix p' s' else None
      | [] => None
      end
  end.

Definition scan_literal (s : bytes) : option (pyval * bytes) :=
  let try (word : string) (v : pyval) (otherwise : option (pyval * bytes)) :=
    match strip_prefix (of_string word) s with
    | Some r => Some (v, r)
    | None => otherwise
    end in
  try "null"%string PNone
    (try "true"%string (PBool true)
       (try "false"%string (PBool false)
          (match scan_number s with
           | Some res => Some res
           | None =>
               try "NaN"%string (PFloat "NaN"%string)
                 (try "Infinity"%string (PFloat "Infinity"%string)
                    (try "-Infinity"%string (PFloat "-Infinity"%string) None))
           end))).

(** [dict(pairs)]: a key that comes again keeps its place and takes the new
    value. *)
Fixpoint dict_set (k : string) (v : pyval) (d : list (string * pyval)) :=
  match d with
  | [] => [(k, v)]
  | (k', v') :: r => if (k =? k')%string then (k, v) :: r else (k', v') :: dict_set k v r
  end.

Definition dict_of_pairs (pairs : list (string * pyval)) : list (string * pyval) :=
  fold_left (fun d kv => dict_set (fst kv) (snd kv) d) pairs [].

(** The scanner: a value at the front of [s], and the rest.  [scan_array]
    and [scan_object] read the items after the opening bracket, with the
    items read so far in [acc]. *)
Fixpoint scan_once (fuel : nat) (s : bytes) : option (pyval * bytes) :=
  match fuel with
  | O => None
  | S f =>
      match s with
      | [] => None
      | c :: r =>
          if c =? 34 then
            match scanstring (List.length r) r [] with
            | Some (str, r') => Some (PStr (to_string str), r')
            | None => None
            end
          else if c =? 123 then
            match skip_ws r with
            | [] => None
            | c1 :: r1 =>
                if c1 =? 125 then Some (PDict [], r1)
                else scan_object f (c1 :: r1) []
            end
          else if c =? 91 then
            match skip_ws r with
            | [] => None
            | c1 :: r1 =>
                if c1 =? 93 then Some (PList [], r1)
                else scan_array f (c1 :: r1) []
            end
          else scan_literal s
      end
  end

with scan_array (fuel : nat) (s : bytes) (acc : list pyval) : option (pyval * bytes) :=
  match fuel with
  | O => None
  | S f =>
      match scan_once f s with
      | None => None
      | Some (v, r) =>
          match skip_ws r with
          | [] => None
          | c :: r1 =>
              if c =? 93 then Some (PList (acc ++ [v]), r1)
              else if c =? 44 then scan_array f (skip_ws r1) (acc ++ [v])
              else None
          end
      end
  end

with scan_object (fuel : nat) (s : bytes) (acc : list (string * pyval))
    : option (pyval * bytes) :=
  match fuel with
  | O => None
  | S f =>
      match s with
      | [] => None
      | q :: r =>
          if negb (q =? 34) then None
          else
            match scanstring (List.length r) r [] with
            | None => None
            | Some (key, r1) =>
                match skip_ws r1 with
                | [] => None
                | c :: r2 =>
                    if negb (c =? 58) then None
                    else
                      match scan_once f (skip_ws r2) with
                      | None => None
                      | Some (v, r3) =>
                          let acc' := acc ++ [(to_string key, v)] in
                          match skip_ws r3 with
                          | [] => None
                          | c' :: r4 =>
                              if c' =? 125 then Some (PDict (dict_of_pairs acc'), r4)
                              else if c' =? 44 then scan_object f (skip_ws r4) acc'
                              else None
                          end
                      end
                end
            end
      end
  end.

(** [json.loads(s)]: one value, with nothing but white space around it.  A
    text that starts with a byte order mark is refused. *)
Definition loads (s : string) : result pyval :=
  let text := of_string s in
  match strip_prefix [239; 187; 191] text with
  | Some _ => Raise JSONDecodeError
  | None =>
      match scan_once (2 * List.length text + 2) (skip_ws text) with
      | Some (v, r) =>
          match skip_ws r with
          | [] => Ok v
          | _ :: _ => Raise JSONDecodeError
          end
      | None => Raise JSONDecodeError
      end
  end.

End Json.

(** ** The [Database] class *)



(** The dictionaries that the listing methods return. *)
Module Entry.
Record t := Make { id : Z; date : string; entry : string; is_condensed : bool }.
End Entry.

Module Session.
Record t := Make { id : Z; date : string; approach : string; session_data : Json.pyval }.
End Session.

Module Note.
Record t := Make { id : Z; date : string; note : string }.
End Note.

(** [[f(x) for x in xs]], stopping at the first exception. *)
Fixpoint map_result {A B : Type} (f : A -> result B) (xs : list A) : result (list B) :=
  match xs with
  | [] => Ok []
  | x :: rest =>
      let* y := f x in
      let* ys := map_result f rest in
      Ok (y :: ys)
  end.

Module Database.

Import Sqlite.

(** The attributes of an object; [db_path] names the file that
    [connection] works on, and [cursor] belongs to [connection]. *)
Record t := Make { key : bytes; fernet : Fernet.t; connection : Sqlite.connection }.

Definition with_connection (db : t) (c : Sqlite.connection) : t :=
  Make (key db) (fernet db) c.

Definition salt : bytes := of_string "dr_claude_salt".

Definition _derive_key (password : string) : bytes :=
  Base64.encode (Pbkdf2.derive (Utf8.str_encode password) salt 100000 32).

(** The four [CREATE TABLE IF NOT EXISTS] statements leave a store of the
    schema as it is and give a new file its empty tables. *)
Definition _initialize_db (existing : option store) : result Sqlite.connection :=
  Sqlite.commit (Sqlite.connect existing).

(** [Database(db_path, password)], where [existing] is what the file at
    [db_path] holds, if there is one.  Creating the directory of the file is
    left to the file system. *)
Definition __init__ (existing : option store) (password : string) : result t :=
  let key := _derive_key password in
  let* f := Fernet.new key in
  let* c := _initialize_db existing in
  Ok (Make key f c).

Definition encrypt (db : t) (data : string) (w : World.t) : result (string * World.t) :=
  let (token, w') := Fernet.encrypt (fernet db) (Utf8.str_encode data) w in
  let* s := Utf8.bytes_decode token in
  Ok (s, w').

Definition decrypt (db : t) (encrypted_data : string) : result string :=
  let* data := Fernet.decrypt (fernet db) (Utf8.str_encode encrypted_data) in
  Utf8.bytes_decode data.

Definition save_user_profile (db : t) (profile_data : Json.pyval) (w : World.t)
    : result (t * World.t) :=
  let json_data := Json.dumps profile_data in
  let* (encrypted_data, w') := encrypt db json_data w in
  let* count := Sqlite.query count_profile (connection db) in
  let* c :=
    if count =? 0
    then Sqlite.execute (InsertProfile 1 encrypted_data) (connection db)
    else Sqlite.execute (UpdateProfile encrypted_data 1) (connection db) in
  let* c' := Sqlite.commit c in
  Ok (with_connection db c', w').

Definition get_user_profile (db : t) : result Json.pyval :=
  let* found := Sqlite.query (select_profile 1) (connection db) in
  match found with
  | None => Ok (Json.PDict [])
  | Some encrypted_data =>
      let* json_data := decrypt db encrypted_data in
      Json.loads json_data
  end.

(** [date] when it is given, and the current local time otherwise. *)
Definition date_or_now (date : option string) (w : World.t) : string * World.t :=
  match date with
  | Some d => (d, w)
  | None => let (n, w') := World.now w in (Datetime.isoformat n, w')
  end.

Definition add_journal_entry (db : t) (entry : string) (date : option string) (w : World.t)
    : result (t * World.t) :=
  let (date, w1) := date_or_now date w in
  let* (encrypted_entry, w2) := encrypt db entry w1 in
  let* c := Sqlite.execute (InsertJournal date encrypted_entry 0) (connection db) in
  let* c' := Sqlite.commit c in
  Ok (with_connection db c', w2).

Definition get_journal_entries (db : t) (start_date end_date : option string)
    : result (list Entry.t) :=
  let* rows :=
    Sqlite.query (fun s => select_by_date je_date start_date end_date (journal_entries s))
                 (connection db) in
  map_result
    (fun row =>
       let* entry_text := decrypt db (je_entry row) in
       Ok (Entry.Make (je_id row) (je_date row) entry_text (negb (je_is_condensed row =? 0))))
    rows.





(** The last instant of the month that starts at [target_month]: four days
    after the 28th lies in the next month, whose first midnight is one
    microsecond too far. *)
Definition month_end (target_month : Datetime.t) : result Datetime.t :=
  let* d28 := Datetime.replace_day target_month 28 in
  let* later := Datetime.add_days 4 d28 in
  let* next_month := Datetime.replace_day_midnight later 1 in
  Datetime.sub_microsecond next_month.

(** [start_date] and [end_date] as [condense_journal_entries] computes
    them. *)
Definition month_range (target_month : Datetime.t) : result (string * string) :=
  let start_date := Datetime.isoformat target_month in
  let* end_date := month_end target_month in
  Ok (start_date, Datetime.isoformat end_date).

(** The text of the summary: a heading and the entries in the order given. *)
Definition condensed_text_of (target_month : Datetime.t) (entries : list Entry.t) : string :=
  fold_left
    (fun text e =>
       text ++ "Date: " ++ Entry.date e ++ Text.nl ++ Entry.entry e ++ Text.nl ++ Text.nl)%string
    entries
    ("Condensed journal entries for " ++ Datetime.strftime_B_Y target_month ++ ":"
     ++ Text.nl ++ Text.nl)%string.

(** The statements that change the store, in the order in which they are
    issued: the summary is inserted, then each entry is deleted. *)
Definition condense_writes (condensed_date encrypted_condensed : string)
    (entries : list Entry.t) : list statement :=
  InsertJournal condensed_date encrypted_condensed 1
  :: map (fun e => DeleteJournal (Entry.id e)) entries.

Fixpoint execute_all (sts : list statement) (c : Sqlite.connection)
    : result Sqlite.connection :=
  match sts with
  | [] => Ok c
  | st :: rest =>
      let* c' := Sqlite.execute st c in
      execute_all rest c'
  end.

Definition condense_journal_entries (db : t) (month year : Z) (w : World.t)
    : result (t * World.t) :=
  let* target_month := Datetime.new year month 1 in
  let* (start_date, end_date) := month_range target_month in
  let* entries := get_journal_entries db (Some start_date) (Some end_date) in
  match entries with
  | [] => Ok (db, w)
  | _ :: _ =>
      let condensed_text := condensed_text_of target_month entries in
      let condensed_date := Datetime.isoformat target_month in
      let* (encrypted_condensed, w') := encrypt db condensed_text w in
      let* c :=
        execute_all (condense_writes condensed_date encrypted_condensed entries)
                    (connection db) in
      let* c' := Sqlite.commit c in
      Ok (with_connection db c', w')
  end.

(** All that the method does on the connection, in the order in which it
    does it: the writes, and the commit at the end. *)
Definition condense_operations (condensed_date encrypted_condensed : string)
    (entries : list Entry.t) : list operation :=
  map Execute (condense_writes condensed_date encrypted_condensed entries) ++ [Commit].

(** [condense_journal_entries] in a run that may be cut short (see
    [Sqlite.perform_all]): the same steps in the same order, with what the
    call returns or raises and the object as the call leaves it.  The
    method has no handler and rolls nothing back. *)
Definition condense_journal_entries_cut (cut : option nat) (db : t) (month year : Z)
    (w : World.t) : result (t * World.t) * t :=
  match (let* target_month := Datetime.new year month 1 in
         let* (start_date, end_date) := month_range target_month in
         let* entries := get_journal_entries db (Some start_date) (Some end_date) in
         Ok (target_month, entries)) with
  | Raise e => (Raise e, db)
  | Ok (target_month, entries) =>
      match entries with
      | [] => (Ok (db, w), db)
      | _ :: _ =>
          let condensed_text := condensed_text_of target_month entries in
          let condensed_date := Datetime.isoformat target_month in
          match encrypt db condensed_text w with
          | Raise e => (Raise e, db)
          | Ok (encrypted_condensed, w') =>
              let (r, c) :=
                Sqlite.perform_all
                  (condense_operations condensed_date encrypted_condensed entries)
                  cut (connection db) in
              let db' := with_connection db c in
              (let* _ := r in Ok (db', w'), db')
          end
      end
  end.

Definition close (db : t) : t := with_connection db (Sqlite.close (connection db)).

End Database.

(** ** Notions used in the statements and proofs *)

(** The products of the coefficients of the two column mixings, for one byte. *)
Definition mix_coeff_check (x : Z) : bool :=
  (Aes.xor4 (Aes.gmul 14 (Aes.gmul 2 x)) (Aes.gmul 11 x) (Aes.gmul 13 x) (Aes.gmul 9 (Aes.gmul 3 x)) =? x) &&
  (Aes.xor4 (Aes.gmul 14 (Aes.gmul 3 x)) (Aes.gmul 11 (Aes.gmul 2 x)) (Aes.gmul 13 x) (Aes.gmul 9 x) =? 0) &&
  (Aes.xor4 (Aes.gmul 14 x) (Aes.gmul 11 (Aes.gmul 3 x)) (Aes.gmul 13 (Aes.gmul 2 x)) (Aes.gmul 9 x) =? 0) &&
  (Aes.xor4 (Aes.gmul 14 x) (Aes.gmul 11 x) (Aes.gmul 13 (Aes.gmul 3 x)) (Aes.gmul 9 (Aes.gmul 2 x)) =? 0) &&
  (Aes.xor4 (Aes.gmul 9 (Aes.gmul 2 x)) (Aes.gmul 14 x) (Aes.gmul 11 x) (Aes.gmul 13 (Aes.gmul 3 x)) =? 0) &&
  (Aes.xor4 (Aes.gmul 9 (Aes.gmul 3 x)) (Aes.gmul 14 (Aes.gmul 2 x)) (Aes.gmul 11 x) (Aes.gmul 13 x) =? x) &&
  (Aes.xor4 (Aes.gmul 9 x) (Aes.gmul 14 (Aes.gmul 3 x)) (Aes.gmul 11 (Aes.gmul 2 x)) (Aes.gmul 13 x) =? 0) &&
  (Aes.xor4 (Aes.gmul 9 x) (Aes.gmul 14 x) (Aes.gmul 11 (Aes.gmul 3 x)) (Aes.gmul 13 (Aes.gmul 2 x)) =? 0) &&
  (Aes.xor4 (Aes.gmul 13 (Aes.gmul 2 x)) (Aes.gmul 9 x) (Aes.gmul 14 x) (Aes.gmul 11 (Aes.gmul 3 x)) =? 0) &&
  (Aes.xor4 (Aes.gmul 13 (Aes.gmul 3 x)) (Aes.gmul 9 (Aes.gmul 2 x)) (Aes.gmul 14 x) (Aes.gmul 11 x) =? 0) &&
  (Aes.xor4 (Aes.gmul 13 x) (Aes.gmul 9 (Aes.gmul 3 x)) (Aes.gmul 14 (Aes.gmul 2 x)) (Aes.gmul 11 x) =? x) &&
  (Aes.xor4 (Aes.gmul 13 x) (Aes.gmul 9 x) (Aes.gmul 14 (Aes.gmul 3 x)) (Aes.gmul 11 (Aes.gmul 2 x)) =? 0) &&
  (Aes.xor4 (Aes.gmul 11 (Aes.gmul 2 x)) (Aes.gmul 13 x) (Aes.gmul 9 x) (Aes.gmul 14 (Aes.gmul 3 x)) =? 0) &&
  (Aes.xor4 (Aes.gmul 11 (Aes.gmul 3 x)) (Aes.gmul 13 (Aes.gmul 2 x)) (Aes.gmul 9 x) (Aes.gmul 14 x) =? 0) &&
  (Aes.xor4 (Aes.gmul 11 x) (Aes.gmul 13 (Aes.gmul 3 x)) (Aes.gmul 9 (Aes.gmul 2 x)) (Aes.gmul 14 x) =? 0) &&
  (Aes.xor4 (Aes.gmul 11 x) (Aes.gmul 13 x) (Aes.gmul 9 (Aes.gmul 3 x)) (Aes.gmul 14 (Aes.gmul 2 x)) =? x).

(** The two components of the state of the iteration are digests or
    exclusive ors of digests. *)
Definition digest_pair (ut : bytes * bytes) : Prop :=
  (List.length (fst ut) = 32%nat /\ wf (fst ut))
  /\ (List.length (snd ut) = 32%nat /\ wf (snd ut)).

(** The product [k * x] in the field as the sum of the products of [k] with
    the bits of [x]. *)
Definition bit_term (k x : Z) (i : Z) : Z :=
  if Z.testbit x i then Aes.gmul k (2 ^ i) else 0.

Definition gmul_bits (k x : Z) : Z :=
  fold_left Z.lxor (map (bit_term k x) [0; 1; 2; 3; 4; 5; 6; 7]) 0.

(** The facts on the six-bit digits and on the splitting of a byte that the
    decoder rests on, as tests. *)
Definition sextet_check (i : Z) : bool :=
  negb (Base64.enc_char i =? Base64.pad_char)
  && match Base64.dec_char (Base64.enc_char i) with Some j => j =? i | None => false end
  && (0 <=? Base64.enc_char i) && (Base64.enc_char i <? 128).

Definition byte_split_check (a : Z) : bool :=
  (Z.shiftr a 2 <? 64) && (0 <=? Z.shiftr a 2) && (Z.land a 3 <? 4) && (0 <=? Z.land a 3)
  && (Z.lor (Z.shiftl (Z.shiftr a 2) 2) (Z.land a 3) mod 256 =? a)
  && (Z.shiftr a 4 <? 16) && (0 <=? Z.shiftr a 4) && (Z.land a 15 <? 16) && (0 <=? Z.land a 15)
  && (Z.lor (Z.shiftl (Z.shiftr a 4) 4) (Z.land a 15) mod 256 =? a)
  && (Z.shiftr a 6 <? 4) && (0 <=? Z.shiftr a 6) && (Z.land a 63 <? 64) && (0 <=? Z.land a 63)
  && (Z.lor (Z.shiftl (Z.shiftr a 6) 6) (Z.land a 63) mod 256 =? a).

(** Two digits of [hi_bits] and [lo_bits] bits put together. *)
Definition join_check (lo_bits : Z) (p q : Z) : bool :=
  let v := Z.lor (Z.shiftl p lo_bits) q in
  (0 <=? v) && (v <? 64) && (Z.shiftr v lo_bits =? p) && (Z.land v (2 ^ lo_bits - 1) =? q).

(** ** Notions used in the statements about the database *)

(** The first and the last instant of a calendar month. *)
Definition first_instant (y m : Z) : Datetime.t := Datetime.Make y m 1 0 0 0 0.

Definition last_instant (y m : Z) : Datetime.t :=
  Datetime.Make y m (Datetime.days_in_month y m) 23 59 59 999999.

(** The months of the calendar but the very last one. *)
Definition month_in_calendar (y m : Z) : Prop :=
  1 <= y <= 9999 /\ 1 <= m <= 12 /\ (y, m) <> (9999, 12).

(** The connection after a month has been condensed: the summary row is
    appended with the next id, the rows with the ids of the folded entries
    are gone, and everything is committed. *)
Definition condensed_store (old : Sqlite.store) (condensed_date encrypted : string)
    (ids : list Z) : Sqlite.store :=
  let id := Sqlite.next_id (Sqlite.journal_seq old)
                           (map Sqlite.je_id (Sqlite.journal_entries old)) in
  Sqlite.with_journal old
    (filter (fun r => negb (existsb (Z.eqb (Sqlite.je_id r)) ids))
            (Sqlite.journal_entries old
             ++ [Sqlite.JournalRow id condensed_date encrypted 1]))
    id.

Definition condensed_connection (c : Sqlite.connection) (condensed_date encrypted : string)
    (ids : list Z) : Sqlite.connection :=
  let s := condensed_store (Sqlite.current c) condensed_date encrypted ids in
  Sqlite.Connection s s false.

(** What a reader finds who opens the database file with a connection of
    their own, while the connection [c] is open or after it is gone. *)
Definition file_reader (c : Sqlite.connection) : Sqlite.store :=
  Sqlite.current (Sqlite.connect (Some (Sqlite.file c))).

(** [a in b] for two strings. *)
Definition contains (b a : string) : Prop :=
  exists before after, b = (before ++ a ++ after)%string.

(** *** A small vault, for examples *)

Definition demo_key : bytes := Base64.encode (map Z.of_nat (seq 0 32)).

Definition demo_world : World.t :=
  World.Make 0 (fun _ => 1700000000%N)
             (fun n => Datetime.Make 2024 1 2 3 4 5 (Z.of_nat n)) 0 (fun i => Z.of_nat i).

(** The object that [Database(path, password)] makes for a new file when
    the key derived from the password is [demo_key]. *)
Definition demo_db : Database.t :=
  Database.Make demo_key
    (Fernet.Make (map Z.of_nat (seq 0 16)) (map Z.of_nat (seq 16 16)))
    (Sqlite.Connection Sqlite.empty Sqlite.empty false).

Definition add_all (entries : list (string * string)) (st : Database.t * World.t)
    : result (Database.t * World.t) :=
  fold_left
    (fun r p => let* (db, w) := r in Database.add_journal_entry db (fst p) (Some (snd p)) w)
    entries (Ok st).

Definition or_else {A : Type} (r : result A) (a : A) : A :=
  match r with Ok x => x | Raise _ => a end.

(** Two entries of May 2023 and one of June. *)
Definition demo_journal : Database.t * World.t :=
  Eval vm_compute in
    or_else (add_all [("alpha", "2023-05-03T10:00:00"); ("beta", "2023-05-20T08:30:00");
                      ("gamma", "2023-06-01T00:00:00")]%string (demo_db, demo_world))
            (demo_db, demo_world).

Definition demo_condensed : Database.t * World.t :=
  Eval vm_compute in
    or_else (Database.condense_journal_entries (fst demo_journal) 5 2023 (snd demo_journal))
            demo_journal.

(** *** The frame of a condensation *)

(** A journal row dated outside the month [month] of [year]. *)
Definition outside_month (year month : Z) (r : Sqlite.journal_row) : bool :=
  negb (Sqlite.date_in_range (Some (Datetime.isoformat (first_instant year month)))
                             (Some (Datetime.isoformat (last_instant year month)))
                             (Sqlite.je_date r)).

(** Between the stores [old] and [new], the journal rows dated outside the
    month are the same, in the same order, and so is everything in the other
    three tables. *)
Definition same_outside_month (year month : Z) (old new : Sqlite.store) : Prop :=
  filter (outside_month year month) (Sqlite.journal_entries new)
  = filter (outside_month year month) (Sqlite.journal_entries old)
  /\ Sqlite.user_profile new = Sqlite.user_profile old
  /\ Sqlite.therapy_sessions new = Sqlite.therapy_sessions old
  /\ Sqlite.sessions_seq new = Sqlite.sessions_seq old
  /\ Sqlite.therapist_notes new = Sqlite.therapist_notes old
  /\ Sqlite.notes_seq new = Sqlite.notes_seq old.

(** The row ids of the journal are pairwise different, as the primary key
    of the table demands. *)
Definition unique_ids (s : Sqlite.store) : Prop :=
  NoDup (map Sqlite.je_id (Sqlite.journal_entries s)).

(** *** The rows that a condensation fetches *)

(** A journal row whose date is between the first and the last instant of
    the month, as text. *)
Definition in_month (year month : Z) (r : Sqlite.journal_row) : bool :=
  (Datetime.isoformat (first_instant year month) <=? Sqlite.je_date r)%string
  && (Sqlite.je_date r <=? Datetime.isoformat (last_instant year month))%string.

(** The entries are the rows of the store that lie in the month, each with
    its id, its date and its flag. *)
Definition fetched_exactly (year month : Z) (s : Sqlite.store) (entries : list Entry.t) : Prop :=
  exists rows,
    Permutation rows (filter (in_month year month) (Sqlite.journal_entries s))
    /\ map Entry.id entries = map Sqlite.je_id rows
    /\ map Entry.date entries = map Sqlite.je_date rows
    /\ map Entry.is_condensed entries
       = map (fun r => negb (Sqlite.je_is_condensed r =? 0)) rows.

(** *** A condensation that is cut short *)

(** The id that the next row of the journal gets. *)
Definition summary_id (s : Sqlite.store) : Z :=
  Sqlite.next_id (Sqlite.journal_seq s) (map Sqlite.je_id (Sqlite.journal_entries s)).

Definition originals_present (s : Sqlite.store) (entries : list Entry.t) : Prop :=
  forall e, In e entries -> In (Entry.id e) (map Sqlite.je_id (Sqlite.journal_entries s)).

Definition originals_absent (s : Sqlite.store) (entries : list Entry.t) : Prop :=
  forall e, In e entries -> ~ In (Entry.id e) (map Sqlite.je_id (Sqlite.journal_entries s)).

(** Either nothing of the condensation is in the store [s], which is the
    store [before] it, or all of it is. *)
Definition nothing_happened (before s : Sqlite.store) (entries : list Entry.t) : Prop :=
  s = before
  /\ originals_present s entries
  /\ ~ In (summary_id before) (map Sqlite.je_id (Sqlite.journal_entries s)).

Definition all_happened (before s : Sqlite.store) (condensed_date encrypted : string)
    (entries : list Entry.t) : Prop :=
  originals_absent s entries
  /\ In (Sqlite.JournalRow (summary_id before) condensed_date encrypted 1)
        (Sqlite.journal_entries s).

Definition demo_entries : list Entry.t :=
  Eval vm_compute in
    or_else (Database.get_journal_entries (fst demo_journal)
               (Some (Datetime.isoformat (first_instant 2023 5)))
               (Some (Datetime.isoformat (last_instant 2023 5)))) [].

Definition demo_encrypted : string * World.t :=
  Eval vm_compute in
    or_else (Database.encrypt (fst demo_journal)
               (Database.condensed_text_of (first_instant 2023 5) demo_entries)
               (snd demo_journal))
            (EmptyString, demo_world).

(** *** The journal as a reader of the vault sees it *)

Definition journal_rows (db : Database.t) : list Sqlite.journal_row :=
  Sqlite.journal_entries (Sqlite.current (Database.connection db)).

(** The text of a stored row; the empty text stands for a row that cannot
    be decrypted. *)
Definition text_of (db : Database.t) (r : Sqlite.journal_row) : string :=
  or_else (Database.decrypt db (Sqlite.je_entry r)) EmptyString.

(** The dictionary that [get_journal_entries] makes of a row. *)
Definition entry_of (db : Database.t) (r : Sqlite.journal_row) : Entry.t :=
  Entry.Make (Sqlite.je_id r) (Sqlite.je_date r) (text_of db r)
             (negb (Sqlite.je_is_condensed r =? 0)).

(** The row holds the text and the date of the pair [p]. *)
Definition row_holds (db : Database.t) (r : Sqlite.journal_row) (p : string * string) : Prop :=
  Database.decrypt db (Sqlite.je_entry r) = Ok (fst p) /\ Sqlite.je_date r = snd p.

(** Every datetime is at least as late as all that come after it. *)
Definition newest_first (stamps : list Datetime.t) : Prop :=
  StronglySorted (fun a b => Datetime.leb b a = true) stamps.

(** An entry to add: its text and its time, the time written as the program
    writes timestamps, with [isoformat]. *)
Definition stamped (p : string * Datetime.t) : string * string :=
  (fst p, Datetime.isoformat (snd p)).

(** The text and the date of an entry, as [add_journal_entry] takes them. *)
Definition as_added (e : Entry.t) : string * string := (Entry.entry e, Entry.date e).

(** *** Tokens under two keys *)




(** *** Well-formed text *)

(** The strings that a Python [str] can be: well-formed UTF-8. *)
Definition valid_text (s : string) : Prop := Utf8.valid (Utf8.str_encode s) = true.

(** *** Five entries in May 2023, as in the test of the repository *)

Definition may_entries : list (string * string) :=
  [("Test entry for day 1", "2023-05-01T00:00:00");
   ("Test entry for day 2", "2023-05-02T00:00:00");
   ("Test entry for day 3", "2023-05-03T00:00:00");
   ("Test entry for day 4", "2023-05-04T00:00:00");
   ("Test entry for day 5", "2023-05-05T00:00:00")]%string.

Definition may_journal : Database.t * World.t :=
  Eval vm_compute in or_else (add_all may_entries (demo_db, demo_world)) (demo_db, demo_world).

Definition may_condensed : Database.t * World.t :=
  Eval vm_compute in
    or_else (Database.condense_journal_entries (fst may_journal) 5 2023 (snd may_journal))
            may_journal.

Definition may_recondensed : Database.t * World.t :=
  Eval vm_compute in
    or_else (Database.condense_journal_entries (fst may_condensed) 5 2023 (snd may_condensed))
            may_condensed.

(** *** JSON data *)

(** A Unicode scalar value: a code point that is no surrogate. *)
Definition scalar (cp : Z) : Prop := 0 <= cp <= 1114111 /\ ~ (55296 <= cp <= 57343).

(** No string comes twice in the list. *)
Fixpoint distinct (keys : list string) : bool :=
  match keys with
  | [] => true
  | k :: rest => negb (existsb (String.eqb k) rest) && distinct rest
  end.

(** The literals of the floats that [json.dumps] writes and [json.loads]
    reads back as the same float: a number with a fraction or an exponent,
    as [repr] gives it for a finite float, and the two infinities.  [NaN]
    is not among them: it is not even equal to itself. *)
Definition float_text (literal : string) : bool :=
  match Json.scan_number (of_string literal) with
  | Some (Json.PFloat l, []) => (l =? literal)%string
  | _ => false
  end
  || (literal =? "Infinity")%string || (literal =? "-Infinity")%string.

(** The values that JSON has: [None], booleans, integers, floats, strings,
    lists and dictionaries whose keys are strings, each key once.  Tuples
    are not among them. *)
Fixpoint json_data (v : Json.pyval) : bool :=
  match v with
  | Json.PNone | Json.PBool _ | Json.PInt _ => true
  | Json.PFloat literal => float_text literal
  | Json.PStr s => Utf8.valid (Utf8.str_encode s)
  | Json.PList items => forallb json_data items
  | Json.PTuple _ => false
  | Json.PDict pairs =>
      forallb (fun kv => let '(k, x) := kv in Utf8.valid (Utf8.str_encode k) && json_data x)
              pairs
      && distinct (map fst pairs)
  end.

(** A bound on the depth to which the reader descends in the text of a
    value. *)
Fixpoint cost (v : Json.pyval) : nat :=
  match v with
  | Json.PList items | Json.PTuple items =>
      S (fold_right (fun x n => S (cost x + n)) O items)
  | Json.PDict pairs =>
      S (fold_right (fun kv n => let '(_, x) := kv in S (cost x + n)) O pairs)
  | _ => 1
  end.

(** What may follow a value in a text: nothing, a comma or a closing
    bracket. *)
Definition ends_value (rest : bytes) : bool :=
  match rest with
  | [] => true
  | c :: _ => (c =? 44) || (c =? 93) || (c =? 125)
  end.

(** Induction on values, with the items of lists and dictionaries. *)
Fixpoint pyval_induction (P : Json.pyval -> Prop)
    (HNone : P Json.PNone) (HBool : forall b, P (Json.PBool b))
    (HInt : forall n, P (Json.PInt n)) (HFloat : forall l, P (Json.PFloat l))
    (HStr : forall s, P (Json.PStr s))
    (HList : forall items, Forall P items -> P (Json.PList items))
    (HTuple : forall items, Forall P items -> P (Json.PTuple items))
    (HDict : forall pairs, Forall (fun kv => P (snd kv)) pairs -> P (Json.PDict pairs))
    (v : Json.pyval) : P v :=
  let rec := pyval_induction P HNone HBool HInt HFloat HStr HList HTuple HDict in
  match v with
  | Json.PNone => HNone
  | Json.PBool b => HBool b
  | Json.PInt n => HInt n
  | Json.PFloat l => HFloat l
  | Json.PStr s => HStr s
  | Json.PList items =>
      HList items
        ((fix all (l : list Json.pyval) : Forall P l :=
            match l with
            | [] => Forall_nil P
            | x :: r => Forall_cons x (rec x) (all r)
            end) items)
  | Json.PTuple items =>
      HTuple items
        ((fix all (l : list Json.pyval) : Forall P l :=
            match l with
            | [] => Forall_nil P
            | x :: r => Forall_cons x (rec x) (all r)
            end) items)
  | Json.PDict pairs =>
      HDict pairs
        ((fix all (l : list (string * Json.pyval)) : Forall (fun kv => P (snd kv)) l :=
            match l with
            | [] => Forall_nil _
            | (k, x) :: r => Forall_cons (k, x) (rec x) (all r)
            end) pairs)
  end.

(** A profile as the program fills it in, and one with a tuple in it. *)
Definition demo_profile : Json.pyval :=
  Json.PDict [("name", Json.PStr "Test User"); ("age", Json.PInt 30);
              ("weight", Json.PFloat "61.5");
              ("goals", Json.PList [Json.PStr "Reduce anxiety"; Json.PStr "Sleep"]);
              ("partner", Json.PNone)]%string.

Definition tuple_profile : Json.pyval :=
  Json.PDict [("languages", Json.PTuple [Json.PStr "en"; Json.PStr "fr"])]%string.

(** The bytes with which the text of a value can begin: a quote, a brace,
    a bracket, the first letter of [null], [true], [false] or [Infinity], a
    minus sign or a digit. *)
Definition value_head (c : Z) : bool :=
  (c =? 34) || (c =? 123) || (c =? 91) || (c =? 110) || (c =? 116) || (c =? 102)
  || (c =? 73) || (c =? 45) || Json.is_digit c.

(** The text of one pair of a dictionary. *)
Definition encode_pair (kv : string * Json.pyval) : bytes :=
  let '(k, x) := kv in Json.encode_basestring_ascii k ++ [58; 32] ++ Json.encode x.

(** What the reader returns for the text of [v], whatever follows it. *)
Definition reads_back (v : Json.pyval) : Prop :=
  json_data v = true ->
  forall fuel rest, (cost v <= fuel)%nat -> ends_value rest = true ->
  Json.scan_once fuel (Json.encode v ++ rest) = Some (v, rest).

(** *** The profile table *)

(** The table as the program keeps it: empty, or the one row with id 1. *)
Definition profile_table_ok (s : Sqlite.store) : Prop :=
  Sqlite.user_profile s = [] \/ exists data, Sqlite.user_profile s = [Sqlite.ProfileRow 1 data].

(** Exactly one row, both in what the connection sees and in the file. *)
Definition one_profile_row (c : Sqlite.connection) : Prop :=
  List.length (Sqlite.user_profile (Sqlite.current c)) = 1%nat
  /\ List.length (Sqlite.user_profile (Sqlite.file c)) = 1%nat.

(** [save_user_profile] called twice with the same data. *)
Definition save_twice (db : Database.t) (profile_data : Json.pyval) (w : World.t)
    : result (Database.t * World.t) :=
  let* (db1, w1) := Database.save_user_profile db profile_data w in
  Database.save_user_profile db1 profile_data w1.

Definition tuple_saved : Database.t * World.t :=
  Eval vm_compute in or_else (save_twice demo_db tuple_profile demo_world) (demo_db, demo_world).

(** The call for May 2023 on the small vault, cut short after the insertion
    of the summary and the first deletion, and an entry added through the
    same object afterwards. *)
Definition cut_demo : result (Database.t * World.t) * Database.t :=
  Eval vm_compute in
    Database.condense_journal_entries_cut (Some 2%nat) (fst demo_journal) 5 2023
                                          (snd demo_journal).

Definition cut_demo_listed : list Entry.t :=
  Eval vm_compute in or_else (Database.get_journal_entries (snd cut_demo) None None) [].

Definition cut_demo_continued : Database.t * World.t :=
  Eval vm_compute in
    or_else (Database.add_journal_entry (snd cut_demo) "delta"
               (Some "2023-07-01T09:00:00"%string) (snd demo_journal))
            demo_journal.

(** *** Timestamps with offsets from UTC *)

(** One o'clock in the afternoon five hours east of Greenwich, which is
    eight in the morning in UTC, and noon in UTC on the same day. *)
Definition one_pm : Datetime.t := Datetime.Make 2023 5 3 13 0 0 0.
Definition noon : Datetime.t := Datetime.Make 2023 5 3 12 0 0 0.

Definition offset_entries : list (string * string) :=
  [("written at noon UTC", Datetime.isoformat_aware noon 0);
   ("written at eight UTC", Datetime.isoformat_aware one_pm 300)]%string.

Definition offset_journal : Database.t * World.t :=
  Eval vm_compute in or_else (add_all offset_entries (demo_db, demo_world)) (demo_db, demo_world).

Definition offset_listed : list Entry.t :=
  Eval vm_compute in or_else (Database.get_journal_entries (fst offset_journal) None None) [].

(** *** Timestamps that are dates *)

(** [date.isoformat()]: the day without a time of day. *)
Definition isoformat_date (dt : Datetime.t) : string :=
  (Text.zero_padded 4 (Datetime.year dt) ++ "-" ++ Text.zero_padded 2 (Datetime.month dt)
   ++ "-" ++ Text.zero_padded 2 (Datetime.day dt))%string.

(** Two entries of May 2023, dated by their days. *)
Definition date_only_entries : list (string * string) :=
  [("first of May", isoformat_date (first_instant 2023 5));
   ("second of May", isoformat_date (Datetime.Make 2023 5 2 0 0 0 0))]%string.

Definition date_only_journal : Database.t * World.t :=
  Eval vm_compute in
    or_else (add_all date_only_entries (demo_db, demo_world)) (demo_db, demo_world).

Definition date_only_fetched : list Entry.t :=
  Eval vm_compute in
    or_else (Database.get_journal_entries (fst date_only_journal)
               (Some (Datetime.isoformat (first_instant 2023 5)))
               (Some (Datetime.isoformat (last_instant 2023 5)))) [].

Definition date_only_condensed : Database.t * World.t :=
  Eval vm_compute in
    or_else (Database.condense_journal_entries (fst date_only_journal) 5 2023
                                               (snd date_only_journal))
            date_only_journal.

(** *** Vaults under other keys *)












(** *** Equality of values in Python *)

(** Python's [==] between a value and a copy of it, as [json.loads] makes
    one of the text of the value: a float that is NaN is equal to no
    float, and so a list, a tuple or a dictionary that holds one is not
    equal to its copy. *)
Fixpoint equal_to_copy (v : Json.pyval) : bool :=
  match v with
  | Json.PFloat literal => negb (literal =? "NaN")%string
  | Json.PList items | Json.PTuple items => forallb equal_to_copy items
  | Json.PDict pairs => forallb (fun kv => equal_to_copy (snd kv)) pairs
  | _ => true
  end.

(** A profile with a NaN in it. *)
Definition nan_profile : Json.pyval := Json.PDict [("score"%string, Json.PFloat "NaN")].

Definition nan_saved : Database.t * World.t :=
  Eval vm_compute in or_else (save_twice demo_db nan_profile demo_world) (demo_db, demo_world).

(** * Proofs *)

(** ** Test vectors *)

Example sha256_abc :
  hex (Sha256.sha256 (of_string "abc")) =
  "ba7816bf8f01cfea414140de5dae2223b00361a396177a9cb410ff61f20015ad"%string.
Proof. vm_compute. reflexivity. Qed.

Example hmac_rfc4231_case2 :
  hex (Hmac.hmac (of_string "Jefe") (of_string "what do ya want for nothing?")) =
  "5bdcc146bf60754e6a042426089575c75a003f089d2739839dec58b964ec3843"%string.
Proof. vm_compute. reflexivity. Qed.

(** ** Facts on bytes, checked over the whole range *)

Lemma xor4_transpose a1 a2 a3 a4 b1 b2 b3 b4 c1 c2 c3 c4 d1 d2 d3 d4 :
  Aes.xor4 (Aes.xor4 a1 a2 a3 a4) (Aes.xor4 b1 b2 b3 b4) (Aes.xor4 c1 c2 c3 c4) (Aes.xor4 d1 d2 d3 d4)
  = Aes.xor4 (Aes.xor4 a1 b1 c1 d1) (Aes.xor4 a2 b2 c2 d2) (Aes.xor4 a3 b3 c3 d3) (Aes.xor4 a4 b4 c4 d4).
Proof.
  unfold Aes.xor4. apply Z.bits_inj'. intros n Hn. rewrite !Z.lxor_spec. btauto.
Qed.

Lemma forall_byte (P : Z -> bool) :
  forallb P Aes.byte_values = true -> forall b, is_byte b -> P b = true.
Proof.
  intros H b Hb. rewrite forallb_forall in H. apply H.
  unfold Aes.byte_values. replace b with (Z.of_nat (Z.to_nat b)) by (unfold is_byte in Hb; lia).
  apply in_map. apply in_seq. unfold is_byte in Hb. lia.
Qed.

Lemma gmul_as_bits k x : In k [9; 11; 13; 14] -> is_byte x -> Aes.gmul k x = gmul_bits k x.
Proof.
  intros Hk Hx.
  assert (E : forallb (fun k => forallb (fun x => Aes.gmul k x =? gmul_bits k x) Aes.byte_values)
                      [9; 11; 13; 14] = true) by (vm_compute; reflexivity).
  rewrite forallb_forall in E. specialize (E k Hk).
  apply Z.eqb_eq. apply (forall_byte _ E x Hx).
Qed.

Lemma bit_term_lxor k a b i :
  bit_term k (Z.lxor a b) i = Z.lxor (bit_term k a i) (bit_term k b i).
Proof.
  unfold bit_term. rewrite Z.lxor_spec.
  destruct (Z.testbit a i), (Z.testbit b i); cbn [xorb];
    rewrite ?Z.lxor_nilpotent, ?Z.lxor_0_l, ?Z.lxor_0_r; reflexivity.
Qed.

Lemma gmul_bits_lxor k a b :
  gmul_bits k (Z.lxor a b) = Z.lxor (gmul_bits k a) (gmul_bits k b).
Proof.
  unfold gmul_bits. cbn [map fold_left]. rewrite !bit_term_lxor.
  generalize (bit_term k a 0) (bit_term k a 1) (bit_term k a 2) (bit_term k a 3)
             (bit_term k a 4) (bit_term k a 5) (bit_term k a 6) (bit_term k a 7)
             (bit_term k b 0) (bit_term k b 1) (bit_term k b 2) (bit_term k b 3)
             (bit_term k b 4) (bit_term k b 5) (bit_term k b 6) (bit_term k b 7).
  intros. apply Z.bits_inj'. intros n Hn. rewrite !Z.lxor_spec, Z.testbit_0_l. btauto.
Qed.

Lemma lxor_byte a b : is_byte a -> is_byte b -> is_byte (Z.lxor a b).
Proof.
  unfold is_byte. intros Ha Hb. split; [apply Z.lxor_nonneg; lia|].
  destruct (Z.eq_dec (Z.lxor a b) 0) as [->|Hz]; [lia|].
  assert (Hp : 0 < Z.lxor a b) by (assert (0 <= Z.lxor a b) by (apply Z.lxor_nonneg; lia); lia).
  apply (Z.log2_lt_pow2 _ 8 Hp).
  pose proof (Z.log2_lxor a b (proj1 Ha) (proj1 Hb)) as Hl.
  assert (La : Z.log2 a < 8)
    by (destruct (Z.eq_dec a 0) as [->|]; [cbn; lia | apply Z.log2_lt_pow2; lia]).
  assert (Lb : Z.log2 b < 8)
    by (destruct (Z.eq_dec b 0) as [->|]; [cbn; lia | apply Z.log2_lt_pow2; lia]).
  lia.
Qed.

Lemma gmul_linear k : In k [9; 11; 13; 14] -> forall a b, is_byte a -> is_byte b ->
  Aes.gmul k (Z.lxor a b) = Z.lxor (Aes.gmul k a) (Aes.gmul k b).
Proof.
  intros Hk a b Ha Hb.
  rewrite !(gmul_as_bits k) by auto using lxor_byte.
  apply gmul_bits_lxor.
Qed.

Lemma mix_coeffs x : is_byte x ->
  Aes.xor4 (Aes.gmul 14 (Aes.gmul 2 x)) (Aes.gmul 11 x) (Aes.gmul 13 x) (Aes.gmul 9 (Aes.gmul 3 x)) = x /\
  Aes.xor4 (Aes.gmul 14 (Aes.gmul 3 x)) (Aes.gmul 11 (Aes.gmul 2 x)) (Aes.gmul 13 x) (Aes.gmul 9 x) = 0 /\
  Aes.xor4 (Aes.gmul 14 x) (Aes.gmul 11 (Aes.gmul 3 x)) (Aes.gmul 13 (Aes.gmul 2 x)) (Aes.gmul 9 x) = 0 /\
  Aes.xor4 (Aes.gmul 14 x) (Aes.gmul 11 x) (Aes.gmul 13 (Aes.gmul 3 x)) (Aes.gmul 9 (Aes.gmul 2 x)) = 0 /\
  Aes.xor4 (Aes.gmul 9 (Aes.gmul 2 x)) (Aes.gmul 14 x) (Aes.gmul 11 x) (Aes.gmul 13 (Aes.gmul 3 x)) = 0 /\
  Aes.xor4 (Aes.gmul 9 (Aes.gmul 3 x)) (Aes.gmul 14 (Aes.gmul 2 x)) (Aes.gmul 11 x) (Aes.gmul 13 x) = x /\
  Aes.xor4 (Aes.gmul 9 x) (Aes.gmul 14 (Aes.gmul 3 x)) (Aes.gmul 11 (Aes.gmul 2 x)) (Aes.gmul 13 x) = 0 /\
  Aes.xor4 (Aes.gmul 9 x) (Aes.gmul 14 x) (Aes.gmul 11 (Aes.gmul 3 x)) (Aes.gmul 13 (Aes.gmul 2 x)) = 0 /\
  Aes.xor4 (Aes.gmul 13 (Aes.gmul 2 x)) (Aes.gmul 9 x) (Aes.gmul 14 x) (Aes.gmul 11 (Aes.gmul 3 x)) = 0 /\
  Aes.xor4 (Aes.gmul 13 (Aes.gmul 3 x)) (Aes.gmul 9 (Aes.gmul 2 x)) (Aes.gmul 14 x) (Aes.gmul 11 x) = 0 /\
  Aes.xor4 (Aes.gmul 13 x) (Aes.gmul 9 (Aes.gmul 3 x)) (Aes.gmul 14 (Aes.gmul 2 x)) (Aes.gmul 11 x) = x /\
  Aes.xor4 (Aes.gmul 13 x) (Aes.gmul 9 x) (Aes.gmul 14 (Aes.gmul 3 x)) (Aes.gmul 11 (Aes.gmul 2 x)) = 0 /\
  Aes.xor4 (Aes.gmul 11 (Aes.gmul 2 x)) (Aes.gmul 13 x) (Aes.gmul 9 x) (Aes.gmul 14 (Aes.gmul 3 x)) = 0 /\
  Aes.xor4 (Aes.gmul 11 (Aes.gmul 3 x)) (Aes.gmul 13 (Aes.gmul 2 x)) (Aes.gmul 9 x) (Aes.gmul 14 x) = 0 /\
  Aes.xor4 (Aes.gmul 11 x) (Aes.gmul 13 (Aes.gmul 3 x)) (Aes.gmul 9 (Aes.gmul 2 x)) (Aes.gmul 14 x) = 0 /\
  Aes.xor4 (Aes.gmul 11 x) (Aes.gmul 13 x) (Aes.gmul 9 (Aes.gmul 3 x)) (Aes.gmul 14 (Aes.gmul 2 x)) = x.
Proof.
  intros Hx.
  assert (E : forallb mix_coeff_check Aes.byte_values = true) by (vm_compute; reflexivity).
  assert (H := forall_byte _ E x Hx). unfold mix_coeff_check in H.
  repeat (apply andb_prop in H; destruct H as [H ?]).
  repeat match goal with Hq : (_ =? _) = true |- _ => apply Z.eqb_eq in Hq end.
  repeat split; assumption.
Qed.

Lemma gmul_byte k x : In k [2; 3] -> is_byte x -> is_byte (Aes.gmul k x).
Proof.
  intros Hk Hx.
  assert (E : forallb (fun k => forallb (fun x => (0 <=? Aes.gmul k x) && (Aes.gmul k x <? 256))
                                 Aes.byte_values) [2; 3] = true) by (vm_compute; reflexivity).
  rewrite forallb_forall in E. specialize (E k Hk).
  assert (H := forall_byte _ E x Hx). apply andb_prop in H. destruct H. unfold is_byte. lia.
Qed.

Opaque Aes.gmul.

Lemma xor4_byte a b c d : is_byte a -> is_byte b -> is_byte c -> is_byte d -> is_byte (Aes.xor4 a b c d).
Proof. intros. unfold Aes.xor4. auto using lxor_byte. Qed.

Lemma gmul_xor4 k a b c d : In k [9; 11; 13; 14] ->
  is_byte a -> is_byte b -> is_byte c -> is_byte d ->
  Aes.gmul k (Aes.xor4 a b c d) = Aes.xor4 (Aes.gmul k a) (Aes.gmul k b) (Aes.gmul k c) (Aes.gmul k d).
Proof.
  intros Hk Ha Hb Hc Hd. unfold Aes.xor4.
  rewrite !(gmul_linear k Hk); auto using lxor_byte.
Qed.

Lemma xor4_zero a : Aes.xor4 a 0 0 0 = a.
Proof. unfold Aes.xor4. rewrite !Z.lxor_0_r. reflexivity. Qed.


Lemma inv_mix_column_mix a b c d : is_byte a -> is_byte b -> is_byte c -> is_byte d ->
  Aes.inv_mix_column (Aes.mix_column [a; b; c; d]) = [a; b; c; d].
Proof.
  intros Ha Hb Hc Hd.
  unfold Aes.inv_mix_column, Aes.mix_column. cbn [nth].
  assert (B2 : forall x, is_byte x -> is_byte (Aes.gmul 2 x)) by (intros; apply gmul_byte; [cbn [In]; tauto | assumption]).
  assert (B3 : forall x, is_byte x -> is_byte (Aes.gmul 3 x)) by (intros; apply gmul_byte; [cbn [In]; tauto | assumption]).
  do 4 (rewrite (gmul_xor4 14) by (first [ cbn [In]; tauto | auto ])).
  do 4 (rewrite (gmul_xor4 11) by (first [ cbn [In]; tauto | auto ])).
  do 4 (rewrite (gmul_xor4 13) by (first [ cbn [In]; tauto | auto ])).
  do 4 (rewrite (gmul_xor4 9) by (first [ cbn [In]; tauto | auto ])).
  destruct (mix_coeffs a Ha) as (A1 & A2 & A3 & A4 & A5 & A6 & A7 & A8 & A9 & A10 & A11 & A12 & A13 & A14 & A15 & A16).
  destruct (mix_coeffs b Hb) as (B'1 & B'2 & B'3 & B'4 & B'5 & B'6 & B'7 & B'8 & B'9 & B'10 & B'11 & B'12 & B'13 & B'14 & B'15 & B'16).
  destruct (mix_coeffs c Hc) as (C1 & C2 & C3 & C4 & C5 & C6 & C7 & C8 & C9 & C10 & C11 & C12 & C13 & C14 & C15 & C16).
  destruct (mix_coeffs d Hd) as (D1 & D2 & D3 & D4 & D5 & D6 & D7 & D8 & D9 & D10 & D11 & D12 & D13 & D14 & D15 & D16).
  f_equal; [|f_equal; [|f_equal; [|f_equal]]]; rewrite xor4_transpose.
  - rewrite A1, B'2, C3, D4. apply xor4_zero.
  - rewrite A5, B'6, C7, D8. unfold Aes.xor4. rewrite ?Z.lxor_0_r, ?Z.lxor_0_l. reflexivity.
  - rewrite A9, B'10, C11, D12. unfold Aes.xor4. rewrite ?Z.lxor_0_r, ?Z.lxor_0_l. reflexivity.
  - rewrite A13, B'14, C15, D16. unfold Aes.xor4. rewrite ?Z.lxor_0_r, ?Z.lxor_0_l. reflexivity.
Qed.

(** ** The steps of the cipher and their inverses *)

Lemma sub_byte_facts b : is_byte b ->
  is_byte (Aes.sub_byte b) /\ Aes.inv_sub_byte (Aes.sub_byte b) = b.
Proof.
  intros Hb.
  assert (E : forallb (fun b => (0 <=? Aes.sub_byte b) && (Aes.sub_byte b <? 256)
                                && (Aes.inv_sub_byte (Aes.sub_byte b) =? b))
                      Aes.byte_values = true) by (vm_compute; reflexivity).
  assert (H := forall_byte _ E b Hb).
  apply andb_prop in H. destruct H as [H H3]. apply andb_prop in H. destruct H as [H1 H2].
  unfold is_byte. lia.
Qed.

Lemma xtime_byte b : is_byte b -> is_byte (Aes.xtime b).
Proof.
  intros Hb.
  assert (E : forallb (fun b => (0 <=? Aes.xtime b) && (Aes.xtime b <? 256)) Aes.byte_values = true)
    by (vm_compute; reflexivity).
  assert (H := forall_byte _ E b Hb). apply andb_prop in H. destruct H. unfold is_byte. lia.
Qed.

Lemma lxor_cancel a k : Z.lxor (Z.lxor a k) k = a.
Proof. rewrite Z.lxor_assoc, Z.lxor_nilpotent, Z.lxor_0_r. reflexivity. Qed.

Lemma xor_bytes_length xs ys : List.length xs = List.length ys ->
  List.length (xor_bytes xs ys) = List.length xs.
Proof.
  intros H. unfold xor_bytes. rewrite length_map, length_combine. lia.
Qed.

Lemma xor_bytes_wf xs ys : wf xs -> wf ys -> wf (xor_bytes xs ys).
Proof.
  unfold wf, xor_bytes. intros Hx. revert ys.
  induction Hx as [|x xs Hx Hxs IH]; intros ys Hy; [constructor|].
  destruct Hy as [|y ys Hy Hys]; [constructor|].
  cbn [combine map fst snd]. constructor; [apply lxor_byte; assumption | apply IH; assumption].
Qed.

Lemma xor_bytes_cancel xs ks : List.length xs = List.length ks ->
  xor_bytes (xor_bytes xs ks) ks = xs.
Proof.
  revert ks. induction xs as [|x xs IH]; intros [|k ks] H; try discriminate; [reflexivity|].
  unfold xor_bytes in *. cbn [combine map fst snd]. rewrite lxor_cancel. f_equal.
  apply IH. simpl in H. lia.
Qed.

Ltac explode16 s H :=
  let Hlen := fresh "Hlen" in let Hwf := fresh "Hwf" in
  destruct H as [Hlen Hwf];
  do 16 (destruct s as [|? s]; [discriminate Hlen|]);
  destruct s; [|discriminate Hlen];
  unfold wf in Hwf;
  repeat match goal with
         | Hf : Forall _ (_ :: _) |- _ => inversion Hf; clear Hf; subst
         end.

Ltac block16_goal :=
  split; [reflexivity | unfold wf; repeat (apply Forall_cons; [auto using xor4_byte, lxor_byte|]); apply Forall_nil].

Lemma sub_bytes_block s : block16 s -> block16 (Aes.sub_bytes s).
Proof.
  intros [Hl Hw]. split; unfold Aes.sub_bytes.
  - rewrite length_map. assumption.
  - unfold wf in *. rewrite Forall_map. eapply Forall_impl; [|exact Hw].
    intros b Hb. apply sub_byte_facts. assumption.
Qed.

Lemma inv_sub_bytes_sub s : wf s -> Aes.inv_sub_bytes (Aes.sub_bytes s) = s.
Proof.
  unfold Aes.inv_sub_bytes, Aes.sub_bytes. intros Hw. rewrite map_map.
  rewrite <- (map_id s) at 2. apply map_ext_Forall.
  eapply Forall_impl; [|exact Hw]. intros b Hb. apply sub_byte_facts. assumption.
Qed.

Lemma shift_rows_block s : block16 s -> block16 (Aes.shift_rows s).
Proof. intros H. explode16 s H. unfold Aes.shift_rows, Aes.pick. cbn [map nth]. block16_goal. Qed.

Lemma inv_shift_rows_shift s : block16 s -> Aes.inv_shift_rows (Aes.shift_rows s) = s.
Proof. intros H. explode16 s H. reflexivity. Qed.

Lemma mix_columns_block s : block16 s -> block16 (Aes.mix_columns s).
Proof.
  intros H. explode16 s H.
  unfold Aes.mix_columns, Aes.columns, Aes.mix_column, Aes.pick.
  cbn [flat_map map nth app].
  assert (B2 : forall x, is_byte x -> is_byte (Aes.gmul 2 x)) by (intros; apply gmul_byte; [cbn [In]; tauto | assumption]).
  assert (B3 : forall x, is_byte x -> is_byte (Aes.gmul 3 x)) by (intros; apply gmul_byte; [cbn [In]; tauto | assumption]).
  block16_goal.
Qed.

Lemma inv_mix_columns_mix s : block16 s -> Aes.inv_mix_columns (Aes.mix_columns s) = s.
Proof.
  intros H. explode16 s H.
  unfold Aes.mix_columns, Aes.columns, Aes.pick. cbn [flat_map map nth app].
  set (c0 := Aes.mix_column _). set (c1 := Aes.mix_column _).
  set (c2 := Aes.mix_column _). set (c3 := Aes.mix_column _).
  assert (E : Aes.inv_mix_columns (c0 ++ c1 ++ c2 ++ c3 ++ [])
              = Aes.inv_mix_column c0 ++ Aes.inv_mix_column c1
                ++ Aes.inv_mix_column c2 ++ Aes.inv_mix_column c3).
  { subst c0 c1 c2 c3. unfold Aes.mix_column. cbn [nth app].
    unfold Aes.inv_mix_columns, Aes.columns, Aes.pick. cbn [flat_map map nth app].
    rewrite app_nil_r. reflexivity. }
  rewrite E. subst c0 c1 c2 c3.
  rewrite !inv_mix_column_mix by assumption. reflexivity.
Qed.

Lemma add_round_key_block rk s : block16 rk -> block16 s -> block16 (Aes.add_round_key rk s).
Proof.
  intros [Hl1 Hw1] [Hl2 Hw2]. unfold Aes.add_round_key. split.
  - rewrite xor_bytes_length; lia.
  - apply xor_bytes_wf; assumption.
Qed.

Lemma add_round_key_cancel rk s : block16 rk -> block16 s ->
  Aes.add_round_key rk (Aes.add_round_key rk s) = s.
Proof.
  intros [Hl1 _] [Hl2 _]. unfold Aes.add_round_key. apply xor_bytes_cancel. lia.
Qed.

(** ** Key expansion and the block cipher *)

Lemma next_round_key_block rk rcon : wf rk -> is_byte rcon ->
  block16 (Aes.next_round_key rk rcon).
Proof.
  intros Hw Hr.
  assert (N : forall i, is_byte (nth i rk 0)).
  { intros i. destruct (nth_in_or_default i rk 0) as [Hin | ->].
    - unfold wf in Hw. rewrite Forall_forall in Hw. apply Hw. assumption.
    - unfold is_byte. lia. }
  assert (S : forall b, is_byte b -> is_byte (Aes.sub_byte b)) by (intros; apply sub_byte_facts; assumption).
  assert (Z0 : is_byte 0) by (unfold is_byte; lia).
  unfold Aes.next_round_key, Aes.columns, Aes.pick, xor_bytes.
  cbn [map nth combine fst snd app].
  split; [reflexivity|].
  unfold wf.
  repeat (apply Forall_cons; [repeat first [apply lxor_byte | apply S | apply N | exact Z0 | exact Hr]|]).
  apply Forall_nil.
Qed.

Lemma expand_blocks n : forall rk rcon, wf rk -> is_byte rcon ->
  Forall block16 (Aes.expand n rk rcon) /\ List.length (Aes.expand n rk rcon) = n.
Proof.
  induction n as [|n IH]; intros rk rcon Hw Hr; cbn [Aes.expand]; [split; [constructor|reflexivity]|].
  pose proof (next_round_key_block rk rcon Hw Hr) as Hb.
  destruct (IH (Aes.next_round_key rk rcon) (Aes.xtime rcon) (proj2 Hb) (xtime_byte _ Hr)) as [H1 H2].
  split; [constructor; assumption | cbn [List.length]; congruence].
Qed.

Lemma round_keys_blocks key : wf key ->
  Forall block16 (Aes.round_keys key) /\ List.length (Aes.round_keys key) = 10%nat.
Proof. intros Hw. apply expand_blocks; [assumption | unfold is_byte; lia]. Qed.

Lemma enc_round_block s rk : block16 s -> block16 rk -> block16 (Aes.enc_round s rk).
Proof.
  intros Hs Hk. unfold Aes.enc_round.
  auto using add_round_key_block, mix_columns_block, shift_rows_block, sub_bytes_block.
Qed.

Lemma enc_rounds_block ks : forall s, Forall block16 ks -> block16 s ->
  block16 (fold_left Aes.enc_round ks s).
Proof.
  induction ks as [|k ks IH]; intros s Hk Hs; cbn [fold_left]; [assumption|].
  inversion Hk; subst. apply IH; [assumption | apply enc_round_block; assumption].
Qed.

Lemma dec_round_enc_round x k : block16 x -> block16 k ->
  Aes.dec_round (Aes.shift_rows (Aes.sub_bytes (Aes.enc_round x k))) k
  = Aes.shift_rows (Aes.sub_bytes x).
Proof.
  intros Hx Hk.
  pose proof (shift_rows_block _ (sub_bytes_block _ Hx)) as H1.
  pose proof (mix_columns_block _ H1) as H2.
  pose proof (add_round_key_block _ _ Hk H2) as H3.
  unfold Aes.dec_round, Aes.enc_round.
  rewrite (inv_shift_rows_shift _ (sub_bytes_block _ H3)).
  rewrite (inv_sub_bytes_sub _ (proj2 H3)).
  rewrite (add_round_key_cancel _ _ Hk H2).
  exact (inv_mix_columns_mix _ H1).
Qed.

Lemma fold_left_snoc {A B} (f : A -> B -> A) l x a :
  fold_left f (l ++ [x]) a = f (fold_left f l a) x.
Proof. rewrite fold_left_app. reflexivity. Qed.

Lemma fold_left_step {A B} (f : A -> B -> A) x l a :
  fold_left f (x :: l) a = fold_left f l (f a x).
Proof. reflexivity. Qed.

Lemma rev_step {A} (x : A) l : rev (x :: l) = rev l ++ [x].
Proof. reflexivity. Qed.

Lemma rounds_inverse ks : forall s, Forall block16 ks -> block16 s ->
  fold_left Aes.dec_round (rev ks) (Aes.shift_rows (Aes.sub_bytes (fold_left Aes.enc_round ks s)))
  = Aes.shift_rows (Aes.sub_bytes s).
Proof.
  induction ks as [|k ks IH]; intros s Hk Hs; [reflexivity|].
  assert (Hk1 : block16 k) by (inversion Hk; assumption).
  assert (Hks : Forall block16 ks) by (inversion Hk; assumption).
  rewrite (fold_left_step Aes.enc_round k ks s).
  rewrite (rev_step k ks).
  rewrite (fold_left_snoc Aes.dec_round (rev ks) k).
  rewrite (IH (Aes.enc_round s k) Hks (enc_round_block _ _ Hs Hk1)).
  exact (dec_round_enc_round _ _ Hs Hk1).
Qed.

Lemma Forall_firstn_keep {A} (P : A -> Prop) n l : Forall P l -> Forall P (firstn n l).
Proof.
  intros H. rewrite <- (firstn_skipn n l) in H. apply Forall_app in H. apply H.
Qed.

Lemma Forall_skipn_keep {A} (P : A -> Prop) n l : Forall P l -> Forall P (skipn n l).
Proof.
  intros H. rewrite <- (firstn_skipn n l) in H. apply Forall_app in H. apply H.
Qed.

Lemma round_key_9_block key : wf key -> block16 (nth 9 (Aes.round_keys key) []).
Proof.
  intros Hw. destruct (round_keys_blocks key Hw) as [Hr Hl].
  rewrite Forall_forall in Hr. apply Hr. apply nth_In. lia.
Qed.

Lemma encrypt_block_block key b : block16 key -> block16 b -> block16 (Aes.encrypt_block key b).
Proof.
  intros Hk Hb. unfold Aes.encrypt_block.
  apply add_round_key_block; [apply round_key_9_block, Hk|].
  apply shift_rows_block, sub_bytes_block, enc_rounds_block.
  - apply Forall_firstn_keep. apply round_keys_blocks, Hk.
  - apply add_round_key_block; assumption.
Qed.

Lemma decrypt_encrypt_block key b : block16 key -> block16 b ->
  Aes.decrypt_block key (Aes.encrypt_block key b) = b.
Proof.
  intros Hk Hb. unfold Aes.decrypt_block, Aes.encrypt_block.
  pose proof (round_key_9_block key (proj2 Hk)) as H9.
  assert (Hf : Forall block16 (firstn 9 (Aes.round_keys key)))
    by (apply Forall_firstn_keep; apply round_keys_blocks, Hk).
  pose proof (add_round_key_block _ _ Hk Hb) as H0.
  pose proof (enc_rounds_block _ _ Hf H0) as Hx.
  rewrite (add_round_key_cancel _ _ H9 (shift_rows_block _ (sub_bytes_block _ Hx))).
  rewrite (rounds_inverse _ _ Hf H0).
  rewrite (inv_shift_rows_shift _ (sub_bytes_block _ H0)).
  rewrite (inv_sub_bytes_sub _ (proj2 H0)).
  exact (add_round_key_cancel _ _ Hk Hb).
Qed.

(** ** The sizes of digests and derived keys *)

Lemma be_bytes_length n x : List.length (be_bytes n x) = n.
Proof. induction n as [|n IH]; cbn [be_bytes List.length]; congruence. Qed.

Lemma be_bytes_wf n x : wf (be_bytes n x).
Proof.
  induction n as [|n IH]; cbn [be_bytes]; constructor; [|exact IH].
  unfold is_byte. apply Z.mod_pos_bound. lia.
Qed.

Lemma compress_length h block :
  List.length h = 8%nat -> List.length (Sha256.compress h block) = 8%nat.
Proof.
  intros Hh. unfold Sha256.compress.
  rewrite length_map, length_combine, Hh. reflexivity.
Qed.

Lemma fold_compress_length blocks : forall h,
  List.length h = 8%nat -> List.length (fold_left Sha256.compress blocks h) = 8%nat.
Proof.
  induction blocks as [|b blocks IH]; intros h Hh; [exact Hh|].
  rewrite fold_left_step. apply IH, compress_length, Hh.
Qed.

Lemma flat_be_bytes_length ws : List.length (flat_map (be_bytes 4) ws) = (4 * List.length ws)%nat.
Proof.
  induction ws as [|x ws IH]; [reflexivity|].
  change (flat_map (be_bytes 4) (x :: ws)) with (be_bytes 4 x ++ flat_map (be_bytes 4) ws).
  rewrite length_app, be_bytes_length, IH. cbn [List.length]. lia.
Qed.

Lemma flat_be_bytes_wf ws : wf (flat_map (be_bytes 4) ws).
Proof.
  induction ws as [|x ws IH]; [constructor|].
  change (flat_map (be_bytes 4) (x :: ws)) with (be_bytes 4 x ++ flat_map (be_bytes 4) ws).
  apply Forall_app. split; [apply be_bytes_wf | exact IH].
Qed.

Lemma sha256_length msg : List.length (Sha256.sha256 msg) = 32%nat.
Proof.
  unfold Sha256.sha256. rewrite flat_be_bytes_length, fold_compress_length; reflexivity.
Qed.

Lemma sha256_wf msg : wf (Sha256.sha256 msg).
Proof. apply flat_be_bytes_wf. Qed.

Lemma hmac_length key msg : List.length (Hmac.hmac key msg) = 32%nat.
Proof. apply sha256_length. Qed.

Lemma hmac_wf key msg : wf (Hmac.hmac key msg).
Proof. apply sha256_wf. Qed.

Lemma step_digest_pair password ut : digest_pair ut -> digest_pair (Pbkdf2.step password ut).
Proof.
  intros [[L1 W1] [L2 W2]]. unfold Pbkdf2.step, digest_pair. cbn [fst snd].
  repeat split; auto using hmac_length, hmac_wf.
  - rewrite xor_bytes_length; [assumption | rewrite hmac_length; assumption].
  - apply xor_bytes_wf; [assumption | apply hmac_wf].
Qed.

Lemma F_digest password salt c i :
  List.length (Pbkdf2.F password salt c i) = 32%nat /\ wf (Pbkdf2.F password salt c i).
Proof.
  unfold Pbkdf2.F.
  set (u1 := Hmac.hmac password (salt ++ be_bytes 4 i)).
  assert (H : digest_pair (N.iter (c - 1) (Pbkdf2.step password) (u1, u1))).
  { apply N.iter_invariant.
    - intros x. apply step_digest_pair.
    - subst u1. unfold digest_pair. cbn [fst snd].
      repeat split; auto using hmac_length, hmac_wf. }
  exact (proj2 H).
Qed.

Lemma derive_32 password salt c :
  List.length (Pbkdf2.derive password salt c 32) = 32%nat
  /\ wf (Pbkdf2.derive password salt c 32).
Proof.
  unfold Pbkdf2.derive.
  change (Nat.div (32 + 31) 32) with 1%nat.
  change (seq 1 1) with [1%nat].
  change (flat_map ?f [1%nat]) with (f 1%nat ++ []).
  rewrite app_nil_r.
  destruct (F_digest password salt c (Z.of_nat 1)) as [L W].
  split.
  - rewrite length_firstn, L. reflexivity.
  - apply Forall_firstn_keep. exact W.
Qed.

(** ** The range of a month *)

Lemma days_in_month_bounds y m : 28 <= Datetime.days_in_month y m <= 31.
Proof.
  unfold Datetime.days_in_month.
  destruct (m =? 2); [destruct (Datetime.is_leap y); lia|].
  destruct ((m =? 4) || (m =? 6) || (m =? 9) || (m =? 11)); lia.
Qed.

Lemma days_in_december y : Datetime.days_in_month y 12 = 31.
Proof. reflexivity. Qed.

Ltac decide_comparisons :=
  repeat match goal with
         | |- context [?a <? ?b] =>
             first [rewrite (proj2 (Z.ltb_lt a b)) by lia | rewrite (proj2 (Z.ltb_ge a b)) by lia]
         | |- context [?a <=? ?b] =>
             first [rewrite (proj2 (Z.leb_le a b)) by lia | rewrite (proj2 (Z.leb_gt a b)) by lia]
         end.

Ltac step_datetime :=
  cbn [bind andb Datetime.year Datetime.month Datetime.day Datetime.hour Datetime.minute
       Datetime.second Datetime.microsecond Datetime.add_days];
  unfold Datetime.tomorrow, Datetime.yesterday, Datetime.replace_day,
    Datetime.replace_day_midnight, Datetime.sub_microsecond, Datetime.check_date,
    Datetime.MINYEAR, Datetime.MAXYEAR;
  cbn [bind andb Datetime.year Datetime.month Datetime.day Datetime.hour Datetime.minute
       Datetime.second Datetime.microsecond Datetime.add_days];
  rewrite ?days_in_december;
  decide_comparisons.

Lemma month_end_explicit y m : month_in_calendar y m ->
  Database.month_end (first_instant y m) = Ok (last_instant y m).
Proof.
  intros (Hy & Hm & Hne).
  assert (Hlast : m = 12 -> y < 9999).
  { intros ->. destruct (Z.eq_dec y 9999) as [->|]; [contradiction Hne; reflexivity | lia]. }
  pose proof (days_in_month_bounds y m) as Hd.
  pose proof (days_in_month_bounds y (m + 1)) as Hd1.
  pose proof (days_in_month_bounds (y + 1) 1) as Hd2.
  unfold Database.month_end, first_instant, last_instant.
  destruct (Z.eq_dec m 12) as [->|Hm12].
  - specialize (Hlast eq_refl). rewrite days_in_december in *.
    repeat step_datetime. replace (y + 1 - 1) with y by lia. reflexivity.
  - assert (Hcases : Datetime.days_in_month y m = 28 \/ Datetime.days_in_month y m = 29
                     \/ Datetime.days_in_month y m = 30 \/ Datetime.days_in_month y m = 31)
      by lia.
    destruct Hcases as [E|[E|[E|E]]]; rewrite E in *; repeat step_datetime;
      replace (m + 1 - 1) with m by lia; rewrite E; reflexivity.
Qed.

Lemma month_range_explicit y m : month_in_calendar y m ->
  Database.month_range (first_instant y m)
  = Ok (Datetime.isoformat (first_instant y m), Datetime.isoformat (last_instant y m)).
Proof.
  intros H. unfold Database.month_range. rewrite (month_end_explicit y m H). reflexivity.
Qed.

(** The last month of the calendar has no end that a [datetime] can hold. *)
Lemma month_end_overflow : Database.month_end (first_instant 9999 12) = Raise OverflowError.
Proof. reflexivity. Qed.

Lemma new_first_instant y m : 1 <= y <= 9999 -> 1 <= m <= 12 ->
  Datetime.new y m 1 = Ok (first_instant y m).
Proof.
  intros Hy Hm. unfold Datetime.new, Datetime.check_date, Datetime.MINYEAR, Datetime.MAXYEAR.
  assert (D : 28 <= Datetime.days_in_month y m).
  { unfold Datetime.days_in_month.
    destruct (m =? 2); [destruct (Datetime.is_leap y); lia|].
    destruct ((m =? 4) || (m =? 6) || (m =? 9) || (m =? 11)); lia. }
  replace (1 <=? y) with true by (symmetry; apply Z.leb_le; lia).
  replace (y <=? 9999) with true by (symmetry; apply Z.leb_le; lia).
  replace (1 <=? m) with true by (symmetry; apply Z.leb_le; lia).
  replace (m <=? 12) with true by (symmetry; apply Z.leb_le; lia).
  replace (1 <=? Datetime.days_in_month y m) with true by (symmetry; apply Z.leb_le; lia).
  reflexivity.
Qed.

(** ** The order of text *)

Lemma ascii_compare_refl c : Ascii.compare c c = Eq.
Proof.
  pose proof (Ascii.compare_antisym c c) as H.
  destruct (Ascii.compare c c); [reflexivity | discriminate | discriminate].
Qed.

Lemma string_compare_refl s : String.compare s s = Eq.
Proof.
  induction s as [|c s IH]; [reflexivity|].
  cbn [String.compare]. rewrite ascii_compare_refl. exact IH.
Qed.

Lemma string_leb_refl s : String.leb s s = true.
Proof. unfold String.leb. rewrite string_compare_refl. reflexivity. Qed.

Lemma compare_app_prefix p a b :
  String.compare (p ++ a) (p ++ b) = String.compare a b.
Proof.
  induction p as [|c p IH]; [reflexivity|].
  cbn [String.append String.compare]. rewrite ascii_compare_refl. exact IH.
Qed.

Lemma leb_app_prefix p a b : String.leb (p ++ a) (p ++ b) = String.leb a b.
Proof. unfold String.leb. rewrite compare_app_prefix. reflexivity. Qed.

Lemma zero_padded_cons w n :
  exists c s, Text.zero_padded (S w) n = String c s.
Proof.
  revert n. induction w as [|w IH]; intros n.
  - eexists _, _. reflexivity.
  - destruct (IH (n / 10)) as (c & s & E).
    change (Text.zero_padded (S (S w)) n)
      with (Text.zero_padded (S w) (n / 10) ++ String (Text.digit n) EmptyString)%string.
    rewrite E. eexists _, _. reflexivity.
Qed.

Lemma isoformat_not_empty d : (Datetime.isoformat d =? EmptyString)%string = false.
Proof.
  unfold Datetime.isoformat.
  destruct (zero_padded_cons 3 (Datetime.year d)) as (c & s & E).
  rewrite E. reflexivity.
Qed.

Lemma month_start_in_range y m : month_in_calendar y m ->
  Sqlite.date_in_range (Some (Datetime.isoformat (first_instant y m)))
                       (Some (Datetime.isoformat (last_instant y m)))
                       (Datetime.isoformat (first_instant y m)) = true.
Proof.
  intros H. unfold Sqlite.date_in_range, Sqlite.truthy.
  rewrite !isoformat_not_empty. cbn [negb]. rewrite string_leb_refl. cbn [andb].
  unfold Datetime.isoformat, first_instant, last_instant.
  cbn [Datetime.year Datetime.month Datetime.day Datetime.hour Datetime.minute
       Datetime.second Datetime.microsecond].
  rewrite !leb_app_prefix.
  unfold Datetime.days_in_month.
  destruct (m =? 2); [destruct (Datetime.is_leap y); reflexivity|].
  destruct ((m =? 4) || (m =? 6) || (m =? 9) || (m =? 11)); reflexivity.
Qed.

(** ** The order of timestamps

    The text of two datetimes, as [isoformat] writes it, is in the order of
    the datetimes. *)

Lemma string_app_assoc (a b c : string) : ((a ++ b) ++ c = a ++ (b ++ c))%string.
Proof. induction a as [|x a IH]; cbn; [reflexivity | rewrite IH; reflexivity]. Qed.

Lemma string_app_empty (a : string) : (a ++ EmptyString)%string = a.
Proof. induction a as [|x a IH]; cbn; [reflexivity | rewrite IH; reflexivity]. Qed.

Lemma digit_compare x y :
  Ascii.compare (Text.digit x) (Text.digit y) = (x mod 10 ?= y mod 10).
Proof.
  unfold Ascii.compare, Text.digit.
  pose proof (Z.mod_pos_bound x 10 ltac:(lia)). pose proof (Z.mod_pos_bound y 10 ltac:(lia)).
  rewrite !N_ascii_embedding by lia.
  rewrite (Z2N.inj_compare (48 + x mod 10) (48 + y mod 10)) by lia.
  apply Z.add_compare_mono_l.
Qed.

Lemma compare_zero_padded w : forall x y s t,
  0 <= x < 10 ^ Z.of_nat w -> 0 <= y < 10 ^ Z.of_nat w ->
  String.compare (Text.zero_padded w x ++ s) (Text.zero_padded w y ++ t)
  = match x ?= y with Eq => String.compare s t | c => c end.
Proof.
  induction w as [|w IH]; intros x y s t Hx Hy.
  - change (10 ^ Z.of_nat 0) with 1 in *. assert (x = 0) as -> by lia. assert (y = 0) as -> by lia.
    reflexivity.
  - assert (Hp : 10 ^ Z.of_nat (S w) = 10 * 10 ^ Z.of_nat w)
      by (rewrite Nat2Z.inj_succ, Z.pow_succ_r by lia; reflexivity).
    cbn [Text.zero_padded]. rewrite !string_app_assoc.
    rewrite IH by (Z.div_mod_to_equations; lia).
    cbn [String.append String.compare]. rewrite digit_compare.
    destruct (Z.compare_spec (x / 10) (y / 10));
      destruct (Z.compare_spec (x mod 10) (y mod 10));
      destruct (Z.compare_spec x y);
      try reflexivity; exfalso; Z.div_mod_to_equations; lia.
Qed.

Lemma compare_fraction a b : 0 <= a < 1000000 -> 0 <= b < 1000000 ->
  String.compare
    (if a =? 0 then EmptyString else "." ++ Text.zero_padded 6 a)
    (if b =? 0 then EmptyString else "." ++ Text.zero_padded 6 b)
  = (a ?= b).
Proof.
  intros Ha Hb.
  destruct (Z.eqb_spec a 0) as [->|Na]; destruct (Z.eqb_spec b 0) as [->|Nb].
  - reflexivity.
  - cbn [String.append String.compare]. symmetry. apply Z.compare_lt_iff. lia.
  - cbn [String.append String.compare]. symmetry. apply Z.compare_gt_iff. lia.
  - rewrite compare_app_prefix.
    rewrite <- (string_app_empty (Text.zero_padded 6 a)),
            <- (string_app_empty (Text.zero_padded 6 b)).
    rewrite (compare_zero_padded 6) by (change (10 ^ Z.of_nat 6) with 1000000; lia).
    destruct (a ?= b); reflexivity.
Qed.

Lemma valid_bounds d : Datetime.valid d = true ->
  (1 <= Datetime.year d <= 9999 /\ 1 <= Datetime.month d <= 12
   /\ 1 <= Datetime.day d <= Datetime.days_in_month (Datetime.year d) (Datetime.month d))
  /\ (0 <= Datetime.hour d < 24 /\ 0 <= Datetime.minute d < 60
      /\ 0 <= Datetime.second d < 60 /\ 0 <= Datetime.microsecond d < 1000000).
Proof.
  unfold Datetime.valid, Datetime.check_date, Datetime.check_time,
    Datetime.MINYEAR, Datetime.MAXYEAR.
  intros H.
  repeat match goal with
         | H : _ && _ = true |- _ => apply andb_prop in H; destruct H
         | H : (_ <=? _) = true |- _ => apply Z.leb_le in H
         | H : (_ <? _) = true |- _ => apply Z.ltb_lt in H
         end.
  lia.
Qed.

(** The text order of two timestamps is the order of the datetimes. *)
Lemma isoformat_compare a b : Datetime.valid a = true -> Datetime.valid b = true ->
  String.compare (Datetime.isoformat a) (Datetime.isoformat b) = Datetime.compare a b.
Proof.
  intros Ha Hb.
  destruct (valid_bounds a Ha) as ((Ya & Ma & Da) & (ha & ma & sa & ua)).
  destruct (valid_bounds b Hb) as ((Yb & Mb & Db) & (hb & mb & sb & ub)).
  pose proof (days_in_month_bounds (Datetime.year a) (Datetime.month a)).
  pose proof (days_in_month_bounds (Datetime.year b) (Datetime.month b)).
  unfold Datetime.isoformat, Datetime.compare.
  rewrite (compare_zero_padded 4) by (change (10 ^ Z.of_nat 4) with 10000; lia).
  rewrite compare_app_prefix.
  rewrite (compare_zero_padded 2) by (change (10 ^ Z.of_nat 2) with 100; lia).
  rewrite compare_app_prefix.
  rewrite (compare_zero_padded 2) by (change (10 ^ Z.of_nat 2) with 100; lia).
  rewrite compare_app_prefix.
  rewrite (compare_zero_padded 2) by (change (10 ^ Z.of_nat 2) with 100; lia).
  rewrite compare_app_prefix.
  rewrite (compare_zero_padded 2) by (change (10 ^ Z.of_nat 2) with 100; lia).
  rewrite compare_app_prefix.
  rewrite (compare_zero_padded 2) by (change (10 ^ Z.of_nat 2) with 100; lia).
  rewrite compare_fraction by lia.
  reflexivity.
Qed.

Lemma isoformat_leb a b : Datetime.valid a = true -> Datetime.valid b = true ->
  (Datetime.isoformat a <=? Datetime.isoformat b)%string = Datetime.leb a b.
Proof.
  intros Ha Hb. unfold String.leb, Datetime.leb. rewrite isoformat_compare by assumption.
  reflexivity.
Qed.

(** ** Exceptions, statements and connections *)

Lemma bind_ok {A B : Type} (r : result A) (k : A -> result B) (b : B) :
  bind r k = Ok b -> exists a, r = Ok a /\ k a = Ok b.
Proof. destruct r as [a|e]; cbn [bind]; intros H; [eauto | discriminate]. Qed.

Lemma map_result_ok {A B : Type} (f : A -> result B) xs : forall ys,
  map_result f xs = Ok ys -> Forall2 (fun x y => f x = Ok y) xs ys.
Proof.
  induction xs as [|x xs IH]; intros ys H; cbn [map_result] in H.
  - injection H as <-. constructor.
  - apply bind_ok in H. destruct H as (y & Hy & H).
    apply bind_ok in H. destruct H as (ys' & Hys & H).
    injection H as <-. constructor; auto.
Qed.

Lemma map_result_all {A B : Type} (f : A -> result B) xs ys :
  Forall2 (fun x y => f x = Ok y) xs ys -> map_result f xs = Ok ys.
Proof.
  induction 1 as [|x y xs ys Hxy _ IH]; cbn [map_result]; [reflexivity|].
  rewrite Hxy. cbn [bind]. rewrite IH. reflexivity.
Qed.

Lemma check_open_ok c u : Sqlite.check_open c = Ok u -> Sqlite.closed c = false.
Proof. unfold Sqlite.check_open. destruct (Sqlite.closed c); [discriminate | reflexivity]. Qed.

Lemma query_ok {A : Type} (q : Sqlite.store -> A) c a :
  Sqlite.query q c = Ok a -> Sqlite.closed c = false /\ a = q (Sqlite.current c).
Proof.
  unfold Sqlite.query. intros H. apply bind_ok in H. destruct H as (u & Hu & H).
  apply check_open_ok in Hu. injection H as <-. auto.
Qed.

Lemma query_open {A : Type} (q : Sqlite.store -> A) c :
  Sqlite.closed c = false -> Sqlite.query q c = Ok (q (Sqlite.current c)).
Proof. intros H. unfold Sqlite.query, Sqlite.check_open. rewrite H. reflexivity. Qed.

Lemma execute_ok st c c' :
  Sqlite.execute st c = Ok c' ->
  Sqlite.closed c = false
  /\ Sqlite.run st (Sqlite.current c) = Ok (Sqlite.current c')
  /\ Sqlite.file c' = Sqlite.file c /\ Sqlite.closed c' = false.
Proof.
  unfold Sqlite.execute. intros H. apply bind_ok in H. destruct H as (u & Hu & H).
  apply check_open_ok in Hu. apply bind_ok in H. destruct H as (s & Hs & H).
  injection H as <-. cbn. auto.
Qed.

Lemma execute_open st c s :
  Sqlite.closed c = false -> Sqlite.run st (Sqlite.current c) = Ok s ->
  Sqlite.execute st c = Ok (Sqlite.Connection (Sqlite.file c) s false).
Proof.
  intros Hc Hs. unfold Sqlite.execute, Sqlite.check_open. rewrite Hc. cbn [bind].
  rewrite Hs. reflexivity.
Qed.

Lemma commit_ok c c' :
  Sqlite.commit c = Ok c' ->
  Sqlite.closed c = false
  /\ c' = Sqlite.Connection (Sqlite.current c) (Sqlite.current c) false.
Proof.
  unfold Sqlite.commit. intros H. apply bind_ok in H. destruct H as (u & Hu & H).
  apply check_open_ok in Hu. injection H as <-. auto.
Qed.

Lemma commit_open c :
  Sqlite.closed c = false ->
  Sqlite.commit c = Ok (Sqlite.Connection (Sqlite.current c) (Sqlite.current c) false).
Proof. intros H. unfold Sqlite.commit, Sqlite.check_open. rewrite H. reflexivity. Qed.

(** ** Ordering by date *)

Lemma insert_desc_perm {A : Type} (date : A -> string) x l :
  Permutation (Sqlite.insert_desc date x l) (x :: l).
Proof.
  induction l as [|y l IH]; cbn [Sqlite.insert_desc]; [reflexivity|].
  destruct (date y <=? date x)%string; [reflexivity|].
  rewrite IH. apply perm_swap.
Qed.

Lemma order_by_date_desc_perm {A : Type} (date : A -> string) l :
  Permutation (Sqlite.order_by_date_desc date l) l.
Proof.
  unfold Sqlite.order_by_date_desc.
  induction l as [|x l IH]; cbn [fold_right]; [reflexivity|].
  rewrite insert_desc_perm. constructor. exact IH.
Qed.

Lemma insert_desc_sorted {A : Type} (date : A -> string) x l :
  Sorted (fun a b => (date b <=? date a)%string = true) l ->
  Sorted (fun a b => (date b <=? date a)%string = true) (Sqlite.insert_desc date x l).
Proof.
  induction l as [|y l IH]; intros Hs; cbn [Sqlite.insert_desc].
  - repeat constructor.
  - destruct (date y <=? date x)%string eqn:E.
    + constructor; [exact Hs | constructor; exact E].
    + inversion Hs as [|? ? Hs' Hd]; subst.
      constructor; [apply IH; exact Hs'|].
      assert (Hxy : (date x <=? date y)%string = true).
      { destruct (String.leb_total (date x) (date y)) as [H|H]; [exact H | congruence]. }
      destruct l as [|z l]; cbn [Sqlite.insert_desc].
      * constructor. exact Hxy.
      * destruct (date z <=? date x)%string; constructor; [exact Hxy|].
        inversion Hd; assumption.
Qed.

Lemma order_by_date_desc_sorted {A : Type} (date : A -> string) l :
  Sorted (fun a b => (date b <=? date a)%string = true) (Sqlite.order_by_date_desc date l).
Proof.
  unfold Sqlite.order_by_date_desc.
  induction l as [|x l IH]; cbn [fold_right]; [constructor|].
  apply insert_desc_sorted, IH.
Qed.

Lemma select_by_date_perm {A : Type} (date : A -> string) lo hi rows :
  Permutation (Sqlite.select_by_date date lo hi rows)
              (filter (fun r => Sqlite.date_in_range lo hi (date r)) rows).
Proof. apply order_by_date_desc_perm. Qed.

Lemma select_by_date_in {A : Type} (date : A -> string) lo hi rows r :
  In r (Sqlite.select_by_date date lo hi rows)
  <-> In r rows /\ Sqlite.date_in_range lo hi (date r) = true.
Proof.
  rewrite <- (filter_In (fun r => Sqlite.date_in_range lo hi (date r))).
  split; apply Permutation_in.
  - apply select_by_date_perm.
  - symmetry. apply select_by_date_perm.
Qed.

(** ** What [condense_journal_entries] does *)

Lemma new_ok y m tm : Datetime.new y m 1 = Ok tm ->
  1 <= y <= 9999 /\ 1 <= m <= 12 /\ tm = first_instant y m.
Proof.
  unfold Datetime.new, Datetime.check_date, Datetime.MINYEAR, Datetime.MAXYEAR.
  destruct (1 <=? y) eqn:A; [|discriminate].
  destruct (y <=? 9999) eqn:B; [|discriminate].
  destruct (1 <=? m) eqn:C; [|discriminate].
  destruct (m <=? 12) eqn:D; [|discriminate].
  cbn [andb]. destruct (_ && _); [|discriminate].
  intros H. injection H as <-. repeat split; lia.
Qed.

Lemma month_range_ok y m lo hi :
  1 <= y <= 9999 -> 1 <= m <= 12 ->
  Database.month_range (first_instant y m) = Ok (lo, hi) ->
  month_in_calendar y m
  /\ lo = Datetime.isoformat (first_instant y m)
  /\ hi = Datetime.isoformat (last_instant y m).
Proof.
  intros Hy Hm H.
  assert (Hc : month_in_calendar y m).
  { repeat split; try lia. intros E. injection E as -> ->.
    unfold Database.month_range in H. rewrite month_end_overflow in H. discriminate. }
  rewrite (month_range_explicit y m Hc) in H. injection H as <- <-. auto.
Qed.

Lemma get_journal_entries_ok db lo hi es :
  Database.get_journal_entries db lo hi = Ok es ->
  Sqlite.closed (Database.connection db) = false
  /\ Forall2 (fun row e =>
                Database.decrypt db (Sqlite.je_entry row) = Ok (Entry.entry e)
                /\ e = Entry.Make (Sqlite.je_id row) (Sqlite.je_date row) (Entry.entry e)
                                  (negb (Sqlite.je_is_condensed row =? 0)))
             (Sqlite.select_by_date Sqlite.je_date lo hi
                (Sqlite.journal_entries (Sqlite.current (Database.connection db))))
             es.
Proof.
  unfold Database.get_journal_entries. intros H.
  apply bind_ok in H. destruct H as (rows & Hq & H).
  apply query_ok in Hq. destruct Hq as [Hc ->]. split; [exact Hc|].
  apply map_result_ok in H. revert H. apply Forall2_impl.
  intros row e H. apply bind_ok in H. destruct H as (t & Ht & H).
  injection H as <-. cbn [Entry.entry]. auto.
Qed.

Lemma entries_ids rows es db :
  Forall2 (fun row e =>
             Database.decrypt db (Sqlite.je_entry row) = Ok (Entry.entry e)
             /\ e = Entry.Make (Sqlite.je_id row) (Sqlite.je_date row) (Entry.entry e)
                               (negb (Sqlite.je_is_condensed row =? 0)))
          rows es ->
  map Entry.id es = map Sqlite.je_id rows /\ map Entry.date es = map Sqlite.je_date rows.
Proof.
  induction 1 as [|row e rows es [_ He] _ [IH1 IH2]]; [auto|].
  cbn [map]. rewrite IH1, IH2, He. cbn [Entry.id Entry.date]. auto.
Qed.

Lemma filter_filter {A : Type} (p q : A -> bool) l :
  filter p (filter q l) = filter (fun x => q x && p x) l.
Proof.
  induction l as [|x l IH]; [reflexivity|].
  cbn [filter]. destruct (q x); cbn [filter andb]; rewrite IH; reflexivity.
Qed.

Lemma filter_all {A : Type} (p : A -> bool) l :
  (forall x, In x l -> p x = true) -> filter p l = l.
Proof.
  induction l as [|x l IH]; intros H; [reflexivity|].
  cbn [filter]. rewrite (H x (or_introl eq_refl)). f_equal. apply IH.
  intros y Hy. apply H. right. exact Hy.
Qed.

Lemma with_journal_same s :
  Sqlite.with_journal s (Sqlite.journal_entries s) (Sqlite.journal_seq s) = s.
Proof. destruct s. reflexivity. Qed.

Lemma execute_all_deletes ids : forall c,
  Sqlite.closed c = false ->
  Database.execute_all (map Sqlite.DeleteJournal ids) c
  = Ok (Sqlite.Connection (Sqlite.file c)
          (Sqlite.with_journal (Sqlite.current c)
             (filter (fun r => negb (existsb (Z.eqb (Sqlite.je_id r)) ids))
                     (Sqlite.journal_entries (Sqlite.current c)))
             (Sqlite.journal_seq (Sqlite.current c)))
          false).
Proof.
  induction ids as [|i ids IH]; intros c Hc.
  - cbn [map Database.execute_all existsb negb].
    rewrite filter_all by reflexivity. rewrite with_journal_same.
    destruct c as [f s cl]. cbn in Hc. subst cl. reflexivity.
  - cbn [map Database.execute_all].
    rewrite (execute_open (Sqlite.DeleteJournal i) c _ Hc eq_refl). cbn [bind].
    rewrite IH by reflexivity.
    unfold Sqlite.with_journal.
    cbn [Sqlite.file Sqlite.current Sqlite.journal_entries
         Sqlite.journal_seq Sqlite.user_profile Sqlite.therapy_sessions Sqlite.sessions_seq
         Sqlite.therapist_notes Sqlite.notes_seq].
    rewrite filter_filter.
    rewrite (filter_ext _ (fun r => negb (existsb (Z.eqb (Sqlite.je_id r)) (i :: ids)))).
    + reflexivity.
    + intros r. cbn [existsb]. rewrite negb_orb. reflexivity.
Qed.

Lemma condense_writes_deletes d enc es :
  Database.condense_writes d enc es
  = Sqlite.InsertJournal d enc 1 :: map Sqlite.DeleteJournal (map Entry.id es).
Proof. unfold Database.condense_writes. rewrite map_map. reflexivity. Qed.

(** A run that nothing cuts short executes the statements and commits. *)
Lemma perform_all_uncut sts : forall c,
  exists c_end,
    Sqlite.perform_all (map Sqlite.Execute sts ++ [Sqlite.Commit]) None c
    = ((let* c1 := Database.execute_all sts c in let* _ := Sqlite.commit c1 in Ok tt), c_end)
    /\ (forall c2, (let* c1 := Database.execute_all sts c in Sqlite.commit c1) = Ok c2 ->
                   c_end = c2).
Proof.
  induction sts as [|st sts IH]; intros c.
  - cbn [map app Sqlite.perform_all Sqlite.perform Database.execute_all bind option_map].
    destruct (Sqlite.commit c) as [c2|e]; cbn [bind].
    + exists c2. split; [reflexivity|]. intros c3 H. injection H as <-. reflexivity.
    + exists c. split; [reflexivity|]. discriminate.
  - cbn [map app Sqlite.perform_all Sqlite.perform Database.execute_all option_map].
    destruct (Sqlite.execute st c) as [c1|e]; cbn [bind].
    + apply IH.
    + exists c. split; [reflexivity|]. discriminate.
Qed.

(** A run that nothing cuts short is the method. *)
Lemma condense_journal_entries_uncut db month year w :
  fst (Database.condense_journal_entries_cut None db month year w)
  = Database.condense_journal_entries db month year w.
Proof.
  unfold Database.condense_journal_entries, Database.condense_journal_entries_cut.
  destruct (Datetime.new year month 1) as [tm|e]; cbn [bind fst]; [|reflexivity].
  destruct (Database.month_range tm) as [[lo hi]|e]; cbn [bind fst]; [|reflexivity].
  destruct (Database.get_journal_entries db (Some lo) (Some hi)) as [[|x xs]|e];
    cbn [bind fst]; try reflexivity.
  cbv zeta.
  destruct (Database.encrypt db _ w) as [[enc w1]|e]; cbn [bind fst]; [|reflexivity].
  unfold Database.condense_operations.
  destruct (perform_all_uncut
              (Database.condense_writes (Datetime.isoformat tm) enc (x :: xs))
              (Database.connection db)) as (c_end & E & Hc).
  rewrite E. cbn [fst].
  destruct (Database.execute_all _ (Database.connection db)) as [c1|e]; cbn [bind];
    [|reflexivity].
  destruct (Sqlite.commit c1) as [c2|e] eqn:Ec; cbn [bind]; [|reflexivity].
  rewrite (Hc c2 Ec). reflexivity.
Qed.

Lemma condense_ok db month year w db' w' :
  Database.condense_journal_entries db month year w = Ok (db', w') ->
  month_in_calendar year month
  /\ exists entries,
      Database.get_journal_entries db
        (Some (Datetime.isoformat (first_instant year month)))
        (Some (Datetime.isoformat (last_instant year month))) = Ok entries
      /\ ((entries = [] /\ db' = db /\ w' = w)
          \/ (entries <> []
              /\ exists enc,
                  Database.encrypt db
                    (Database.condensed_text_of (first_instant year month) entries) w
                  = Ok (enc, w')
                  /\ db' = Database.with_connection db
                             (condensed_connection (Database.connection db)
                                (Datetime.isoformat (first_instant year month)) enc
                                (map Entry.id entries)))).
Proof.
  unfold Database.condense_journal_entries. intros H.
  apply bind_ok in H. destruct H as (tm & Htm & H).
  apply new_ok in Htm. destruct Htm as (Hy & Hm & ->).
  apply bind_ok in H. destruct H as ([lo hi] & Hr & H).
  apply month_range_ok in Hr; [|assumption|assumption]. destruct Hr as (Hc & -> & ->).
  split; [exact Hc|].
  apply bind_ok in H. destruct H as (entries & He & H).
  exists entries. split; [exact He|].
  destruct entries as [|e entries].
  - injection H as <- <-. left. auto.
  - right. split; [discriminate|].
    apply bind_ok in H. destruct H as ([enc w1] & Henc & H).
    apply bind_ok in H. destruct H as (c & Hx & H).
    apply bind_ok in H. destruct H as (c' & Hcm & H).
    injection H as <- <-. exists enc. split; [exact Henc|]. f_equal.
    apply get_journal_entries_ok in He. destruct He as [Hopen _].
    rewrite condense_writes_deletes in Hx. cbn [Database.execute_all] in Hx.
    rewrite (execute_open (Sqlite.InsertJournal _ enc 1) _ _ Hopen eq_refl) in Hx.
    cbn [bind] in Hx.
    rewrite execute_all_deletes in Hx by reflexivity. injection Hx as <-.
    apply commit_ok in Hcm. destruct Hcm as [_ ->]. reflexivity.
Qed.

(** ** The frame of a condensation *)

Lemma nodup_map_eq {A B : Type} (f : A -> B) l a b :
  NoDup (map f l) -> In a l -> In b l -> f a = f b -> a = b.
Proof.
  induction l as [|x l IH]; intros Hn Ha Hb E; [contradiction|].
  cbn [map] in Hn. inversion Hn as [|? ? Hx Hn']; subst.
  destruct Ha as [->|Ha], Hb as [->|Hb].
  - reflexivity.
  - exfalso. apply Hx. rewrite E. apply in_map. exact Hb.
  - exfalso. apply Hx. rewrite <- E. apply in_map. exact Ha.
  - apply IH; assumption.
Qed.

Lemma existsb_eqb_in x ids : existsb (Z.eqb x) ids = true <-> In x ids.
Proof.
  rewrite existsb_exists. split.
  - intros (y & Hy & E). apply Z.eqb_eq in E. subst. exact Hy.
  - intros H. exists x. split; [exact H | apply Z.eqb_refl].
Qed.

(** The rows that a condensation deletes lie in the month. *)
Lemma fetched_in_month db year month entries r :
  unique_ids (Sqlite.current (Database.connection db)) ->
  Database.get_journal_entries db
    (Some (Datetime.isoformat (first_instant year month)))
    (Some (Datetime.isoformat (last_instant year month))) = Ok entries ->
  In r (Sqlite.journal_entries (Sqlite.current (Database.connection db))) ->
  In (Sqlite.je_id r) (map Entry.id entries) ->
  outside_month year month r = false.
Proof.
  intros Hn He Hr Hid.
  apply get_journal_entries_ok in He. destruct He as [_ He].
  apply entries_ids in He. destruct He as [He _]. rewrite He in Hid.
  apply in_map_iff in Hid. destruct Hid as (r' & E & Hr').
  apply select_by_date_in in Hr'. destruct Hr' as [Hr' Hin].
  assert (r' = r) by (eapply nodup_map_eq; eassumption). subst r'.
  unfold outside_month. rewrite Hin. reflexivity.
Qed.

(** C10: a call of [condense_journal_entries] that returns leaves every
    journal row dated outside the month of the call as it was (same id,
    date, text and flag, in the same order) and does not touch the profile,
    the therapy sessions and the therapist notes.  The ids of the journal
    rows are assumed to be pairwise different, as they are in a table with a
    primary key. *)
Theorem condense_frame (db db' : Database.t) (month year : Z) (w w' : World.t) :
  unique_ids (Sqlite.current (Database.connection db)) ->
  Database.condense_journal_entries db month year w = Ok (db', w') ->
  same_outside_month year month (Sqlite.current (Database.connection db))
                                (Sqlite.current (Database.connection db')).
Proof.
  intros Hn H. apply condense_ok in H.
  destruct H as (Hc & entries & He & [(_ & -> & _) | (_ & enc & _ & ->)]).
  - unfold same_outside_month. auto 10.
  - unfold same_outside_month, Database.with_connection, condensed_connection,
      condensed_store, Sqlite.with_journal.
    cbn [Database.connection Sqlite.current Sqlite.journal_entries Sqlite.user_profile
         Sqlite.therapy_sessions Sqlite.sessions_seq Sqlite.therapist_notes Sqlite.notes_seq].
    split; [|auto 10].
    rewrite filter_filter, filter_app. cbn [filter Sqlite.je_id].
    assert (Hs : outside_month year month
                   (Sqlite.JournalRow
                      (Sqlite.next_id
                         (Sqlite.journal_seq (Sqlite.current (Database.connection db)))
                         (map Sqlite.je_id
                            (Sqlite.journal_entries (Sqlite.current (Database.connection db)))))
                      (Datetime.isoformat (first_instant year month)) enc 1) = false).
    { unfold outside_month. cbn [Sqlite.je_date].
      rewrite (month_start_in_range year month Hc). reflexivity. }
    rewrite Hs, andb_false_r, app_nil_r.
    apply filter_ext_in. intros r Hr.
    destruct (outside_month year month r) eqn:Ho; [|apply andb_false_r].
    rewrite andb_true_r.
    destruct (existsb (Z.eqb (Sqlite.je_id r)) (map Entry.id entries)) eqn:Hx; [|reflexivity].
    apply existsb_eqb_in in Hx.
    rewrite (fetched_in_month db year month entries r Hn He Hr Hx) in Ho. discriminate.
Qed.

Lemma condense_frame_witness :
  unique_ids (Sqlite.current (Database.connection (fst demo_journal)))
  /\ Database.condense_journal_entries (fst demo_journal) 5 2023 (snd demo_journal)
     = Ok (fst demo_condensed, snd demo_condensed)
  /\ same_outside_month 2023 5 (Sqlite.current (Database.connection (fst demo_journal)))
                               (Sqlite.current (Database.connection (fst demo_condensed))).
Proof.
  assert (H1 : unique_ids (Sqlite.current (Database.connection (fst demo_journal)))).
  { unfold unique_ids. cbn.
    repeat (constructor; [cbn; intuition discriminate|]). constructor. }
  assert (H2 : Database.condense_journal_entries (fst demo_journal) 5 2023 (snd demo_journal)
               = Ok (fst demo_condensed, snd demo_condensed)) by (vm_compute; reflexivity).
  split; [exact H1|]. split; [exact H2|].
  exact (condense_frame _ _ _ _ _ _ H1 H2).
Defined.

(** ** The range and the rows of a condensation *)

Lemma date_in_month year month r :
  Sqlite.date_in_range (Some (Datetime.isoformat (first_instant year month)))
                       (Some (Datetime.isoformat (last_instant year month)))
                       (Sqlite.je_date r)
  = in_month year month r.
Proof.
  unfold Sqlite.date_in_range, Sqlite.truthy, in_month.
  rewrite !isoformat_not_empty. reflexivity.
Qed.

Lemma entries_flags rows es db :
  Forall2 (fun row e =>
             Database.decrypt db (Sqlite.je_entry row) = Ok (Entry.entry e)
             /\ e = Entry.Make (Sqlite.je_id row) (Sqlite.je_date row) (Entry.entry e)
                               (negb (Sqlite.je_is_condensed row =? 0)))
          rows es ->
  map Entry.is_condensed es = map (fun r => negb (Sqlite.je_is_condensed r =? 0)) rows.
Proof.
  induction 1 as [|row e rows es [_ He] _ IH]; [auto|].
  cbn [map]. rewrite IH, He. reflexivity.
Qed.

Lemma get_journal_entries_month db year month entries :
  Database.get_journal_entries db
    (Some (Datetime.isoformat (first_instant year month)))
    (Some (Datetime.isoformat (last_instant year month))) = Ok entries ->
  fetched_exactly year month (Sqlite.current (Database.connection db)) entries.
Proof.
  intros H. apply get_journal_entries_ok in H. destruct H as [_ H].
  eexists. split; [|split; [apply (entries_ids _ _ _ H) | split;
                             [apply (entries_ids _ _ _ H) | apply (entries_flags _ _ _ H)]]].
  rewrite select_by_date_perm.
  rewrite (filter_ext _ (in_month year month)); [reflexivity|].
  intros r. apply date_in_month.
Qed.

Lemma first_instant_valid y m : 1 <= y <= 9999 -> 1 <= m <= 12 ->
  Datetime.valid (first_instant y m) = true.
Proof.
  intros Hy Hm. pose proof (days_in_month_bounds y m).
  unfold Datetime.valid, Datetime.check_date, Datetime.check_time, first_instant,
    Datetime.MINYEAR, Datetime.MAXYEAR.
  cbn [Datetime.year Datetime.month Datetime.day Datetime.hour Datetime.minute
       Datetime.second Datetime.microsecond].
  repeat (apply andb_true_intro; split); try apply Z.leb_le; try apply Z.ltb_lt; lia.
Qed.

Lemma last_instant_valid y m : 1 <= y <= 9999 -> 1 <= m <= 12 ->
  Datetime.valid (last_instant y m) = true.
Proof.
  intros Hy Hm. pose proof (days_in_month_bounds y m).
  unfold Datetime.valid, Datetime.check_date, Datetime.check_time, last_instant,
    Datetime.MINYEAR, Datetime.MAXYEAR.
  cbn [Datetime.year Datetime.month Datetime.day Datetime.hour Datetime.minute
       Datetime.second Datetime.microsecond].
  repeat (apply andb_true_intro; split); try apply Z.leb_le; try apply Z.ltb_lt; lia.
Qed.

(** The datetimes between the first and the last instant of a month are
    those of that month of that year. *)
Lemma in_month_time y m d : Datetime.valid d = true ->
  Datetime.leb (first_instant y m) d && Datetime.leb d (last_instant y m)
  = (Datetime.year d =? y) && (Datetime.month d =? m).
Proof.
  intros Hv. apply valid_bounds in Hv.
  unfold Datetime.leb, Datetime.compare, first_instant, last_instant.
  cbn [Datetime.year Datetime.month Datetime.day Datetime.hour Datetime.minute
       Datetime.second Datetime.microsecond].
  destruct (Z.eqb_spec (Datetime.year d) y) as [<-|Hy].
  - rewrite Z.compare_refl.
    destruct (Z.eqb_spec (Datetime.month d) m) as [<-|Hm].
    + rewrite Z.compare_refl.
      repeat match goal with
             | |- context [?a ?= ?b] => destruct (Z.compare_spec a b); try lia
             end; reflexivity.
    + destruct (Z.compare_spec m (Datetime.month d)); [congruence| |];
        destruct (Z.compare_spec (Datetime.month d) m); try lia; try reflexivity;
        rewrite ?andb_false_r; reflexivity.
  - destruct (Z.compare_spec y (Datetime.year d)); [congruence| |];
      destruct (Z.compare_spec (Datetime.year d) y); try lia; try reflexivity;
      rewrite ?andb_false_r; reflexivity.
Qed.

Lemma in_month_isoformat y m r d : 1 <= y <= 9999 -> 1 <= m <= 12 ->
  Datetime.valid d = true -> Sqlite.je_date r = Datetime.isoformat d ->
  in_month y m r
  = Datetime.leb (first_instant y m) d && Datetime.leb d (last_instant y m).
Proof.
  intros Hy Hm Hd Hr. unfold in_month. rewrite Hr.
  rewrite !isoformat_leb;
    auto using first_instant_valid, last_instant_valid.
Qed.

(** C6, amended.  For every month of every year of the calendar of
    [datetime]: in December 9999 the call raises [OverflowError], whatever
    the vault holds; in every other month the range that
    [condense_journal_entries] computes goes from the first instant of the
    month (day 1, 00:00:00) to its last instant (the last day, with 28, 29,
    30 or 31 days as the month and the leap year rule have it,
    23:59:59.999999), the entries fetched with that range are the journal
    rows, condensed or not, whose timestamp text lies between the texts of
    the two instants, and a call that returns has fetched its entries with
    exactly that range.  For a timestamp written as the program writes
    them, with [isoformat], the text lies between the two texts exactly when
    the time lies between the two instants, which is when it is a time of
    that month of that year. *)
Theorem condense_month_range (year month : Z) :
  1 <= year <= 9999 -> 1 <= month <= 12 ->
  ((year, month) = (9999, 12) ->
   forall db w, Database.condense_journal_entries db month year w = Raise OverflowError)
  /\ ((year, month) <> (9999, 12) ->
      (let* target_month := Datetime.new year month 1 in Database.month_range target_month)
      = Ok (Datetime.isoformat (first_instant year month),
            Datetime.isoformat (last_instant year month))
      /\ (forall db entries,
            Database.get_journal_entries db
              (Some (Datetime.isoformat (first_instant year month)))
              (Some (Datetime.isoformat (last_instant year month))) = Ok entries ->
            fetched_exactly year month (Sqlite.current (Database.connection db)) entries)
      /\ (forall db w db' w',
            Database.condense_journal_entries db month year w = Ok (db', w') ->
            exists entries,
              Database.get_journal_entries db
                (Some (Datetime.isoformat (first_instant year month)))
                (Some (Datetime.isoformat (last_instant year month))) = Ok entries
              /\ fetched_exactly year month (Sqlite.current (Database.connection db)) entries
              /\ (entries = [] -> db' = db)))
  /\ (forall r d, Datetime.valid d = true -> Sqlite.je_date r = Datetime.isoformat d ->
        in_month year month r
        = Datetime.leb (first_instant year month) d && Datetime.leb d (last_instant year month)
        /\ (in_month year month r = true
            <-> Datetime.year d = year /\ Datetime.month d = month)).
Proof.
  intros Hy Hm. split; [|split].
  - intros E db w. injection E as -> ->. reflexivity.
  - intros Hne. assert (Hc : month_in_calendar year month) by (repeat split; try lia; exact Hne).
    split; [|split].
    + rewrite (new_first_instant year month Hy Hm). cbn [bind].
      apply month_range_explicit. exact Hc.
    + intros db entries. apply get_journal_entries_month.
    + intros db w db' w' H. apply condense_ok in H.
      destruct H as (_ & entries & He & Hcases). exists entries.
      split; [exact He|]. split; [apply get_journal_entries_month; exact He|].
      intros ->. destruct Hcases as [(_ & -> & _) | (Hn & _)]; [reflexivity|].
      contradiction Hn. reflexivity.
  - intros r d Hd Hr. rewrite (in_month_isoformat year month r d Hy Hm Hd Hr).
    split; [reflexivity|]. rewrite in_month_time by exact Hd.
    rewrite andb_true_iff, !Z.eqb_eq. reflexivity.
Qed.

Lemma condense_month_range_witness :
  (1 <= 2024 <= 9999 /\ 1 <= 2 <= 12)
  /\ (let* target_month := Datetime.new 2024 2 1 in Database.month_range target_month)
     = Ok ("2024-02-01T00:00:00", "2024-02-29T23:59:59.999999")%string
  /\ (1 <= 9999 <= 9999 /\ 1 <= 12 <= 12)
  /\ Database.condense_journal_entries (fst demo_journal) 12 9999 (snd demo_journal)
     = Raise OverflowError.
Proof.
  split; [lia|]. split.
  - refine (proj1 (proj1 (proj2 (condense_month_range 2024 2 _ _)) _)); [lia | lia | discriminate].
  - split; [lia|].
    refine (proj1 (condense_month_range 9999 12 _ _) eq_refl _ _); lia.
Defined.

(** C6 as it is stated fails in two ways.  For December 9999 no range is
    computed: four days after the 28th no [datetime] exists, and the call
    raises before it fetches anything.  And an entry whose timestamp falls
    in the month is not fetched when its text is not between the texts of
    the two instants: of two entries of May 2023 that are dated by their
    days, the one of the first of May is left out, because its timestamp is
    a proper prefix of the text of the first instant and so before it in
    text order; condensing the month leaves that entry beside the summary
    of the other one. *)
Lemma date_only_entry_not_fetched :
  Database.condense_journal_entries demo_db 12 9999 demo_world = Raise OverflowError
  /\ date_only_entries
     = [("first of May", "2023-05-01"); ("second of May", "2023-05-02")]%string
  /\ add_all date_only_entries (demo_db, demo_world) = Ok date_only_journal
  /\ Database.get_journal_entries (fst date_only_journal)
       (Some (Datetime.isoformat (first_instant 2023 5)))
       (Some (Datetime.isoformat (last_instant 2023 5))) = Ok date_only_fetched
  /\ map as_added date_only_fetched = [("second of May", "2023-05-02")]%string
  /\ Database.condense_journal_entries (fst date_only_journal) 5 2023 (snd date_only_journal)
     = Ok date_only_condensed
  /\ map (fun r => (Sqlite.je_id r, Sqlite.je_date r, Sqlite.je_is_condensed r))
         (Sqlite.journal_entries (Sqlite.file (Database.connection (fst date_only_condensed))))
     = [(1, "2023-05-01", 0); (3, "2023-05-01T00:00:00", 1)]%string.
Proof.
  split; [reflexivity|]. split; [reflexivity|]. split; [vm_compute; reflexivity|].
  split; [vm_compute; reflexivity|]. split; [reflexivity|].
  split; [vm_compute; reflexivity|]. reflexivity.
Qed.

(** ** A condensation is all or nothing *)

Lemma fold_max_ge ids : forall seq,
  seq <= fold_left Z.max ids seq /\ forall i, In i ids -> i <= fold_left Z.max ids seq.
Proof.
  induction ids as [|x ids IH]; intros seq; cbn [fold_left].
  - split; [lia | intros i []].
  - destruct (IH (Z.max seq x)) as [H1 H2]. split; [lia|].
    intros i [->|Hi]; [lia | apply H2; exact Hi].
Qed.

Lemma summary_id_fresh s : ~ In (summary_id s) (map Sqlite.je_id (Sqlite.journal_entries s)).
Proof.
  unfold summary_id, Sqlite.next_id. intros H.
  apply (proj2 (fold_max_ge _ (Sqlite.journal_seq s))) in H. lia.
Qed.

Lemma execute_all_journal sts : forall c,
  Sqlite.closed c = false ->
  Forall (fun st => exists d e f i, st = Sqlite.InsertJournal d e f \/ st = Sqlite.DeleteJournal i)
         sts ->
  exists c', Database.execute_all sts c = Ok c'
             /\ Sqlite.file c' = Sqlite.file c /\ Sqlite.closed c' = false.
Proof.
  induction sts as [|st sts IH]; intros c Hc Hj; cbn [Database.execute_all].
  - exists c. auto.
  - inversion Hj as [|? ? (d & e & f & i & Hst) Hj']; subst.
    assert (Hr : exists s, Sqlite.run st (Sqlite.current c) = Ok s)
      by (destruct Hst as [->| ->]; eexists; reflexivity).
    destruct Hr as [s Hs].
    rewrite (execute_open st c s Hc Hs). cbn [bind].
    destruct (IH (Sqlite.Connection (Sqlite.file c) s false) eq_refl Hj') as (c' & E & F & G).
    exists c'. auto.
Qed.

Lemma condense_writes_journal d enc es :
  Forall (fun st => exists d e f i, st = Sqlite.InsertJournal d e f \/ st = Sqlite.DeleteJournal i)
         (Database.condense_writes d enc es).
Proof.
  unfold Database.condense_writes. constructor.
  - exists d, enc, 1, 0. left. reflexivity.
  - apply Forall_map. apply Forall_forall. intros e _.
    exists d, enc, 1, (Entry.id e). right. reflexivity.
Qed.

Lemma fetched_ids_present db lo hi entries :
  Database.get_journal_entries db lo hi = Ok entries ->
  originals_present (Sqlite.current (Database.connection db)) entries.
Proof.
  intros H e He. apply get_journal_entries_ok in H. destruct H as [_ H].
  apply entries_ids in H. destruct H as [H _].
  apply (in_map Entry.id) in He. rewrite H in He.
  apply in_map_iff in He. destruct He as (r & E & Hr).
  apply select_by_date_in in Hr. rewrite <- E. apply in_map. apply Hr.
Qed.

Lemma condense_run db month year w entries enc w' :
  month_in_calendar year month ->
  Database.get_journal_entries db
    (Some (Datetime.isoformat (first_instant year month)))
    (Some (Datetime.isoformat (last_instant year month))) = Ok entries ->
  entries <> [] ->
  Database.encrypt db (Database.condensed_text_of (first_instant year month) entries) w
  = Ok (enc, w') ->
  Database.condense_journal_entries db month year w
  = Ok (Database.with_connection db
          (condensed_connection (Database.connection db)
             (Datetime.isoformat (first_instant year month)) enc (map Entry.id entries)),
        w').
Proof.
  intros Hc He Hne Henc. pose proof Hc as (Hy & Hm & _).
  pose proof (proj1 (get_journal_entries_ok _ _ _ _ He)) as Hopen.
  unfold Database.condense_journal_entries.
  rewrite (new_first_instant year month Hy Hm). cbn [bind].
  rewrite (month_range_explicit year month Hc). cbn [bind].
  rewrite He. cbn [bind].
  destruct entries as [|e entries]; [contradiction Hne; reflexivity|].
  rewrite Henc. cbn [bind].
  rewrite condense_writes_deletes. cbn [Database.execute_all].
  rewrite (execute_open (Sqlite.InsertJournal _ enc 1) _ _ Hopen eq_refl). cbn [bind].
  rewrite execute_all_deletes by reflexivity. cbn [bind].
  rewrite commit_open by reflexivity. reflexivity.
Qed.

(** A run of journal writes and a commit, cut short or not: either it is
    cut before the commit, and the connection is left with the first writes
    pending and the file as it was, or it runs to its end, and all is
    committed. *)
Lemma perform_all_journal sts :
  Forall (fun st => exists d e f i, st = Sqlite.InsertJournal d e f \/ st = Sqlite.DeleteJournal i)
         sts ->
  forall cut c, Sqlite.closed c = false ->
  ((exists k, cut = Some k /\ (k <= List.length sts)%nat
              /\ Database.execute_all (firstn k sts) c
                 = Ok (snd (Sqlite.perform_all (map Sqlite.Execute sts ++ [Sqlite.Commit]) cut c)))
   /\ fst (Sqlite.perform_all (map Sqlite.Execute sts ++ [Sqlite.Commit]) cut c)
      = Raise OperationalError
   /\ Sqlite.file (snd (Sqlite.perform_all (map Sqlite.Execute sts ++ [Sqlite.Commit]) cut c))
      = Sqlite.file c)
  \/ ((cut = None \/ exists k, cut = Some k /\ (List.length sts < k)%nat)
      /\ Sqlite.perform_all (map Sqlite.Execute sts ++ [Sqlite.Commit]) cut c
         = Sqlite.perform_all (map Sqlite.Execute sts ++ [Sqlite.Commit]) None c
      /\ fst (Sqlite.perform_all (map Sqlite.Execute sts ++ [Sqlite.Commit]) None c) = Ok tt).
Proof.
  induction 1 as [|st sts (d & e & f & i & Hst) Hj IH]; intros cut c Hc.
  - cbn [map app List.length firstn Database.execute_all].
    destruct cut as [[|k]|].
    + left. split; [exists 0%nat; repeat split; lia|]. split; reflexivity.
    + right. split; [right; exists (S k); split; [reflexivity | lia]|].
      cbn [Sqlite.perform_all Sqlite.perform]. rewrite commit_open by exact Hc.
      split; reflexivity.
    + right. split; [left; reflexivity|].
      cbn [Sqlite.perform_all Sqlite.perform]. rewrite commit_open by exact Hc.
      split; reflexivity.
  - assert (Hr : exists s, Sqlite.run st (Sqlite.current c) = Ok s)
      by (destruct Hst as [->| ->]; eexists; reflexivity).
    destruct Hr as [s Hs].
    pose proof (execute_open st c s Hc Hs) as Hx.
    cbn [map app List.length].
    destruct cut as [[|k]|].
    + left. split; [exists 0%nat; split; [reflexivity|]; split; [lia | reflexivity]|].
      split; reflexivity.
    + cbn [Sqlite.perform_all Sqlite.perform option_map Nat.pred]. rewrite Hx.
      destruct (IH (Some k) (Sqlite.Connection (Sqlite.file c) s false) eq_refl)
        as [((k' & Ek & Hk & He) & Hf & Hfile)|(Hcut & Hsame & Hok)].
      * injection Ek as <-. left.
        split; [exists (S k); split; [reflexivity|]; split; [lia|]|].
        -- cbn [firstn Database.execute_all]. rewrite Hx. cbn [bind]. exact He.
        -- split; [exact Hf | exact Hfile].
      * right. destruct Hcut as [Hcut|(k' & Ek & Hk)]; [discriminate Hcut|].
        injection Ek as <-.
        split; [right; exists (S k); split; [reflexivity | lia]|].
        split; [exact Hsame | exact Hok].
    + cbn [Sqlite.perform_all Sqlite.perform option_map]. rewrite Hx.
      destruct (IH None (Sqlite.Connection (Sqlite.file c) s false) eq_refl)
        as [((k' & Ek & _) & _)|(_ & _ & Hok)]; [discriminate Ek|].
      right. split; [left; reflexivity|]. split; [reflexivity | exact Hok].
Qed.

Lemma all_happened_condensed db before condensed_date enc entries lo hi :
  before = Sqlite.current (Database.connection db) ->
  Database.get_journal_entries db lo hi = Ok entries ->
  all_happened before
    (file_reader (condensed_connection (Database.connection db) condensed_date enc
                                       (map Entry.id entries)))
    condensed_date enc entries.
Proof.
  intros -> He.
  unfold all_happened, file_reader, condensed_connection, condensed_store, Sqlite.with_journal.
  cbn [Sqlite.file Sqlite.connect Sqlite.current Sqlite.journal_entries].
  split.
  - intros e Hin Habs. apply in_map_iff in Habs. destruct Habs as (r & E & Hr).
    apply filter_In in Hr. destruct Hr as [_ Hr].
    apply negb_true_iff in Hr.
    assert (Hx : existsb (Z.eqb (Sqlite.je_id r)) (map Entry.id entries) = true).
    { apply existsb_eqb_in. rewrite E. apply in_map. exact Hin. }
    congruence.
  - apply filter_In. split; [apply in_or_app; right; left; reflexivity|].
    cbn [Sqlite.je_id]. apply negb_true_iff.
    destruct (existsb _ _) eqn:Hx; [|reflexivity].
    apply existsb_eqb_in in Hx. apply in_map_iff in Hx. destruct Hx as (e & E & Hin).
    exfalso. apply (summary_id_fresh (Sqlite.current (Database.connection db))).
    rewrite <- E. exact (fetched_ids_present _ _ _ _ He e Hin).
Qed.

(** C2, amended: take a connection with nothing pending and a month with
    at least one matching entry.  The method inserts the summary, deletes
    the entries and commits, and it may be cut short before any of these
    operations; the run that nothing cuts short is the method itself.  If
    it is cut short before the commit, it raises, the
    object is left with the writes made so far pending -- nothing is rolled
    back --, and whoever opens the file with a connection of their own
    finds the store as it was before the call: all originals, no summary.
    If it is not, it returns, nothing is pending, and the file holds the
    summary and none of the originals. *)
Theorem condense_cut_short (cut : option nat) (db : Database.t) (month year : Z)
    (w w' : World.t) (entries : list Entry.t) (enc : string) :
  month_in_calendar year month ->
  Sqlite.file (Database.connection db) = Sqlite.current (Database.connection db) ->
  Database.get_journal_entries db
    (Some (Datetime.isoformat (first_instant year month)))
    (Some (Datetime.isoformat (last_instant year month))) = Ok entries ->
  entries <> [] ->
  Database.encrypt db (Database.condensed_text_of (first_instant year month) entries) w
  = Ok (enc, w') ->
  let before := Sqlite.current (Database.connection db) in
  let condensed_date := Datetime.isoformat (first_instant year month) in
  let ending := Database.condense_journal_entries_cut cut db month year w in
  let db' := snd ending in
  fst (Database.condense_journal_entries_cut None db month year w)
  = Database.condense_journal_entries db month year w
  /\
  (((exists k, cut = Some k /\ (k <= S (List.length entries))%nat
              /\ Database.execute_all
                   (firstn k (Database.condense_writes condensed_date enc entries))
                   (Database.connection db)
                 = Ok (Database.connection db'))
   /\ fst ending = Raise OperationalError
   /\ nothing_happened before (file_reader (Database.connection db')) entries)
  \/ ((cut = None \/ exists k, cut = Some k /\ (S (List.length entries) < k)%nat)
      /\ fst ending = Ok (db', w')
      /\ Sqlite.file (Database.connection db') = Sqlite.current (Database.connection db')
      /\ all_happened before (file_reader (Database.connection db')) condensed_date enc
                      entries)).
Proof.
  intros Hc Hfile He Hne Henc before condensed_date ending db'.
  split; [apply condense_journal_entries_uncut|].
  pose proof Hc as (Hy & Hm & _).
  pose proof (proj1 (get_journal_entries_ok _ _ _ _ He)) as Hopen.
  assert (Hlen : List.length (Database.condense_writes condensed_date enc entries)
                 = S (List.length entries))
    by (unfold Database.condense_writes; cbn [List.length]; rewrite length_map; reflexivity).
  pose proof (condense_run db month year w entries enc w' Hc He Hne Henc) as Hrun.
  rewrite <- condense_journal_entries_uncut in Hrun.
  subst ending db'. revert Hrun.
  unfold Database.condense_journal_entries_cut.
  rewrite (new_first_instant year month Hy Hm). cbn [bind].
  rewrite (month_range_explicit year month Hc). cbn [bind].
  rewrite He. cbn [bind].
  destruct entries as [|e0 entries0]; [contradiction Hne; reflexivity|].
  set (entries := e0 :: entries0) in *.
  rewrite Henc. unfold Database.condense_operations. fold condensed_date.
  destruct (perform_all_journal (Database.condense_writes condensed_date enc entries)
              (condense_writes_journal _ _ _) cut (Database.connection db) Hopen)
    as [((k & Ek & Hk & Hx) & Hr & Hf)|(Hcut & Hsame & Hok)].
  - intros _. left.
    destruct (Sqlite.perform_all _ cut (Database.connection db)) as [r c] eqn:E.
    cbn [fst snd] in *. subst r. cbn [bind fst snd Database.with_connection Database.connection].
    split; [exists k; split; [exact Ek|]; split; [lia | exact Hx]|].
    split; [reflexivity|].
    unfold nothing_happened, file_reader. cbn [Sqlite.connect Sqlite.current].
    rewrite Hf, Hfile. fold before.
    split; [reflexivity|]. split.
    + exact (fetched_ids_present _ _ _ _ He).
    + apply summary_id_fresh.
  - rewrite Hsame.
    destruct (Sqlite.perform_all _ None (Database.connection db)) as [r c] eqn:E.
    cbn [fst snd] in *. subst r. cbn [bind fst snd].
    intros Hrun. injection Hrun as Hdb. right.
    split; [rewrite <- Hlen; exact Hcut|].
    split; [reflexivity|].
    rewrite Hdb. cbn [Database.with_connection Database.connection].
    split; [reflexivity|].
    apply (all_happened_condensed db before condensed_date enc entries _ _ eq_refl He).
Qed.

Lemma condense_cut_short_witness :
  (month_in_calendar 2023 5
   /\ Sqlite.file (Database.connection (fst demo_journal))
      = Sqlite.current (Database.connection (fst demo_journal))
   /\ Database.get_journal_entries (fst demo_journal)
        (Some (Datetime.isoformat (first_instant 2023 5)))
        (Some (Datetime.isoformat (last_instant 2023 5))) = Ok demo_entries
   /\ demo_entries <> []
   /\ Database.encrypt (fst demo_journal)
        (Database.condensed_text_of (first_instant 2023 5) demo_entries) (snd demo_journal)
      = Ok demo_encrypted)
  /\ fst (Database.condense_journal_entries_cut (Some 2%nat) (fst demo_journal) 5 2023
                                               (snd demo_journal))
     = Raise OperationalError
  /\ nothing_happened
       (Sqlite.current (Database.connection (fst demo_journal)))
       (file_reader
          (Database.connection
             (snd (Database.condense_journal_entries_cut (Some 2%nat) (fst demo_journal) 5 2023
                                                         (snd demo_journal)))))
       demo_entries.
Proof.
  assert (Hc : month_in_calendar 2023 5).
  { unfold month_in_calendar. repeat split; try lia. discriminate. }
  assert (He : Database.get_journal_entries (fst demo_journal)
                 (Some (Datetime.isoformat (first_instant 2023 5)))
                 (Some (Datetime.isoformat (last_instant 2023 5))) = Ok demo_entries)
    by (vm_compute; reflexivity).
  assert (Hne : demo_entries <> []) by discriminate.
  assert (Henc : Database.encrypt (fst demo_journal)
                   (Database.condensed_text_of (first_instant 2023 5) demo_entries)
                   (snd demo_journal)
                 = Ok (fst demo_encrypted, snd demo_encrypted))
    by (vm_compute; reflexivity).
  split; [split; [exact Hc|]; split; [reflexivity|]; split; [exact He|]; split;
          [exact Hne | exact Henc]|].
  destruct (proj2 (condense_cut_short (Some 2%nat) (fst demo_journal) 5 2023
                     (snd demo_journal) (snd demo_encrypted) demo_entries (fst demo_encrypted)
                     Hc eq_refl He Hne Henc))
    as [(_ & Hr & Hn)|[[Hcut|(k & Ek & Hk)] _]].
  - split; [exact Hr | exact Hn].
  - discriminate Hcut.
  - exfalso. injection Ek as <-. cbn in Hk. lia.
Defined.

(** C2 as stated fails for a reader on the connection of the call: the
    method has no handler and never rolls back.  When the call for May 2023
    is cut short after the insertion of the summary and the first deletion,
    it raises, and a listing through the same object shows the summary
    (row 4) next to the original that was not yet deleted (row 1).  The next
    method that commits, here [add_journal_entry], makes this state
    permanent: every reader of the file finds it. *)
Lemma cut_short_call_leaves_mixed_state :
  Database.condense_journal_entries_cut (Some 2%nat) (fst demo_journal) 5 2023
                                        (snd demo_journal) = cut_demo
  /\ fst cut_demo = Raise OperationalError
  /\ map Entry.id demo_entries = [2; 1]
  /\ map (fun r => (Sqlite.je_id r, Sqlite.je_is_condensed r)) (journal_rows (snd cut_demo))
     = [(1, 0); (3, 0); (4, 1)]
  /\ Database.get_journal_entries (snd cut_demo) None None = Ok cut_demo_listed
  /\ map (fun e => (Entry.id e, Entry.is_condensed e)) cut_demo_listed
     = [(3, false); (1, false); (4, true)]
  /\ Database.add_journal_entry (snd cut_demo) "delta" (Some "2023-07-01T09:00:00"%string)
                                (snd demo_journal)
     = Ok cut_demo_continued
  /\ map (fun r => (Sqlite.je_id r, Sqlite.je_is_condensed r))
       (Sqlite.journal_entries (file_reader (Database.connection (fst cut_demo_continued))))
     = [(1, 0); (3, 0); (4, 1); (5, 0)].
Proof.
  split; [vm_compute; reflexivity|]. split; [reflexivity|]. split; [reflexivity|].
  split; [reflexivity|]. split; [vm_compute; reflexivity|]. split; [reflexivity|].
  split; [vm_compute; reflexivity | reflexivity].
Qed.

(** ** Base64: decoding what was encoded *)

Lemma forall_below (n : nat) (P : Z -> bool) :
  forallb P (map Z.of_nat (seq 0 n)) = true -> forall x, 0 <= x < Z.of_nat n -> P x = true.
Proof.
  intros H x Hx. rewrite forallb_forall in H. apply H.
  replace x with (Z.of_nat (Z.to_nat x)) by lia.
  apply in_map, in_seq. lia.
Qed.

Lemma sextet_facts i : 0 <= i < 64 ->
  (Base64.enc_char i =? Base64.pad_char) = false
  /\ Base64.dec_char (Base64.enc_char i) = Some i
  /\ 0 <= Base64.enc_char i < 128.
Proof.
  intros Hi.
  assert (E : forallb sextet_check (map Z.of_nat (seq 0 64)) = true) by (vm_compute; reflexivity).
  pose proof (forall_below 64 _ E i Hi) as H. unfold sextet_check in H.
  apply andb_prop in H. destruct H as [H H4]. apply andb_prop in H. destruct H as [H H3].
  apply andb_prop in H. destruct H as [H1 H2].
  apply negb_true_iff in H1.
  destruct (Base64.dec_char (Base64.enc_char i)) as [j|]; [|discriminate].
  apply Z.eqb_eq in H2. subst j. repeat split; try assumption; lia.
Qed.

Lemma byte_split a : is_byte a -> byte_split_check a = true.
Proof.
  intros Ha.
  assert (E : forallb byte_split_check Aes.byte_values = true) by (vm_compute; reflexivity).
  exact (forall_byte _ E a Ha).
Qed.

Lemma join_4 p q : 0 <= p < 4 -> 0 <= q < 16 -> join_check 4 p q = true.
Proof.
  intros Hp Hq.
  assert (E : forallb (fun p => forallb (join_check 4 p) (map Z.of_nat (seq 0 16)))
                      (map Z.of_nat (seq 0 4)) = true) by (vm_compute; reflexivity).
  pose proof (forall_below 4 _ E p Hp) as E1. cbv beta in E1.
  exact (forall_below 16 _ E1 q Hq).
Qed.

Lemma join_2 p q : 0 <= p < 16 -> 0 <= q < 4 -> join_check 2 p q = true.
Proof.
  intros Hp Hq.
  assert (E : forallb (fun p => forallb (join_check 2 p) (map Z.of_nat (seq 0 4)))
                      (map Z.of_nat (seq 0 16)) = true) by (vm_compute; reflexivity).
  pose proof (forall_below 16 _ E p Hp) as E1. cbv beta in E1.
  exact (forall_below 4 _ E1 q Hq).
Qed.

(** The parts of a byte, as the encoder cuts it. *)
Lemma byte_parts a : is_byte a ->
  (0 <= Z.shiftr a 2 < 64 /\ 0 <= Z.land a 3 < 4
   /\ Z.lor (Z.shiftl (Z.shiftr a 2) 2) (Z.land a 3) mod 256 = a)
  /\ (0 <= Z.shiftr a 4 < 16 /\ 0 <= Z.land a 15 < 16
      /\ Z.lor (Z.shiftl (Z.shiftr a 4) 4) (Z.land a 15) mod 256 = a)
  /\ (0 <= Z.shiftr a 6 < 4 /\ 0 <= Z.land a 63 < 64
      /\ Z.lor (Z.shiftl (Z.shiftr a 6) 6) (Z.land a 63) mod 256 = a).
Proof.
  intros Ha. pose proof (byte_split a Ha) as H. unfold byte_split_check in H.
  repeat (apply andb_prop in H; destruct H as [H ?]).
  repeat match goal with
         | E : (_ =? _) = true |- _ => apply Z.eqb_eq in E
         | E : (_ <? _) = true |- _ => apply Z.ltb_lt in E
         | E : (_ <=? _) = true |- _ => apply Z.leb_le in E
         end.
  repeat split; assumption.
Qed.

Lemma join_parts bits p q : join_check bits p q = true ->
  0 <= Z.lor (Z.shiftl p bits) q < 64
  /\ Z.shiftr (Z.lor (Z.shiftl p bits) q) bits = p
  /\ Z.land (Z.lor (Z.shiftl p bits) q) (2 ^ bits - 1) = q.
Proof.
  unfold join_check. intros H.
  repeat (apply andb_prop in H; destruct H as [H ?]).
  repeat match goal with
         | E : (_ =? _) = true |- _ => apply Z.eqb_eq in E
         | E : (_ <? _) = true |- _ => apply Z.ltb_lt in E
         | E : (_ <=? _) = true |- _ => apply Z.leb_le in E
         end.
  repeat split; assumption.
Qed.

(** One step of the decoder on a digit of the alphabet. *)
Lemma dstep_sextet q l p out i : 0 <= i < 64 ->
  Base64.dstep (Base64.DState q l p out false) (Base64.enc_char i)
  = if q =? 0 then Base64.DState 1 i 0 out false
    else if q =? 1 then
      Base64.DState 2 (Z.land i 15) 0
        (Z.lor (Z.shiftl l 2) (Z.shiftr i 4) mod 256 :: out) false
    else if q =? 2 then
      Base64.DState 3 (Z.land i 3) 0
        (Z.lor (Z.shiftl l 4) (Z.shiftr i 2) mod 256 :: out) false
    else Base64.DState 0 0 0 (Z.lor (Z.shiftl l 6) i mod 256 :: out) false.
Proof.
  intros Hi. destruct (sextet_facts i Hi) as (H1 & H2 & _).
  unfold Base64.dstep.
  cbn [Base64.finished Base64.quad_pos Base64.leftchar Base64.pads Base64.out_rev].
  rewrite H1, H2. reflexivity.
Qed.

Lemma decode_group a b c out : is_byte a -> is_byte b -> is_byte c ->
  fold_left Base64.dstep
    [Base64.enc_char (Z.shiftr a 2);
     Base64.enc_char (Z.lor (Z.shiftl (Z.land a 3) 4) (Z.shiftr b 4));
     Base64.enc_char (Z.lor (Z.shiftl (Z.land b 15) 2) (Z.shiftr c 6));
     Base64.enc_char (Z.land c 63)]
    (Base64.DState 0 0 0 out false)
  = Base64.DState 0 0 0 (c :: b :: a :: out) false.
Proof.
  intros Ha Hb Hc.
  destruct (byte_parts a Ha) as ((A1 & A2 & A3) & _ & _).
  destruct (byte_parts b Hb) as (_ & (B1 & B2 & B3) & _).
  destruct (byte_parts c Hc) as (_ & _ & (C1 & C2 & C3)).
  destruct (join_parts 4 _ _ (join_4 _ _ A2 B1)) as (J1 & J2 & J3).
  destruct (join_parts 2 _ _ (join_2 _ _ B2 C1)) as (K1 & K2 & K3).
  change (2 ^ 4 - 1) with 15 in J3. change (2 ^ 2 - 1) with 3 in K3.
  cbn [fold_left].
  rewrite (dstep_sextet 0 _ _ _ _ A1). change (0 =? 0) with true. cbv iota.
  rewrite (dstep_sextet 1 _ _ _ _ J1). change (1 =? 0) with false. change (1 =? 1) with true.
  cbv iota. rewrite J2, J3, A3.
  rewrite (dstep_sextet 2 _ _ _ _ K1). change (2 =? 0) with false. change (2 =? 1) with false.
  change (2 =? 2) with true. cbv iota. rewrite K2, K3, B3.
  rewrite (dstep_sextet 3 _ _ _ _ C2). change (3 =? 0) with false. change (3 =? 1) with false.
  change (3 =? 2) with false. cbv iota. rewrite C3. reflexivity.
Qed.

Lemma decode_tail_1 a out : is_byte a ->
  fold_left Base64.dstep
    [Base64.enc_char (Z.shiftr a 2); Base64.enc_char (Z.shiftl (Z.land a 3) 4);
     Base64.pad_char; Base64.pad_char]
    (Base64.DState 0 0 0 out false)
  = Base64.DState 2 0 2 (a :: out) true.
Proof.
  intros Ha.
  destruct (byte_parts a Ha) as ((A1 & A2 & A3) & _ & _).
  assert (Z0 : 0 <= 0 < 16) by lia.
  destruct (join_parts 4 _ _ (join_4 _ _ A2 Z0)) as (J1 & J2 & J3).
  rewrite Z.lor_0_r in J1, J2, J3. change (2 ^ 4 - 1) with 15 in J3.
  cbn [fold_left].
  rewrite (dstep_sextet 0 _ _ _ _ A1). change (0 =? 0) with true. cbv iota.
  rewrite (dstep_sextet 1 _ _ _ _ J1). change (1 =? 0) with false. change (1 =? 1) with true.
  cbv iota. rewrite J2, J3, A3. reflexivity.
Qed.

Lemma decode_tail_2 a b out : is_byte a -> is_byte b ->
  fold_left Base64.dstep
    [Base64.enc_char (Z.shiftr a 2);
     Base64.enc_char (Z.lor (Z.shiftl (Z.land a 3) 4) (Z.shiftr b 4));
     Base64.enc_char (Z.shiftl (Z.land b 15) 2); Base64.pad_char]
    (Base64.DState 0 0 0 out false)
  = Base64.DState 3 0 1 (b :: a :: out) true.
Proof.
  intros Ha Hb.
  destruct (byte_parts a Ha) as ((A1 & A2 & A3) & _ & _).
  destruct (byte_parts b Hb) as (_ & (B1 & B2 & B3) & _).
  destruct (join_parts 4 _ _ (join_4 _ _ A2 B1)) as (J1 & J2 & J3).
  assert (Z0 : 0 <= 0 < 4) by lia.
  destruct (join_parts 2 _ _ (join_2 _ _ B2 Z0)) as (K1 & K2 & K3).
  rewrite Z.lor_0_r in K1, K2, K3.
  change (2 ^ 4 - 1) with 15 in J3. change (2 ^ 2 - 1) with 3 in K3.
  cbn [fold_left].
  rewrite (dstep_sextet 0 _ _ _ _ A1). change (0 =? 0) with true. cbv iota.
  rewrite (dstep_sextet 1 _ _ _ _ J1). change (1 =? 0) with false. change (1 =? 1) with true.
  cbv iota. rewrite J2, J3, A3.
  rewrite (dstep_sextet 2 _ _ _ _ K1). change (2 =? 0) with false. change (2 =? 1) with false.
  change (2 =? 2) with true. cbv iota. rewrite K2, K3, B3. reflexivity.
Qed.

(** Lists three elements at a time. *)
Lemma list_ind3 {A : Type} (P : list A -> Prop) :
  P [] -> (forall a, P [a]) -> (forall a b, P [a; b]) ->
  (forall a b c l, P l -> P (a :: b :: c :: l)) ->
  forall l, P l.
Proof.
  intros H0 H1 H2 H3.
  assert (H : forall l, P l /\ (forall a, P (a :: l)) /\ (forall a b, P (a :: b :: l))).
  { induction l as [|x l (IH0 & IH1 & IH2)]; [auto|].
    split; [apply IH1|]. split; [intros a; apply IH2|]. intros a b. apply H3. exact IH0. }
  intros l. apply H.
Qed.

Lemma decode_encode_state bs : wf bs -> forall out,
  exists q l p,
    fold_left Base64.dstep (Base64.encode bs) (Base64.DState 0 0 0 out false)
    = Base64.DState q l p (rev bs ++ out) (negb (q =? 0)).
Proof.
  induction bs as [|a|a b|a b c rest IH] using list_ind3; intros Hw out.
  - exists 0, 0, 0. reflexivity.
  - inversion Hw; subst. exists 2, 0, 2.
    change (Base64.encode [a]) with
      [Base64.enc_char (Z.shiftr a 2); Base64.enc_char (Z.shiftl (Z.land a 3) 4);
       Base64.pad_char; Base64.pad_char].
    rewrite decode_tail_1 by assumption. reflexivity.
  - inversion Hw as [|? ? Ha Hw']; subst. inversion Hw'; subst. exists 3, 0, 1.
    change (Base64.encode [a; b]) with
      [Base64.enc_char (Z.shiftr a 2);
       Base64.enc_char (Z.lor (Z.shiftl (Z.land a 3) 4) (Z.shiftr b 4));
       Base64.enc_char (Z.shiftl (Z.land b 15) 2); Base64.pad_char].
    rewrite decode_tail_2 by assumption. reflexivity.
  - inversion Hw as [|? ? Ha Hw1]; subst. inversion Hw1 as [|? ? Hb Hw2]; subst.
    inversion Hw2 as [|? ? Hc Hw3]; subst.
    change (Base64.encode (a :: b :: c :: rest)) with
      ([Base64.enc_char (Z.shiftr a 2);
        Base64.enc_char (Z.lor (Z.shiftl (Z.land a 3) 4) (Z.shiftr b 4));
        Base64.enc_char (Z.lor (Z.shiftl (Z.land b 15) 2) (Z.shiftr c 6));
        Base64.enc_char (Z.land c 63)] ++ Base64.encode rest).
    rewrite fold_left_app, decode_group by assumption.
    destruct (IH Hw3 (c :: b :: a :: out)) as (q & l & p & E).
    exists q, l, p. rewrite E. f_equal.
    cbn [rev]. rewrite <- !app_assoc. reflexivity.
Qed.

Theorem base64_decode_encode bs : wf bs -> Base64.decode (Base64.encode bs) = Some bs.
Proof.
  intros Hw. unfold Base64.decode.
  destruct (decode_encode_state bs Hw []) as (q & l & p & E). rewrite E.
  cbn [Base64.finished Base64.quad_pos Base64.out_rev].
  rewrite app_nil_r, rev_involutive.
  destruct (q =? 0); reflexivity.
Qed.

Lemma encode_ascii bs : wf bs -> Forall (fun c => 0 <= c < 128) (Base64.encode bs).
Proof.
  assert (P : 0 <= Base64.pad_char < 128) by (unfold Base64.pad_char; lia).
  induction bs as [|a|a b|a b c rest IH] using list_ind3; intros Hw.
  - constructor.
  - inversion Hw as [|? ? Ha _]; subst.
    destruct (byte_parts a Ha) as ((A1 & A2 & A3) & _ & _).
    assert (Z0 : 0 <= 0 < 16) by lia.
    destruct (join_parts 4 _ _ (join_4 _ _ A2 Z0)) as (J1 & _). rewrite Z.lor_0_r in J1.
    cbn [Base64.encode]. repeat (constructor; [first [exact P | apply sextet_facts; assumption]|]).
    constructor.
  - inversion Hw as [|? ? Ha Hw']; subst. inversion Hw' as [|? ? Hb _]; subst.
    destruct (byte_parts a Ha) as ((A1 & A2 & A3) & _ & _).
    destruct (byte_parts b Hb) as (_ & (B1 & B2 & B3) & _).
    destruct (join_parts 4 _ _ (join_4 _ _ A2 B1)) as (J1 & _).
    assert (Z0 : 0 <= 0 < 4) by lia.
    destruct (join_parts 2 _ _ (join_2 _ _ B2 Z0)) as (K1 & _). rewrite Z.lor_0_r in K1.
    cbn [Base64.encode]. repeat (constructor; [first [exact P | apply sextet_facts; assumption]|]).
    constructor.
  - inversion Hw as [|? ? Ha Hw1]; subst. inversion Hw1 as [|? ? Hb Hw2]; subst.
    inversion Hw2 as [|? ? Hc Hw3]; subst.
    destruct (byte_parts a Ha) as ((A1 & A2 & A3) & _ & _).
    destruct (byte_parts b Hb) as (_ & (B1 & B2 & B3) & _).
    destruct (byte_parts c Hc) as (_ & _ & (C1 & C2 & C3)).
    destruct (join_parts 4 _ _ (join_4 _ _ A2 B1)) as (J1 & _).
    destruct (join_parts 2 _ _ (join_2 _ _ B2 C1)) as (K1 & _).
    change (Base64.encode (a :: b :: c :: rest)) with
      (Base64.enc_char (Z.shiftr a 2)
       :: Base64.enc_char (Z.lor (Z.shiftl (Z.land a 3) 4) (Z.shiftr b 4))
       :: Base64.enc_char (Z.lor (Z.shiftl (Z.land b 15) 2) (Z.shiftr c 6))
       :: Base64.enc_char (Z.land c 63) :: Base64.encode rest).
    repeat (constructor; [apply sextet_facts; assumption|]).
    apply IH. exact Hw3.
Qed.

(** ** Keys *)

Lemma fernet_new_encoded k : wf k -> List.length k = 32%nat ->
  Fernet.new (Base64.encode k) = Ok (Fernet.Make (firstn 16 k) (skipn 16 k)).
Proof.
  intros W L. unfold Fernet.new.
  rewrite (base64_decode_encode k W), L. reflexivity.
Qed.

Lemma halves_block16 k : wf k -> List.length k = 32%nat ->
  block16 (firstn 16 k) /\ block16 (skipn 16 k).
Proof.
  intros W L. split; split.
  - rewrite length_firstn, L. reflexivity.
  - apply Forall_firstn_keep, W.
  - rewrite length_skipn, L. reflexivity.
  - apply Forall_skipn_keep, W.
Qed.

(** The key that a password gives is always one that [Fernet] accepts. *)
Lemma derive_key_accepted password :
  exists f, Fernet.new (Database._derive_key password) = Ok f
            /\ block16 (Fernet.signing_key f) /\ block16 (Fernet.encryption_key f).
Proof.
  unfold Database._derive_key.
  destruct (derive_32 (Utf8.str_encode password) Database.salt 100000) as [L W].
  eexists. split; [apply fernet_new_encoded; assumption|].
  apply halves_block16; assumption.
Qed.

Lemma init_ok existing password :
  exists f,
    Fernet.new (Database._derive_key password) = Ok f
    /\ block16 (Fernet.signing_key f) /\ block16 (Fernet.encryption_key f)
    /\ Database.__init__ existing password
       = Ok (Database.Make (Database._derive_key password) f (Sqlite.connect existing)).
Proof.
  destruct (derive_key_accepted password) as (f & E & B1 & B2).
  exists f. repeat split; try assumption; try apply B1; try apply B2.
  unfold Database.__init__. rewrite E. reflexivity.
Qed.

(** A listing fails only where the decryption of one of its rows fails. *)
Lemma map_result_raise {A B : Type} (f : A -> result B) xs e :
  map_result f xs = Raise e -> exists x, In x xs /\ f x = Raise e.
Proof.
  induction xs as [|x xs IH]; cbn [map_result]; intros H; [discriminate|].
  destruct (f x) as [y|e1] eqn:Fx; cbn [bind] in H.
  - destruct (map_result f xs) as [ys|e2]; cbn [bind] in H; [discriminate|].
    destruct (IH H) as (x' & I & E). exists x'. split; [right; exact I|exact E].
  - exists x. split; [left; reflexivity|]. rewrite Fx. congruence.
Qed.

Lemma map_result_raises {A B : Type} (f : A -> result B) xs x e :
  In x xs -> f x = Raise e -> exists e', map_result f xs = Raise e'.
Proof.
  induction xs as [|y xs IH]; intros I E; [destruct I|].
  cbn [map_result]. destruct (f y) as [z|e1] eqn:Fy; cbn [bind]; [|eauto].
  destruct I as [->|I]; [congruence|].
  destruct (IH I E) as (e' & ->). cbn [bind]. eauto.
Qed.

(** ** The key of a vault *)

(** C9: the key is a function of the password alone.  Two vaults opened
    with the same password, over whatever files, hold the same key bytes
    and the same pair of signing and encryption keys; the key is the
    base64 text, 44 bytes long, of the 32 bytes that PBKDF2 gives for the
    password and the fixed salt. *)
Theorem derive_key_deterministic existing1 existing2 password :
  exists db1 db2,
    Database.__init__ existing1 password = Ok db1
    /\ Database.__init__ existing2 password = Ok db2
    /\ Database.key db1 = Database.key db2
    /\ Database.fernet db1 = Database.fernet db2
    /\ Database.key db1
       = Base64.encode (Pbkdf2.derive (Utf8.str_encode password)
                                      (of_string "dr_claude_salt") 100000 32)
    /\ Base64.decode (Database.key db1)
       = Some (Pbkdf2.derive (Utf8.str_encode password) (of_string "dr_claude_salt") 100000 32).
Proof.
  destruct (init_ok existing1 password) as (f1 & Hf1 & _ & _ & Hi1).
  destruct (init_ok existing2 password) as (f2 & Hf2 & _ & _ & Hi2).
  assert (f1 = f2) as <- by congruence.
  eexists. eexists. split; [exact Hi1|]. split; [exact Hi2|].
  cbn [Database.key Database.fernet].
  repeat split.
  unfold Database._derive_key, Database.salt.
  apply base64_decode_encode.
  apply (derive_32 (Utf8.str_encode password) (of_string "dr_claude_salt") 100000).
Qed.

(** ** Cipher block chaining *)

Lemma xor_bytes_block a b : block16 a -> block16 b -> block16 (xor_bytes a b).
Proof.
  intros [La Wa] [Lb Wb]. split.
  - rewrite xor_bytes_length; lia.
  - apply xor_bytes_wf; assumption.
Qed.

Lemma cbc_encrypt_blocks key blocks : block16 key -> forall prev,
  block16 prev -> Forall block16 blocks -> Forall block16 (Cbc.encrypt key prev blocks).
Proof.
  intros Hk. induction blocks as [|b rest IH]; intros prev Hp Hb; cbn [Cbc.encrypt].
  - constructor.
  - inversion Hb as [|? ? Hb1 Hb2]; subst.
    assert (Hc : block16 (Aes.encrypt_block key (xor_bytes b prev)))
      by (apply encrypt_block_block; [assumption | apply xor_bytes_block; assumption]).
    constructor; [exact Hc | apply IH; assumption].
Qed.

Lemma cbc_decrypt_encrypt key blocks : block16 key -> forall prev,
  block16 prev -> Forall block16 blocks ->
  Cbc.decrypt key prev (Cbc.encrypt key prev blocks) = blocks.
Proof.
  intros Hk. induction blocks as [|b rest IH]; intros prev Hp Hb; cbn [Cbc.encrypt Cbc.decrypt].
  - reflexivity.
  - inversion Hb as [|? ? Hb1 Hb2]; subst.
    assert (Hx : block16 (xor_bytes b prev)) by (apply xor_bytes_block; assumption).
    rewrite decrypt_encrypt_block by assumption.
    rewrite xor_bytes_cancel by (destruct Hb1, Hp; lia).
    f_equal. apply IH; [|assumption].
    apply encrypt_block_block; assumption.
Qed.

(** ** Cutting into blocks *)

Lemma firstn_block {A : Type} n (b r : list A) : List.length b = n -> firstn n (b ++ r) = b.
Proof.
  intros <-. rewrite firstn_app, Nat.sub_diag, firstn_O, app_nil_r. apply firstn_all.
Qed.

Lemma skipn_block {A : Type} n (b r : list A) : List.length b = n -> skipn n (b ++ r) = r.
Proof.
  intros <-. rewrite skipn_app, Nat.sub_diag, skipn_O, skipn_all. reflexivity.
Qed.

Lemma pieces_concat {A : Type} k (bl : list (list A)) : forall fuel,
  Forall (fun b => List.length b = S k) bl -> (List.length bl <= fuel)%nat ->
  pieces (S k) fuel (List.concat bl) = bl.
Proof.
  induction bl as [|b rest IH]; intros fuel Hb Hf.
  - destruct fuel; reflexivity.
  - inversion Hb as [|? ? Hb1 Hb2]; subst.
    destruct fuel as [|fuel]; [simpl in Hf; lia|].
    cbn [List.concat pieces].
    destruct (b ++ List.concat rest) as [|x l] eqn:E.
    + destruct b; [discriminate Hb1 | discriminate E].
    + rewrite <- E.
      rewrite (firstn_block _ _ _ Hb1), (skipn_block _ _ _ Hb1).
      f_equal. apply IH; [assumption | simpl in Hf; lia].
Qed.

Lemma concat_block_length {A : Type} k (bl : list (list A)) :
  Forall (fun b => List.length b = k) bl ->
  List.length (List.concat bl) = (List.length bl * k)%nat.
Proof.
  induction 1 as [|b rest Hb _ IH]; [reflexivity|].
  cbn [List.concat List.length]. rewrite length_app, IH, Hb. lia.
Qed.

Lemma chunks_concat {A : Type} k (bl : list (list A)) :
  Forall (fun b => List.length b = S k) bl -> chunks (S k) (List.concat bl) = bl.
Proof.
  intros H. unfold chunks. apply pieces_concat; [exact H|].
  rewrite (concat_block_length (S k) bl H). nia.
Qed.

Lemma concat_pieces {A : Type} k : forall fuel (l : list A),
  (List.length l <= fuel)%nat -> List.concat (pieces (S k) fuel l) = l.
Proof.
  induction fuel as [|fuel IH]; intros l Hl.
  - destruct l; [reflexivity | simpl in Hl; lia].
  - cbn [pieces]. destruct l as [|x l]; [reflexivity|].
    cbn [List.concat]. rewrite IH.
    + apply firstn_skipn.
    + rewrite length_skipn. simpl in Hl |- *. lia.
Qed.

Lemma concat_chunks {A : Type} k (l : list A) : List.concat (chunks (S k) l) = l.
Proof. apply concat_pieces. lia. Qed.

Lemma pieces_lengths {A : Type} k : forall fuel (l : list A) n,
  List.length l = (n * S k)%nat -> (List.length l <= fuel)%nat ->
  Forall (fun b => List.length b = S k) (pieces (S k) fuel l).
Proof.
  induction fuel as [|fuel IH]; intros l n Hn Hl; [constructor|].
  cbn [pieces]. destruct l as [|x l]; [constructor|].
  destruct n as [|n]; [discriminate Hn|].
  constructor.
  - rewrite length_firstn. lia.
  - apply (IH _ n).
    + rewrite length_skipn. lia.
    + rewrite length_skipn. simpl in Hl |- *. lia.
Qed.

Lemma pieces_wf k : forall fuel l, wf l -> Forall wf (pieces k fuel l).
Proof.
  induction fuel as [|fuel IH]; intros l W; [constructor|].
  cbn [pieces]. destruct l as [|x l]; [constructor|].
  constructor; [apply Forall_firstn_keep, W | apply IH, Forall_skipn_keep, W].
Qed.

Lemma chunks_blocks l n : wf l -> List.length l = (n * 16)%nat -> Forall block16 (chunks 16 l).
Proof.
  intros W L. unfold chunks.
  pose proof (pieces_lengths 15 (List.length l) l n L (Nat.le_refl _)) as H1.
  pose proof (pieces_wf 16 (List.length l) l W) as H2.
  revert H1 H2. generalize (pieces 16 (List.length l) l). intros bl H1 H2.
  induction H1 as [|b rest Hb _ IH]; [constructor|].
  inversion H2; subst. constructor; [split; assumption | apply IH; assumption].
Qed.

(** ** Padding *)

Lemma pad_amount n : (1 <= 16 - Nat.modulo n 16 <= 16)%nat
  /\ Nat.modulo (n + (16 - Nat.modulo n 16)) 16 = 0%nat.
Proof.
  pose proof (Nat.mod_upper_bound n 16 ltac:(lia)) as B.
  split; [lia|].
  pose proof (Nat.div_mod_eq n 16) as D.
  replace (n + (16 - Nat.modulo n 16))%nat with ((Nat.div n 16 + 1) * 16)%nat by lia.
  apply Nat.Div0.mod_mul.
Qed.

Lemma pad_length data :
  exists n, List.length (Pkcs7.pad data) = (n * 16)%nat /\ (1 <= n)%nat.
Proof.
  unfold Pkcs7.pad, Pkcs7.block_len. rewrite length_app, repeat_length.
  destruct (pad_amount (List.length data)) as [B M].
  apply Nat.Div0.div_exact in M.
  exists (Nat.div (List.length data + (16 - Nat.modulo (List.length data) 16)) 16).
  split; [lia|]. lia.
Qed.

Lemma pad_wf data : wf data -> wf (Pkcs7.pad data).
Proof.
  intros W. unfold Pkcs7.pad, Pkcs7.block_len. apply Forall_app. split; [exact W|].
  destruct (pad_amount (List.length data)) as [B _].
  apply Forall_forall. intros x Hx. apply repeat_spec in Hx. subst x.
  unfold is_byte. lia.
Qed.

Lemma forallb_repeat (v : Z) n : forallb (Z.eqb v) (repeat v n) = true.
Proof. induction n as [|n IH]; [reflexivity|]. cbn [repeat forallb]. rewrite Z.eqb_refl. exact IH. Qed.

Lemma last_repeat (v : Z) n d l : last (l ++ repeat v (S n)) d = v.
Proof.
  replace (repeat v (S n)) with (repeat v n ++ [v]).
  - rewrite app_assoc. apply last_last.
  - clear. induction n as [|n IH]; [reflexivity|].
    cbn [repeat app] in *. f_equal. exact IH.
Qed.

Lemma unpad_pad data : Pkcs7.unpad (Pkcs7.pad data) = Some data.
Proof.
  destruct (pad_amount (List.length data)) as [B M].
  unfold Pkcs7.unpad, Pkcs7.pad, Pkcs7.block_len.
  set (n := (16 - Nat.modulo (List.length data) 16)%nat) in *.
  rewrite length_app, repeat_length.
  destruct (Nat.eqb_spec (List.length data + n) 0) as [E|_]; [lia|].
  rewrite M. cbn [Nat.eqb negb orb].
  destruct n as [|m] eqn:En; [lia|].
  rewrite last_repeat.
  destruct (Z.leb_spec 1 (Z.of_nat (S m))) as [_|]; [|lia].
  destruct (Z.leb_spec (Z.of_nat (S m)) (Z.of_nat 16)) as [_|]; [|lia].
  rewrite Nat2Z.id.
  replace (List.length data + S m - S m)%nat with (List.length data) by lia.
  rewrite skipn_app, Nat.sub_diag, skipn_all, skipn_O. cbn [app].
  rewrite forallb_repeat. cbn [andb].
  rewrite firstn_app, Nat.sub_diag, firstn_O, app_nil_r, firstn_all. reflexivity.
Qed.

(** ** Tokens *)

Lemma bytes_eqb_refl xs : Fernet.bytes_eqb xs xs = true.
Proof.
  unfold Fernet.bytes_eqb. rewrite Nat.eqb_refl. cbn [andb].
  induction xs as [|x xs IH]; [reflexivity|].
  cbn [combine forallb fst snd]. rewrite Z.eqb_refl. exact IH.
Qed.

Lemma ciphertext_blocks key iv data :
  block16 key -> block16 iv -> wf data ->
  Forall block16 (chunks 16 (Pkcs7.pad data))
  /\ Forall block16 (Cbc.encrypt key iv (chunks 16 (Pkcs7.pad data))).
Proof.
  intros Hk Hi W.
  destruct (pad_length data) as (n & L & _).
  assert (B : Forall block16 (chunks 16 (Pkcs7.pad data)))
    by (apply (chunks_blocks _ n); [apply pad_wf, W | exact L]).
  split; [exact B | apply cbc_encrypt_blocks; assumption].
Qed.

Lemma blocks_lengths bl : Forall block16 bl -> Forall (fun b : bytes => List.length b = 16%nat) bl.
Proof. apply Forall_impl. intros b [L _]. exact L. Qed.

Lemma blocks_wf bl : Forall block16 bl -> wf (List.concat bl).
Proof.
  induction 1 as [|b rest [_ W] _ IH]; [constructor|].
  cbn [List.concat]. apply Forall_app. split; assumption.
Qed.

(** The token, cut at the places where [decrypt] cuts it. *)
Lemma token_parts (hdr iv ct tag : bytes) :
  List.length hdr = 9%nat -> List.length iv = 16%nat -> List.length tag = 32%nat ->
  let data := (hdr ++ iv ++ ct) ++ tag in
  Fernet.drop_last 32 data = hdr ++ iv ++ ct
  /\ Fernet.take_last 32 data = tag
  /\ Fernet.slice 9 25 data = iv
  /\ Fernet.slice 25 (List.length data - 32) data = ct
  /\ (List.length data <? 9)%nat = false.
Proof.
  intros Lh Li Lt data.
  assert (Ld : List.length data = (25 + List.length ct + 32)%nat)
    by (unfold data; rewrite !length_app; lia).
  unfold Fernet.drop_last, Fernet.take_last, Fernet.slice. rewrite Ld.
  assert (Lp : List.length (hdr ++ iv ++ ct) = (25 + List.length ct + 32 - 32)%nat)
    by (rewrite !length_app; lia).
  repeat split.
  - apply firstn_block. exact Lp.
  - apply skipn_block. exact Lp.
  - unfold data. rewrite <- !app_assoc. rewrite (skipn_block 9 hdr _ Lh).
    apply firstn_block. exact Li.
  - unfold data. rewrite <- app_assoc.
    replace (hdr ++ (iv ++ ct) ++ tag) with ((hdr ++ iv) ++ ct ++ tag)
      by (rewrite <- !app_assoc; reflexivity).
    rewrite (skipn_block 25 (hdr ++ iv)) by (rewrite length_app; lia).
    apply firstn_block. lia.
Qed.

Theorem fernet_decrypt_encrypt f data current_time iv :
  block16 (Fernet.encryption_key f) -> block16 iv -> wf data ->
  Fernet.decrypt f (Fernet.encrypt_from_parts f data current_time iv) = Ok data.
Proof.
  intros Hk Hi W.
  destruct (ciphertext_blocks _ _ _ Hk Hi W) as [Bp Bc].
  unfold Fernet.encrypt_from_parts, Fernet.basic_parts.
  set (ct := List.concat (Cbc.encrypt (Fernet.encryption_key f) iv (chunks 16 (Pkcs7.pad data)))).
  set (hdr := [128] ++ be_bytes 8 current_time).
  replace ([128] ++ be_bytes 8 current_time ++ iv ++ ct) with (hdr ++ iv ++ ct)
    by (unfold hdr; rewrite <- app_assoc; reflexivity).
  set (tag := Hmac.hmac (Fernet.signing_key f) (hdr ++ iv ++ ct)).
  assert (Lh : List.length hdr = 9%nat)
    by (unfold hdr; rewrite length_app, be_bytes_length; reflexivity).
  assert (Wh : wf hdr).
  { unfold hdr. apply Forall_app. split; [|apply be_bytes_wf].
    constructor; [unfold is_byte; lia | constructor]. }
  assert (Wc : wf ct) by (apply blocks_wf, Bc).
  assert (Lt : List.length tag = 32%nat) by apply hmac_length.
  assert (Wt : wf tag) by apply hmac_wf.
  destruct Hi as [Li Wi].
  destruct (token_parts hdr iv ct tag Lh Li Lt) as (D1 & D2 & D3 & D4 & D5).
  unfold Fernet.decrypt.
  assert (Wall : wf ((hdr ++ iv ++ ct) ++ tag)).
  { apply Forall_app. split; [|exact Wt]. apply Forall_app. split; [exact Wh|].
    apply Forall_app. split; [exact Wi | exact Wc]. }
  rewrite (base64_decode_encode _ Wall).
  rewrite D1, D2, D3, D4, D5.
  replace (nth 0 ((hdr ++ iv ++ ct) ++ tag) 0) with 128 by reflexivity.
  fold tag. rewrite bytes_eqb_refl, Li.
  change (negb (128 =? 128) || false) with false. cbv iota.
  change (negb true) with false. cbv iota.
  change (negb (16 =? 16)%nat) with false. cbv iota.
  assert (Lc : Nat.modulo (List.length ct) 16 = 0%nat).
  { unfold ct. rewrite (concat_block_length 16) by (apply blocks_lengths, Bc).
    apply Nat.Div0.mod_mul. }
  rewrite Lc. change (negb (0 =? 0)%nat) with false. cbv iota.
  unfold ct. rewrite (chunks_concat 15) by (apply blocks_lengths, Bc).
  rewrite cbc_decrypt_encrypt by (try assumption; split; assumption).
  rewrite (concat_chunks 15), unpad_pad. reflexivity.
Qed.

(** ** Text and bytes *)

Lemma of_string_wf s : wf (of_string s).
Proof.
  unfold of_string, wf. apply Forall_forall. intros b Hb.
  apply in_map_iff in Hb. destruct Hb as (c & <- & _).
  pose proof (N_ascii_bounded c). unfold is_byte. lia.
Qed.

Lemma to_of_string s : to_string (of_string s) = s.
Proof.
  unfold to_string, of_string. rewrite map_map.
  rewrite <- (string_of_list_ascii_of_string s) at 2. f_equal.
  rewrite <- (map_id (list_ascii_of_string s)) at 2.
  apply map_ext. intros c. rewrite N2Z.id. apply ascii_N_embedding.
Qed.

Lemma of_to_string bs : wf bs -> of_string (to_string bs) = bs.
Proof.
  intros W. unfold to_string, of_string.
  rewrite list_ascii_of_string_of_list_ascii, map_map.
  induction W as [|b bs Hb _ IH]; [reflexivity|].
  cbn [map]. rewrite IH. f_equal.
  rewrite N_ascii_embedding by (unfold is_byte in Hb; lia).
  apply Z2N.id. unfold is_byte in Hb. lia.
Qed.

Lemma ascii_valid bs : Forall (fun c => 0 <= c < 128) bs -> Utf8.valid bs = true.
Proof.
  unfold Utf8.valid. induction 1 as [|b bs Hb _ IH]; [reflexivity|].
  cbn [Utf8.code_points].
  destruct (Z.leb_spec 0 b); [|lia]. destruct (Z.ltb_spec b 128); [|lia].
  cbn [andb]. destruct (Utf8.code_points bs); [reflexivity | discriminate IH].
Qed.

(** ** The world *)

Lemma urandom_block w : block16 (fst (World.urandom 16 w)).
Proof.
  unfold World.urandom. cbn [fst]. split.
  - rewrite length_map, length_seq. reflexivity.
  - apply Forall_forall. intros b Hb. apply in_map_iff in Hb.
    destruct Hb as (i & <- & _). unfold is_byte. apply Z.mod_pos_bound. lia.
Qed.

(** ** [Database.encrypt] and [Database.decrypt] *)

Lemma token_ascii f data current_time iv :
  block16 (Fernet.encryption_key f) -> block16 iv -> wf data ->
  Forall (fun c => 0 <= c < 128) (Fernet.encrypt_from_parts f data current_time iv).
Proof.
  intros Hk Hi W. unfold Fernet.encrypt_from_parts, Fernet.basic_parts.
  apply encode_ascii.
  destruct (ciphertext_blocks _ _ _ Hk Hi W) as [_ Bc].
  apply Forall_app. split; [|apply hmac_wf].
  apply Forall_app. split; [constructor; [unfold is_byte; lia | constructor]|].
  apply Forall_app. split; [apply be_bytes_wf|].
  apply Forall_app. split; [apply Hi | apply blocks_wf, Bc].
Qed.

Lemma token_wf bs : Forall (fun c => 0 <= c < 128) bs -> wf bs.
Proof. apply Forall_impl. intros b Hb. unfold is_byte. lia. Qed.

(** What [db.encrypt(data)] returns and what it leaves of the world. *)
Lemma encrypt_decrypt db data w :
  block16 (Fernet.encryption_key (Database.fernet db)) ->
  Utf8.valid (Utf8.str_encode data) = true ->
  exists token,
    Database.encrypt db data w
    = Ok (token, snd (Fernet.encrypt (Database.fernet db) (Utf8.str_encode data) w))
    /\ Database.decrypt db token = Ok data.
Proof.
  intros Hk Hv. unfold Database.encrypt, Database.decrypt, Fernet.encrypt.
  destruct (World.time w) as [t w1].
  pose proof (urandom_block w1) as Hi.
  destruct (World.urandom 16 w1) as [iv w2]. cbn [fst snd] in *.
  pose proof (token_ascii (Database.fernet db) (Utf8.str_encode data) t iv Hk Hi
                          (of_string_wf data)) as Ha.
  unfold Utf8.bytes_decode at 1. rewrite (ascii_valid _ Ha). cbn [bind].
  eexists. split; [reflexivity|].
  unfold Utf8.str_encode at 1. rewrite of_to_string by (apply token_wf, Ha).
  rewrite fernet_decrypt_encrypt by (try assumption; apply of_string_wf).
  cbn [bind]. unfold Utf8.bytes_decode. rewrite Hv.
  unfold Utf8.str_encode. rewrite to_of_string. reflexivity.
Qed.

(** ** Encryption and decryption under one key *)

(** C4: for every password, the vault opened with it decrypts what it has
    encrypted: for every string of well-formed UTF-8 (every Python [str]
    that [encode] accepts), [encrypt] returns a token, whatever the clock
    and the random bytes, and [decrypt] of the token is the string. *)
Theorem decrypt_encrypt existing password s w :
  Utf8.valid (Utf8.str_encode s) = true ->
  exists db token w',
    Database.__init__ existing password = Ok db
    /\ Database.encrypt db s w = Ok (token, w')
    /\ Database.decrypt db token = Ok s.
Proof.
  intros Hv.
  destruct (init_ok existing password) as (f & _ & _ & Hk & Hi).
  destruct (encrypt_decrypt
              (Database.Make (Database._derive_key password) f (Sqlite.connect existing))
              s w Hk Hv) as (token & He & Hd).
  eexists. exists token. eexists. split; [exact Hi|]. split; [exact He | exact Hd].
Qed.

Lemma decrypt_encrypt_witness :
  Utf8.valid (Utf8.str_encode "Café at 9, then a long walk.") = true
  /\ exists db token w',
       Database.__init__ None "correct horse" = Ok db
       /\ Database.encrypt db "Café at 9, then a long walk." demo_world = Ok (token, w')
       /\ Database.decrypt db token = Ok "Café at 9, then a long walk."%string.
Proof.
  split; [reflexivity|].
  apply (decrypt_encrypt None "correct horse" "Café at 9, then a long walk." demo_world).
  reflexivity.
Defined.

(** ** The order of the journal *)

Lemma string_leb_trans a : forall b c,
  (a <=? b)%string = true -> (b <=? c)%string = true -> (a <=? c)%string = true.
Proof.
  unfold String.leb.
  induction a as [|x a IH]; intros [|y b] [|z c]; cbn [String.compare]; try easy.
  unfold Ascii.compare.
  destruct (N.compare_spec (N_of_ascii x) (N_of_ascii y)) as [E1|L1|G1];
    destruct (N.compare_spec (N_of_ascii y) (N_of_ascii z)) as [E2|L2|G2];
    destruct (N.compare_spec (N_of_ascii x) (N_of_ascii z)) as [E3|L3|G3];
    try lia; try easy.
  apply IH.
Qed.

Lemma sorted_newest_first {A : Type} (date : A -> string) l :
  Sorted (fun a b => (date b <=? date a)%string = true) l ->
  StronglySorted (fun a b => (date b <=? date a)%string = true) l.
Proof.
  apply Sorted_StronglySorted. intros a b c Hab Hbc.
  apply (string_leb_trans _ (date b)); assumption.
Qed.

Lemma strongly_sorted_map {A B : Type} (R : A -> A -> Prop) (S : B -> B -> Prop) (g : A -> B) l :
  (forall a b, R a b -> S (g a) (g b)) ->
  StronglySorted R l -> StronglySorted S (map g l).
Proof.
  intros H. induction 1 as [|a l Hl IH Ha]; cbn [map]; constructor; [exact IH|].
  apply Forall_forall. intros y Hy. apply in_map_iff in Hy. destruct Hy as (b & <- & Hb).
  apply H. rewrite Forall_forall in Ha. apply Ha, Hb.
Qed.

Lemma map_result_map {A B : Type} (f : A -> result B) (g : A -> B) xs :
  (forall x, In x xs -> f x = Ok (g x)) -> map_result f xs = Ok (map g xs).
Proof.
  induction xs as [|x xs IH]; intros H; cbn [map_result map]; [reflexivity|].
  rewrite (H x (or_introl eq_refl)). cbn [bind].
  rewrite IH by (intros y Hy; apply H; right; exact Hy). reflexivity.
Qed.

(** A listing of rows that can all be read. *)
Lemma get_journal_entries_readable db lo hi :
  Sqlite.closed (Database.connection db) = false ->
  (forall r, In r (journal_rows db) -> exists t, Database.decrypt db (Sqlite.je_entry r) = Ok t) ->
  Database.get_journal_entries db lo hi
  = Ok (map (entry_of db) (Sqlite.select_by_date Sqlite.je_date lo hi (journal_rows db))).
Proof.
  intros Hc Hr. unfold Database.get_journal_entries.
  rewrite query_open by exact Hc. cbn [bind].
  apply map_result_map. intros r Hr'.
  apply select_by_date_in in Hr'. destruct Hr' as [Hin _].
  destruct (Hr r Hin) as (t & Ht).
  unfold entry_of, text_of. rewrite Ht. reflexivity.
Qed.

Lemma select_all {A : Type} (date : A -> string) rows :
  Sqlite.select_by_date date None None rows = Sqlite.order_by_date_desc date rows.
Proof.
  unfold Sqlite.select_by_date. f_equal. apply filter_all. reflexivity.
Qed.

(** ** Adding entries *)

Lemma add_journal_entry_ok db text date w :
  block16 (Fernet.encryption_key (Database.fernet db)) ->
  Sqlite.closed (Database.connection db) = false ->
  Utf8.valid (Utf8.str_encode text) = true ->
  exists token w',
    Database.decrypt db token = Ok text
    /\ Database.add_journal_entry db text (Some date) w
       = Ok (Database.with_connection db
               (let s := Sqlite.current (Database.connection db) in
                let id := summary_id s in
                let s' := Sqlite.with_journal s
                            (Sqlite.journal_entries s ++ [Sqlite.JournalRow id date token 0]) id in
                Sqlite.Connection s' s' false),
             w').
Proof.
  intros Hk Hc Hv.
  destruct (encrypt_decrypt db text w Hk Hv) as (token & He & Hd).
  exists token. eexists. split; [exact Hd|].
  unfold Database.add_journal_entry, Database.date_or_now.
  rewrite He. cbn [bind].
  rewrite (execute_open (Sqlite.InsertJournal date token 0) (Database.connection db) _ Hc eq_refl).
  cbn [bind]. rewrite commit_open by reflexivity. reflexivity.
Qed.

Lemma decrypt_same_fernet db db' token :
  Database.fernet db' = Database.fernet db ->
  Database.decrypt db' token = Database.decrypt db token.
Proof. intros H. unfold Database.decrypt. rewrite H. reflexivity. Qed.

Lemma add_all_snoc entries p st :
  add_all (entries ++ [p]) st
  = let* (db, w) := add_all entries st in
    Database.add_journal_entry db (fst p) (Some (snd p)) w.
Proof. unfold add_all. rewrite fold_left_app. reflexivity. Qed.

Lemma add_all_rows db0 w : forall entries,
  block16 (Fernet.encryption_key (Database.fernet db0)) ->
  Sqlite.closed (Database.connection db0) = false ->
  journal_rows db0 = [] ->
  Forall (fun p => Utf8.valid (Utf8.str_encode (fst p)) = true) entries ->
  exists db w',
    add_all entries (db0, w) = Ok (db, w')
    /\ Database.fernet db = Database.fernet db0
    /\ Sqlite.closed (Database.connection db) = false
    /\ Forall2 (row_holds db) (journal_rows db) entries.
Proof.
  intros entries Hk Hc Hr.
  induction entries as [|p entries IH] using rev_ind; intros Hv.
  - exists db0, w. repeat split; try assumption. rewrite Hr. constructor.
  - apply Forall_app in Hv. destruct Hv as [Hv Hp]. inversion Hp as [|? ? Hp1 _]; subst.
    destruct (IH Hv) as (db & w' & Ha & Hf & Hc' & Hrows).
    rewrite <- Hf in Hk.
    destruct (add_journal_entry_ok db (fst p) (snd p) w' Hk Hc' Hp1) as (token & w2 & Hd & Hadd).
    rewrite add_all_snoc, Ha. cbn [bind]. rewrite Hadd.
    eexists. eexists. split; [reflexivity|].
    split; [exact Hf|]. split; [reflexivity|].
    unfold journal_rows. cbn [Database.with_connection Database.connection Sqlite.current
                                Sqlite.with_journal Sqlite.journal_entries].
    apply Forall2_app.
    + revert Hrows. apply Forall2_impl. intros r q [H1 H2]. split; [|exact H2].
      rewrite <- H1. apply decrypt_same_fernet. reflexivity.
    + constructor; [|constructor]. split; [|reflexivity].
      cbn [Sqlite.je_entry]. rewrite <- Hd. apply decrypt_same_fernet. reflexivity.
Qed.

Lemma rows_as_added db rows entries :
  Forall2 (row_holds db) rows entries ->
  map (fun r => as_added (entry_of db r)) rows = entries
  /\ forall r, In r rows -> exists t, Database.decrypt db (Sqlite.je_entry r) = Ok t.
Proof.
  induction 1 as [|r p rows entries [H1 H2] _ [IH1 IH2]]; [split; [reflexivity | intros r []]|].
  split.
  - cbn [map]. rewrite IH1. f_equal.
    unfold as_added, entry_of, text_of. cbn [Entry.entry Entry.date].
    rewrite H1, H2. cbn [or_else]. destruct p; reflexivity.
  - intros r' [<-|Hin]; [eauto | apply IH2, Hin].
Qed.

(** ** The listing of the journal *)

Lemma text_order_is_time_order stamps : Forall (fun d => Datetime.valid d = true) stamps ->
  StronglySorted (fun a b => (b <=? a)%string = true) (map Datetime.isoformat stamps) ->
  newest_first stamps.
Proof.
  unfold newest_first. induction 1 as [|d stamps Hd Hv IH]; intros Hs; [constructor|].
  cbn [map] in Hs. inversion Hs as [|? ? Hs' Hall]; subst.
  constructor; [apply IH, Hs'|].
  apply Forall_forall. intros x Hx. rewrite Forall_forall in Hall, Hv.
  rewrite <- isoformat_leb by (try assumption; apply Hv, Hx).
  apply Hall, in_map, Hx.
Qed.

(** C3, amended: whatever entries are added to a new vault, in whatever
    order, with timestamps as the program writes them -- [isoformat] of a
    datetime without time zone --, the listing without a date range returns
    them all, each with its text and its timestamp, the most recent first:
    the time of every entry is at least as late as that of every entry after
    it. *)
Theorem journal_newest_first password (entries : list (string * Datetime.t)) w :
  Forall (fun p => Utf8.valid (Utf8.str_encode (fst p)) = true
                   /\ Datetime.valid (snd p) = true) entries ->
  exists db0 db w' listed ordered,
    Database.__init__ None password = Ok db0
    /\ add_all (map stamped entries) (db0, w) = Ok (db, w')
    /\ Database.get_journal_entries db None None = Ok listed
    /\ Permutation ordered entries
    /\ map as_added listed = map stamped ordered
    /\ newest_first (map snd ordered).
Proof.
  intros Hv.
  assert (Hv1 : Forall (fun p => Utf8.valid (Utf8.str_encode (fst p)) = true)
                       (map stamped entries)).
  { apply Forall_map. revert Hv. apply Forall_impl. intros p [H _]. exact H. }
  destruct (init_ok None password) as (f & _ & _ & Hk & Hi).
  set (db0 := Database.Make (Database._derive_key password) f (Sqlite.connect None)) in *.
  destruct (add_all_rows db0 w (map stamped entries) Hk eq_refl eq_refl Hv1)
    as (db & w' & Ha & Hf & Hc & Hrows).
  destruct (rows_as_added db _ _ Hrows) as [Hm Hr].
  set (srows := Sqlite.order_by_date_desc Sqlite.je_date (journal_rows db)).
  assert (Hperm : Permutation (map as_added (map (entry_of db) srows)) (map stamped entries)).
  { rewrite map_map, <- Hm. apply Permutation_map, order_by_date_desc_perm. }
  destruct (Permutation_map_inv _ _ Hperm) as (ordered & Ho & Hp).
  exists db0, db, w', (map (entry_of db) srows), ordered.
  split; [exact Hi|]. split; [exact Ha|].
  split; [unfold srows; rewrite <- select_all; apply get_journal_entries_readable; assumption|].
  split; [apply Permutation_sym, Hp|]. split; [exact Ho|].
  apply text_order_is_time_order.
  - apply Forall_map. apply (Permutation_Forall Hp). revert Hv. apply Forall_impl.
    intros p [_ H]. exact H.
  - assert (Hd : map Datetime.isoformat (map snd ordered) = map Sqlite.je_date srows).
    { apply (f_equal (map snd)) in Ho. rewrite !map_map in Ho. rewrite map_map.
      cbn [as_added entry_of Entry.date snd stamped] in Ho. symmetry. exact Ho. }
    rewrite Hd.
    apply (strongly_sorted_map
             (fun a b => (Sqlite.je_date b <=? Sqlite.je_date a)%string = true)).
    + intros a b H. exact H.
    + apply sorted_newest_first, order_by_date_desc_sorted.
Qed.

Lemma journal_newest_first_witness :
  Forall (fun p => Utf8.valid (Utf8.str_encode (fst p)) = true
                   /\ Datetime.valid (snd p) = true)
         [("second"%string, Datetime.Make 2023 5 20 8 30 0 0);
          ("third"%string, Datetime.Make 2023 6 1 0 0 0 250000);
          ("first"%string, Datetime.Make 2023 5 3 10 0 0 0)]
  /\ exists db0 db w' listed ordered,
       Database.__init__ None "correct horse" = Ok db0
       /\ add_all [("second", "2023-05-20T08:30:00"); ("third", "2023-06-01T00:00:00.250000");
                   ("first", "2023-05-03T10:00:00")]%string (db0, demo_world) = Ok (db, w')
       /\ Database.get_journal_entries db None None = Ok listed
       /\ Permutation ordered
            [("second"%string, Datetime.Make 2023 5 20 8 30 0 0);
             ("third"%string, Datetime.Make 2023 6 1 0 0 0 250000);
             ("first"%string, Datetime.Make 2023 5 3 10 0 0 0)]
       /\ map as_added listed = map stamped ordered
       /\ newest_first (map snd ordered).
Proof.
  assert (Hv : Forall (fun p => Utf8.valid (Utf8.str_encode (fst p)) = true
                               /\ Datetime.valid (snd p) = true)
                      [("second"%string, Datetime.Make 2023 5 20 8 30 0 0);
                       ("third"%string, Datetime.Make 2023 6 1 0 0 0 250000);
                       ("first"%string, Datetime.Make 2023 5 3 10 0 0 0)])
    by (repeat constructor).
  split; [exact Hv|].
  exact (journal_newest_first "correct horse" _ demo_world Hv).
Defined.

(** C3 as stated fails for ISO-8601 timestamps with offsets from UTC: the
    entry written at one o'clock in the zone five hours ahead, which is
    eight o'clock in UTC, is listed before the entry written at noon in
    UTC, four hours after it. *)
Lemma offsets_listed_in_text_order :
  offset_entries
  = [("written at noon UTC", "2023-05-03T12:00:00+00:00");
     ("written at eight UTC", "2023-05-03T13:00:00+05:00")]%string
  /\ add_all offset_entries (demo_db, demo_world) = Ok offset_journal
  /\ Database.get_journal_entries (fst offset_journal) None None = Ok offset_listed
  /\ map as_added offset_listed
     = [("written at eight UTC", "2023-05-03T13:00:00+05:00");
        ("written at noon UTC", "2023-05-03T12:00:00+00:00")]%string
  /\ Datetime.to_utc one_pm 300 = Ok (Datetime.Make 2023 5 3 8 0 0 0)
  /\ Datetime.to_utc noon 0 = Ok noon
  /\ Datetime.ltb (Datetime.Make 2023 5 3 8 0 0 0) noon = true.
Proof.
  split; [reflexivity|]. split; [vm_compute; reflexivity|]. split; [vm_compute; reflexivity|].
  split; [reflexivity|]. split; [vm_compute; reflexivity|]. split; reflexivity.
Qed.

(** ** Tokens under another key *)












(** ** Opening a vault and reading it *)








(** ** Well-formed text under concatenation *)

Ltac code_points_step IH :=
  match goal with
  | H : option_map _ (Utf8.code_points ?r) = Some _ |- _ =>
      let cr := fresh "cr" in let E := fresh "E" in
      destruct (Utf8.code_points r) as [cr|] eqn:E; [|discriminate H];
      cbn [option_map] in H; injection H as <-;
      rewrite (IH r cr) by (try exact E; simpl in *; lia);
      reflexivity
  end.

Lemma code_points_app b cb : Utf8.code_points b = Some cb ->
  forall n a ca, (List.length a <= n)%nat -> Utf8.code_points a = Some ca ->
  Utf8.code_points (a ++ b) = Some (ca ++ cb).
Proof.
  intros Hb. induction n as [|n IH]; intros a ca L H.
  - destruct a; [|simpl in L; lia]. injection H as <-. exact Hb.
  - destruct a as [|b0 r0]; [injection H as <-; exact Hb|].
    cbn [app]. cbn [Utf8.code_points] in H |- *.
    destruct ((0 <=? b0) && (b0 <? 128)); [code_points_step IH|].
    destruct r0 as [|b1 r1]; [discriminate H|]. cbn [app].
    destruct ((194 <=? b0) && (b0 <=? 223)).
    { destruct (Utf8.cont b1); [code_points_step IH | discriminate H]. }
    destruct r1 as [|b2 r2]; [discriminate H|]. cbn [app].
    destruct ((224 <=? b0) && (b0 <=? 239)).
    { match type of H with (if ?c then _ else _) = _ => destruct c end;
        [code_points_step IH | discriminate H]. }
    destruct r2 as [|b3 r3]; [discriminate H|]. cbn [app].
    destruct ((240 <=? b0) && (b0 <=? 244)); [|discriminate H].
    match type of H with (if ?c then _ else _) = _ => destruct c end;
      [code_points_step IH | discriminate H].
Qed.

Lemma of_string_app a b : of_string (a ++ b) = of_string a ++ of_string b.
Proof.
  unfold of_string. rewrite <- map_app. f_equal.
  induction a as [|c a IH]; [reflexivity|]. cbn. rewrite IH. reflexivity.
Qed.

Lemma valid_text_app a b : valid_text a -> valid_text b -> valid_text (a ++ b).
Proof.
  unfold valid_text, Utf8.valid, Utf8.str_encode. intros Ha Hb.
  destruct (Utf8.code_points (of_string a)) as [ca|] eqn:Ea; [|discriminate Ha].
  destruct (Utf8.code_points (of_string b)) as [cb|] eqn:Eb; [|discriminate Hb].
  rewrite of_string_app, (code_points_app _ cb Eb _ _ ca (Nat.le_refl _) Ea). reflexivity.
Qed.

Ltac bool_facts :=
  repeat match goal with
         | H : _ && _ = true |- _ => apply andb_prop in H; destruct H
         | H : (_ <=? _) = true |- _ => apply Z.leb_le in H
         | H : (_ <? _) = true |- _ => apply Z.ltb_lt in H
         | H : Utf8.cont _ = true |- _ => unfold Utf8.cont in H
         end.

Ltac code_points_rest IH :=
  match goal with
  | H : option_map _ (Utf8.code_points ?r) = Some _ |- _ =>
      let cr := fresh "cr" in let E := fresh "E" in
      destruct (Utf8.code_points r) as [cr|] eqn:E; [|discriminate H];
      bool_facts;
      repeat (apply Forall_cons; [unfold is_byte; lia|]);
      apply (IH r cr); [simpl in *; lia | exact E]
  end.

(** Well-formed UTF-8 is made of bytes. *)
Lemma code_points_wf : forall n a ca,
  (List.length a <= n)%nat -> Utf8.code_points a = Some ca -> wf a.
Proof.
  induction n as [|n IH]; intros a ca L H.
  - destruct a; [constructor | simpl in L; lia].
  - destruct a as [|b0 r0]; [constructor|].
    cbn [Utf8.code_points] in H.
    destruct ((0 <=? b0) && (b0 <? 128)) eqn:C0; [code_points_rest IH|].
    destruct r0 as [|b1 r1]; [discriminate H|].
    destruct ((194 <=? b0) && (b0 <=? 223)) eqn:C1.
    { destruct (Utf8.cont b1) eqn:K1; [code_points_rest IH | discriminate H]. }
    destruct r1 as [|b2 r2]; [discriminate H|].
    destruct ((224 <=? b0) && (b0 <=? 239)) eqn:C2.
    { match type of H with (if ?c then _ else _) = _ => destruct c eqn:K2 end;
        [code_points_rest IH | discriminate H]. }
    destruct r2 as [|b3 r3]; [discriminate H|].
    destruct ((240 <=? b0) && (b0 <=? 244)) eqn:C3; [|discriminate H].
    match type of H with (if ?c then _ else _) = _ => destruct c eqn:K3 end;
      [code_points_rest IH | discriminate H].
Qed.

Lemma valid_wf data : Utf8.valid data = true -> wf data.
Proof.
  unfold Utf8.valid. destruct (Utf8.code_points data) as [cps|] eqn:E; [|discriminate].
  intros _. apply (code_points_wf _ _ cps (Nat.le_refl _) E).
Qed.

(** What [decrypt] returns is well-formed text. *)
Lemma decrypt_valid_text db token t : Database.decrypt db token = Ok t -> valid_text t.
Proof.
  unfold Database.decrypt. intros H. apply bind_ok in H. destruct H as (data & _ & H).
  unfold Utf8.bytes_decode in H. destruct (Utf8.valid data) eqn:V; [|discriminate H].
  injection H as <-. unfold valid_text, Utf8.str_encode.
  rewrite of_to_string by (apply valid_wf, V). exact V.
Qed.

Lemma ascii_text s :
  Forall (fun c => (N_of_ascii c < 128)%N) (list_ascii_of_string s) -> valid_text s.
Proof.
  intros H. unfold valid_text, Utf8.str_encode, of_string. apply ascii_valid.
  apply Forall_forall. intros b Hb. apply in_map_iff in Hb. destruct Hb as (c & <- & Hc).
  rewrite Forall_forall in H. specialize (H c Hc). lia.
Qed.

Lemma digit_text n s : valid_text s -> valid_text (String (Text.digit n) s).
Proof.
  intros H. apply (valid_text_app (String (Text.digit n) EmptyString) s); [|exact H].
  apply ascii_text. constructor; [|constructor].
  unfold Text.digit. rewrite N_ascii_embedding; pose proof (Z.mod_pos_bound n 10); lia.
Qed.

Lemma decimal_text n : valid_text (Text.decimal n).
Proof.
  unfold Text.decimal. generalize (S (Z.to_nat (Z.log2 n))). intros fuel.
  assert (H : valid_text EmptyString) by reflexivity. revert H.
  generalize EmptyString. revert n.
  induction fuel as [|fuel IH]; intros n acc H; cbn [Text.decimal_aux]; [exact H|].
  destruct (n <? 10); [apply digit_text, H | apply IH, digit_text, H].
Qed.

Lemma month_name_text m : valid_text (Datetime.month_name m).
Proof.
  unfold Datetime.month_name.
  generalize (Z.to_nat (m - 1)). intros n.
  do 12 (destruct n as [|n]; [reflexivity|]). destruct n; reflexivity.
Qed.

(** The summary of well-formed entries is well-formed. *)
Lemma condensed_text_valid target entries :
  Forall (fun e => valid_text (Entry.date e) /\ valid_text (Entry.entry e)) entries ->
  valid_text (Database.condensed_text_of target entries).
Proof.
  unfold Database.condensed_text_of.
  assert (H0 : valid_text
                 ("Condensed journal entries for " ++ Datetime.strftime_B_Y target ++ ":"
                  ++ Text.nl ++ Text.nl)%string).
  { unfold Datetime.strftime_B_Y.
    repeat apply valid_text_app; try reflexivity;
      first [apply month_name_text | apply decimal_text]. }
  revert H0. generalize ("Condensed journal entries for " ++ Datetime.strftime_B_Y target ++ ":"
                         ++ Text.nl ++ Text.nl)%string.
  intros acc H0 H. revert acc H0.
  induction H as [|e es [Hd He] _ IH]; intros acc H0; cbn [fold_left]; [exact H0|].
  apply IH. repeat apply valid_text_app; try reflexivity; assumption.
Qed.

(** ** Parts of a text *)

Lemma contains_app_r b a x : contains b a -> contains (b ++ x) a.
Proof.
  intros (p & q & ->). exists p, (q ++ x)%string.
  rewrite !string_app_assoc. reflexivity.
Qed.

Lemma contains_app_l b a x : contains b a -> contains (x ++ b) a.
Proof.
  intros (p & q & ->). exists (x ++ p)%string, q.
  rewrite !string_app_assoc. reflexivity.
Qed.

Lemma contains_self a : contains a a.
Proof. exists EmptyString, EmptyString. cbn. rewrite string_app_empty. reflexivity. Qed.

(** The summary contains the text of every entry that it is made of. *)
Lemma condensed_text_contains target entries e :
  In e entries -> contains (Database.condensed_text_of target entries) (Entry.entry e).
Proof.
  unfold Database.condensed_text_of.
  generalize ("Condensed journal entries for " ++ Datetime.strftime_B_Y target ++ ":"
              ++ Text.nl ++ Text.nl)%string.
  assert (K : forall es acc, contains acc (Entry.entry e) ->
              contains (fold_left
                          (fun text e0 => (text ++ "Date: " ++ Entry.date e0 ++ Text.nl
                                           ++ Entry.entry e0 ++ Text.nl ++ Text.nl)%string)
                          es acc) (Entry.entry e)).
  { induction es as [|x es IH]; intros acc H; cbn [fold_left]; [exact H|].
    apply IH. apply contains_app_r, H. }
  induction entries as [|x es IH]; intros acc Hin; [destruct Hin|].
  cbn [fold_left]. destruct Hin as [->|Hin]; [|apply IH, Hin].
  apply K. apply contains_app_l. do 3 apply contains_app_l.
  apply contains_app_r, contains_self.
Qed.

(** ** Condensing a month that holds the whole journal *)

Lemma zero_padded_text w : forall n, valid_text (Text.zero_padded w n).
Proof.
  induction w as [|w IH]; intros n; cbn [Text.zero_padded]; [reflexivity|].
  apply valid_text_app; [apply IH|]. apply digit_text. reflexivity.
Qed.

Lemma isoformat_text d : valid_text (Datetime.isoformat d).
Proof.
  unfold Datetime.isoformat.
  destruct (Datetime.microsecond d =? 0);
    repeat first [apply zero_padded_text | reflexivity | apply valid_text_app].
Qed.

Lemma filter_none {A : Type} (p : A -> bool) l :
  (forall x, In x l -> p x = false) -> filter p l = [].
Proof.
  induction l as [|x l IH]; intros H; cbn [filter]; [reflexivity|].
  rewrite (H x (or_introl eq_refl)). apply IH. intros y Hy. apply H. right. exact Hy.
Qed.

Lemma block16_check bs :
  (List.length bs =? 16)%nat && forallb (fun b => (0 <=? b) && (b <? 256)) bs = true ->
  block16 bs.
Proof.
  intros H. apply andb_prop in H. destruct H as [L W]. split.
  - apply Nat.eqb_eq, L.
  - apply Forall_forall. intros b Hb. rewrite forallb_forall in W. specialize (W b Hb).
    apply andb_prop in W. destruct W as [W1 W2]. unfold is_byte. lia.
Qed.

(** One call on a vault all of whose rows lie in the month and can be
    read: the journal is then the summary alone. *)
Lemma condense_whole_month db year month w :
  block16 (Fernet.encryption_key (Database.fernet db)) ->
  Sqlite.closed (Database.connection db) = false ->
  month_in_calendar year month ->
  journal_rows db <> [] ->
  Forall (fun r => in_month year month r = true) (journal_rows db) ->
  Forall (fun r => valid_text (Sqlite.je_date r)) (journal_rows db) ->
  (forall r, In r (journal_rows db) -> exists t, Database.decrypt db (Sqlite.je_entry r) = Ok t) ->
  exists listed enc db' w',
    Permutation listed (map (entry_of db) (journal_rows db))
    /\ Database.condense_journal_entries db month year w = Ok (db', w')
    /\ Database.fernet db' = Database.fernet db
    /\ Sqlite.closed (Database.connection db') = false
    /\ journal_rows db'
       = [Sqlite.JournalRow (summary_id (Sqlite.current (Database.connection db)))
                            (Datetime.isoformat (first_instant year month)) enc 1]
    /\ Sqlite.journal_seq (Sqlite.current (Database.connection db'))
       = summary_id (Sqlite.current (Database.connection db))
    /\ Database.decrypt db enc
       = Ok (Database.condensed_text_of (first_instant year month) listed).
Proof.
  intros Hk Hc Hm Hne Hin Hdates Hread.
  set (lo := Some (Datetime.isoformat (first_instant year month))).
  set (hi := Some (Datetime.isoformat (last_instant year month))).
  set (srows := Sqlite.select_by_date Sqlite.je_date lo hi (journal_rows db)).
  assert (Hperm : Permutation srows (journal_rows db)).
  { unfold srows. rewrite select_by_date_perm. rewrite filter_all; [reflexivity|].
    intros r Hr. unfold lo, hi. rewrite date_in_month.
    rewrite Forall_forall in Hin. apply Hin, Hr. }
  assert (Hget : Database.get_journal_entries db lo hi = Ok (map (entry_of db) srows))
    by (apply get_journal_entries_readable; assumption).
  assert (Hlisted : map (entry_of db) srows <> []).
  { intros E. apply map_eq_nil in E. rewrite E in Hperm.
    apply Permutation_nil in Hperm. contradiction. }
  assert (Hvalid : valid_text (Database.condensed_text_of (first_instant year month)
                                 (map (entry_of db) srows))).
  { apply condensed_text_valid. apply Forall_forall. intros e He.
    apply in_map_iff in He. destruct He as (r & <- & Hr).
    apply (Permutation_in _ Hperm) in Hr. cbn [entry_of Entry.date Entry.entry]. split.
    - rewrite Forall_forall in Hdates. apply Hdates, Hr.
    - destruct (Hread r Hr) as (t & Ht). unfold text_of. rewrite Ht. cbn [or_else].
      apply (decrypt_valid_text db _ _ Ht). }
  destruct (encrypt_decrypt db _ w Hk Hvalid) as (enc & He & Hd).
  exists (map (entry_of db) srows), enc. eexists. eexists.
  split; [apply Permutation_map, Hperm|].
  split; [apply (condense_run db month year w _ enc _ Hm Hget Hlisted He)|].
  split; [reflexivity|]. split; [reflexivity|]. split; [|split; [reflexivity | exact Hd]].
  unfold journal_rows at 1.
  cbn [Database.with_connection Database.connection condensed_connection Sqlite.current
       condensed_store Sqlite.with_journal Sqlite.journal_entries].
  fold (journal_rows db). fold (summary_id (Sqlite.current (Database.connection db))).
  rewrite filter_app, filter_none.
  - cbn [filter app Sqlite.je_id].
    destruct (existsb _ _) eqn:E; [|reflexivity].
    apply existsb_eqb_in in E. rewrite map_map in E. cbn [entry_of Entry.id] in E.
    apply (Permutation_in _ (Permutation_map Sqlite.je_id Hperm)) in E.
    exfalso. exact (summary_id_fresh _ E).
  - intros r Hr. apply negb_false_iff, existsb_eqb_in.
    rewrite map_map. cbn [entry_of Entry.id].
    apply in_map. apply (Permutation_in _ (Permutation_sym Hperm)), Hr.
Qed.

Lemma summary_id_single id d e f s :
  Sqlite.journal_entries s = [Sqlite.JournalRow id d e f] -> Sqlite.journal_seq s = id ->
  summary_id s = id + 1.
Proof.
  intros H1 H2. unfold summary_id, Sqlite.next_id. rewrite H1, H2.
  cbn [map fold_left Sqlite.je_id]. lia.
Qed.

Lemma forall2_in_right {A B : Type} (R : A -> B -> Prop) xs ys y :
  Forall2 R xs ys -> In y ys -> exists x, In x xs /\ R x y.
Proof.
  induction 1 as [|x y' xs ys Hxy _ IH]; intros Hin; [destruct Hin|].
  destruct Hin as [<-|Hin].
  - exists x. split; [left; reflexivity | exact Hxy].
  - destruct (IH Hin) as (x' & Hx' & Hr). exists x'. split; [right; exact Hx' | exact Hr].
Qed.

(** C1, amended: on a vault whose journal rows -- five, or any number but
    none -- all lie in the month, [condense_journal_entries] leaves exactly
    one row, marked as condensed, whose text contains the text of every
    original entry.  A second call for the same month does not leave that
    row alone: it condenses the summary again, and the journal then holds
    exactly one row again, marked as condensed, with the next id, whose
    text contains the whole text of the first summary. *)
Theorem condense_then_recondense db year month w texts :
  block16 (Fernet.encryption_key (Database.fernet db)) ->
  Sqlite.closed (Database.connection db) = false ->
  month_in_calendar year month ->
  journal_rows db <> [] ->
  Forall (fun r => in_month year month r = true) (journal_rows db) ->
  Forall (fun r => valid_text (Sqlite.je_date r)) (journal_rows db) ->
  Forall2 (fun r t => Database.decrypt db (Sqlite.je_entry r) = Ok t) (journal_rows db) texts ->
  exists db1 w1 summary1 text1 db2 w2 summary2 text2,
    Database.condense_journal_entries db month year w = Ok (db1, w1)
    /\ journal_rows db1 = [summary1]
    /\ Sqlite.je_is_condensed summary1 = 1
    /\ Database.decrypt db1 (Sqlite.je_entry summary1) = Ok text1
    /\ Forall (contains text1) texts
    /\ Database.condense_journal_entries db1 month year w1 = Ok (db2, w2)
    /\ journal_rows db2 = [summary2]
    /\ Sqlite.je_is_condensed summary2 = 1
    /\ Database.decrypt db2 (Sqlite.je_entry summary2) = Ok text2
    /\ contains text2 text1
    /\ Sqlite.je_id summary2 = Sqlite.je_id summary1 + 1.
Proof.
  intros Hk Hc Hm Hne Hin Hdates Htexts.
  assert (Hread : forall r, In r (journal_rows db) ->
                  exists t, Database.decrypt db (Sqlite.je_entry r) = Ok t).
  { clear - Htexts. induction Htexts as [|r t rows ts Hr _ IH]; intros r' Hr'; [destruct Hr'|].
    destruct Hr' as [<-|Hr']; [eauto | apply IH, Hr']. }
  destruct (condense_whole_month db year month w Hk Hc Hm Hne Hin Hdates Hread)
    as (listed & enc & db1 & w1 & Hperm & Hrun & Hf & Hc1 & Hrows & Hseq & Hdec).
  set (summary1 := Sqlite.JournalRow (summary_id (Sqlite.current (Database.connection db)))
                     (Datetime.isoformat (first_instant year month)) enc 1) in *.
  set (text1 := Database.condensed_text_of (first_instant year month) listed) in *.
  assert (Hdec1 : Database.decrypt db1 (Sqlite.je_entry summary1) = Ok text1).
  { rewrite <- Hdec. apply decrypt_same_fernet, Hf. }
  assert (Hk1 : block16 (Fernet.encryption_key (Database.fernet db1))) by (rewrite Hf; exact Hk).
  assert (Hne1 : journal_rows db1 <> []) by (rewrite Hrows; discriminate).
  assert (Hin1 : Forall (fun r => in_month year month r = true) (journal_rows db1)).
  { rewrite Hrows. constructor; [|constructor].
    rewrite <- date_in_month. apply month_start_in_range, Hm. }
  assert (Hdates1 : Forall (fun r => valid_text (Sqlite.je_date r)) (journal_rows db1)).
  { rewrite Hrows. constructor; [apply isoformat_text | constructor]. }
  assert (Hread1 : forall r, In r (journal_rows db1) ->
                   exists t, Database.decrypt db1 (Sqlite.je_entry r) = Ok t).
  { rewrite Hrows. intros r [<-|[]]. eauto. }
  destruct (condense_whole_month db1 year month w1 Hk1 Hc1 Hm Hne1 Hin1 Hdates1 Hread1)
    as (listed2 & enc2 & db2 & w2 & Hperm2 & Hrun2 & Hf2 & Hc2 & Hrows2 & Hseq2 & Hdec2).
  rewrite Hrows in Hperm2. cbn [map] in Hperm2.
  apply Permutation_sym, Permutation_length_1_inv in Hperm2. subst listed2.
  exists db1, w1, summary1, text1, db2, w2. eexists. eexists.
  split; [exact Hrun|]. split; [exact Hrows|]. split; [reflexivity|]. split; [exact Hdec1|].
  split.
  { apply Forall_forall. intros t Ht.
    destruct (forall2_in_right _ _ _ _ Htexts Ht) as (r & Hr & Hrt).
    assert (He : In (entry_of db r) listed)
      by (apply (Permutation_in _ (Permutation_sym Hperm)), in_map, Hr).
    pose proof (condensed_text_contains (first_instant year month) listed _ He) as Hcont.
    cbn [entry_of Entry.entry] in Hcont. unfold text_of in Hcont.
    rewrite Hrt in Hcont. exact Hcont. }
  split; [exact Hrun2|]. split; [exact Hrows2|]. split; [reflexivity|].
  split; [cbn [Sqlite.je_entry]; rewrite <- Hdec2; apply decrypt_same_fernet, Hf2|].
  split.
  { pose proof (condensed_text_contains (first_instant year month)
                  [entry_of db1 summary1] _ (or_introl eq_refl)) as Hcont.
    cbn [entry_of Entry.entry] in Hcont. unfold text_of in Hcont.
    rewrite Hdec1 in Hcont. exact Hcont. }
  cbn [Sqlite.je_id]. apply (summary_id_single _ _ _ _ _ Hrows Hseq).
Qed.

Lemma condense_then_recondense_witness :
  (block16 (Fernet.encryption_key (Database.fernet (fst may_journal)))
   /\ Sqlite.closed (Database.connection (fst may_journal)) = false
   /\ month_in_calendar 2023 5
   /\ List.length (journal_rows (fst may_journal)) = 5%nat
   /\ Forall (fun r => in_month 2023 5 r = true) (journal_rows (fst may_journal))
   /\ Forall (fun r => valid_text (Sqlite.je_date r)) (journal_rows (fst may_journal))
   /\ Forall2 (fun r t => Database.decrypt (fst may_journal) (Sqlite.je_entry r) = Ok t)
              (journal_rows (fst may_journal)) (map fst may_entries))
  /\ exists db1 w1 summary1 text1 db2 w2 summary2 text2,
       Database.condense_journal_entries (fst may_journal) 5 2023 (snd may_journal)
       = Ok (db1, w1)
       /\ journal_rows db1 = [summary1]
       /\ Sqlite.je_is_condensed summary1 = 1
       /\ Database.decrypt db1 (Sqlite.je_entry summary1) = Ok text1
       /\ Forall (contains text1) (map fst may_entries)
       /\ Database.condense_journal_entries db1 5 2023 w1 = Ok (db2, w2)
       /\ journal_rows db2 = [summary2]
       /\ Sqlite.je_is_condensed summary2 = 1
       /\ Database.decrypt db2 (Sqlite.je_entry summary2) = Ok text2
       /\ contains text2 text1
       /\ Sqlite.je_id summary2 = Sqlite.je_id summary1 + 1.
Proof.
  assert (Hk : block16 (Fernet.encryption_key (Database.fernet (fst may_journal))))
    by (apply block16_check; reflexivity).
  assert (Hm : month_in_calendar 2023 5).
  { unfold month_in_calendar. repeat split; try lia. discriminate. }
  assert (Hin : Forall (fun r => in_month 2023 5 r = true) (journal_rows (fst may_journal)))
    by (repeat constructor).
  assert (Hd : Forall (fun r => valid_text (Sqlite.je_date r)) (journal_rows (fst may_journal)))
    by (repeat constructor).
  assert (Ht : Forall2 (fun r t => Database.decrypt (fst may_journal) (Sqlite.je_entry r) = Ok t)
                       (journal_rows (fst may_journal)) (map fst may_entries)).
  { repeat (constructor; [vm_compute; reflexivity|]). constructor. }
  split.
  - split; [exact Hk|]. split; [reflexivity|]. split; [exact Hm|]. split; [reflexivity|].
    split; [exact Hin|]. split; [exact Hd | exact Ht].
  - refine (condense_then_recondense (fst may_journal) 2023 5 (snd may_journal)
              (map fst may_entries) Hk eq_refl Hm _ Hin Hd Ht).
    discriminate.
Defined.

(** C1 as stated fails in its second half: on the five entries of May 2023
    the first call leaves the summary as row 6, and the second call deletes
    that row and writes row 7, a summary of the summary. *)
Lemma second_call_condenses_summary :
  List.length (journal_rows (fst may_journal)) = 5%nat
  /\ forallb (in_month 2023 5) (journal_rows (fst may_journal)) = true
  /\ Database.condense_journal_entries (fst may_journal) 5 2023 (snd may_journal)
     = Ok may_condensed
  /\ Database.condense_journal_entries (fst may_condensed) 5 2023 (snd may_condensed)
     = Ok may_recondensed
  /\ map Sqlite.je_id (journal_rows (fst may_condensed)) = [6]
  /\ map Sqlite.je_id (journal_rows (fst may_recondensed)) = [7]
  /\ journal_rows (fst may_recondensed) <> journal_rows (fst may_condensed).
Proof.
  split; [reflexivity|]. split; [reflexivity|].
  split; [vm_compute; reflexivity|]. split; [vm_compute; reflexivity|].
  split; [reflexivity|]. split; [reflexivity|].
  intros H. apply (f_equal (map Sqlite.je_id)) in H. discriminate H.
Qed.

(** ** UTF-8: encoding what was decoded *)

Lemma encode_cp_1 b : 0 <= b < 128 -> Utf8.encode_cp b = [b].
Proof. intros H. unfold Utf8.encode_cp. destruct (Z.ltb_spec b 128); [reflexivity | lia]. Qed.

Lemma encode_cp_2 b0 b1 : 194 <= b0 <= 223 -> 128 <= b1 <= 191 ->
  Utf8.encode_cp ((b0 - 192) * 64 + (b1 - 128)) = [b0; b1].
Proof.
  intros H0 H1. unfold Utf8.encode_cp.
  destruct (Z.ltb_spec ((b0 - 192) * 64 + (b1 - 128)) 128); [lia|].
  destruct (Z.ltb_spec ((b0 - 192) * 64 + (b1 - 128)) 2048); [|lia].
  f_equal; [|f_equal]; Z.div_mod_to_equations; lia.
Qed.

Lemma encode_cp_3 b0 b1 b2 : 224 <= b0 <= 239 -> 128 <= b1 <= 191 -> 128 <= b2 <= 191 ->
  2048 <= (b0 - 224) * 4096 + (b1 - 128) * 64 + (b2 - 128) ->
  Utf8.encode_cp ((b0 - 224) * 4096 + (b1 - 128) * 64 + (b2 - 128)) = [b0; b1; b2].
Proof.
  intros H0 H1 H2 H. unfold Utf8.encode_cp.
  set (cp := (b0 - 224) * 4096 + (b1 - 128) * 64 + (b2 - 128)) in *.
  destruct (Z.ltb_spec cp 128); [lia|].
  destruct (Z.ltb_spec cp 2048); [lia|].
  destruct (Z.ltb_spec cp 65536); [|unfold cp in *; lia].
  unfold cp. f_equal; [|f_equal; [|f_equal]]; Z.div_mod_to_equations; lia.
Qed.

Lemma encode_cp_4 b0 b1 b2 b3 :
  240 <= b0 <= 244 -> 128 <= b1 <= 191 -> 128 <= b2 <= 191 -> 128 <= b3 <= 191 ->
  65536 <= (b0 - 240) * 262144 + (b1 - 128) * 4096 + (b2 - 128) * 64 + (b3 - 128) ->
  Utf8.encode_cp ((b0 - 240) * 262144 + (b1 - 128) * 4096 + (b2 - 128) * 64 + (b3 - 128))
  = [b0; b1; b2; b3].
Proof.
  intros H0 H1 H2 H3 H. unfold Utf8.encode_cp.
  set (cp := (b0 - 240) * 262144 + (b1 - 128) * 4096 + (b2 - 128) * 64 + (b3 - 128)) in *.
  destruct (Z.ltb_spec cp 128); [lia|].
  destruct (Z.ltb_spec cp 2048); [lia|].
  destruct (Z.ltb_spec cp 65536); [lia|].
  unfold cp. f_equal; [|f_equal; [|f_equal; [|f_equal]]]; Z.div_mod_to_equations; lia.
Qed.

Ltac code_points_again IH :=
  match goal with
  | H : option_map _ (Utf8.code_points ?r) = Some _ |- _ =>
      let cr := fresh "cr" in let E := fresh "E" in
      destruct (Utf8.code_points r) as [cr|] eqn:E; [|discriminate H];
      cbn [option_map] in H; injection H as <-;
      destruct (IH r cr) as [IH1 IH2]; [simpl in *; lia | exact E |];
      bool_facts
  end.

(** The code points of a well-formed text are scalar values, and their
    encodings, put together, are the text. *)
Lemma code_points_encode : forall n a ca,
  (List.length a <= n)%nat -> Utf8.code_points a = Some ca ->
  flat_map Utf8.encode_cp ca = a /\ Forall scalar ca.
Proof.
  induction n as [|n IH]; intros a ca L H.
  - destruct a; [|simpl in L; lia]. injection H as <-. split; constructor.
  - destruct a as [|b0 r0]; [injection H as <-; split; constructor|].
    cbn [Utf8.code_points] in H.
    destruct ((0 <=? b0) && (b0 <? 128)) eqn:C0.
    { code_points_again IH. cbn [flat_map]. rewrite encode_cp_1, IH1 by lia.
      split; [reflexivity|]. constructor; [unfold scalar; lia | exact IH2]. }
    destruct r0 as [|b1 r1]; [discriminate H|].
    destruct ((194 <=? b0) && (b0 <=? 223)) eqn:C1.
    { destruct (Utf8.cont b1) eqn:K1; [|discriminate H].
      code_points_again IH. cbn [flat_map]. rewrite encode_cp_2, IH1 by lia.
      split; [reflexivity|]. constructor; [unfold scalar; lia | exact IH2]. }
    destruct r1 as [|b2 r2]; [discriminate H|].
    destruct ((224 <=? b0) && (b0 <=? 239)) eqn:C2.
    { match type of H with (if ?c then _ else _) = _ => destruct c eqn:K2 end;
        [|discriminate H].
      code_points_again IH.
      match goal with Hn : negb _ = true |- _ => apply negb_true_iff in Hn; rename Hn into Hs end.
      cbn [flat_map]. rewrite encode_cp_3, IH1 by lia.
      split; [reflexivity|]. constructor; [|exact IH2].
      unfold scalar. split; [lia|]. intros Hsur.
      destruct (Z.leb_spec 55296 ((b0 - 224) * 4096 + (b1 - 128) * 64 + (b2 - 128)));
        destruct (Z.leb_spec ((b0 - 224) * 4096 + (b1 - 128) * 64 + (b2 - 128)) 57343);
        cbn [andb] in Hs; try discriminate Hs; lia. }
    destruct r2 as [|b3 r3]; [discriminate H|].
    destruct ((240 <=? b0) && (b0 <=? 244)) eqn:C3; [|discriminate H].
    match type of H with (if ?c then _ else _) = _ => destruct c eqn:K3 end;
      [|discriminate H].
    code_points_again IH. cbn [flat_map]. rewrite encode_cp_4, IH1 by lia.
    split; [reflexivity|]. constructor; [unfold scalar; lia | exact IH2].
Qed.

Lemma chars_of_valid s : valid_text s ->
  flat_map Utf8.encode_cp (Json.chars_of s) = of_string s /\ Forall scalar (Json.chars_of s).
Proof.
  unfold valid_text, Utf8.valid, Utf8.str_encode, Json.chars_of.
  destruct (Utf8.code_points (of_string s)) as [cps|] eqn:E; [|discriminate].
  intros _. apply (code_points_encode _ _ _ (Nat.le_refl _) E).
Qed.

(** ** Reading a string that [json.dumps] has written *)

Lemma hexval_hexchar d : 0 <= d < 16 -> Json.hexval (Json.hexchar d) = Some d.
Proof.
  intros H. unfold Json.hexchar, Json.hexval.
  destruct (Z.ltb_spec d 10).
  - destruct (Z.leb_spec 48 (48 + d)); [|lia]. destruct (Z.leb_spec (48 + d) 57); [|lia].
    cbn [andb]. f_equal. lia.
  - destruct (Z.leb_spec 48 (87 + d)); [|lia]. destruct (Z.leb_spec (87 + d) 57); [lia|].
    destruct (Z.leb_spec 97 (87 + d)); [|lia]. destruct (Z.leb_spec (87 + d) 102); [|lia].
    cbn [andb]. f_equal. lia.
Qed.

Lemma decode_u_escape n r : 0 <= n < 65536 ->
  Json.u_escape n = 92 :: 117 :: skipn 2 (Json.u_escape n)
  /\ Json.decode_uXXXX (skipn 2 (Json.u_escape n) ++ r) = Some (n, r).
Proof.
  intros H. split; [reflexivity|].
  unfold Json.u_escape. cbn [skipn app Json.decode_uXXXX].
  rewrite !hexval_hexchar by (apply Z.mod_pos_bound; lia).
  f_equal. f_equal. Z.div_mod_to_equations. lia.
Qed.

(** One step of the scanner over the text of one character. *)
Lemma scanstring_char cp fuel s acc : scalar cp ->
  Json.scanstring (S fuel) (Json.escape_cp cp ++ s) acc
  = Json.scanstring fuel s (acc ++ Utf8.encode_cp cp).
Proof.
  intros [Hr Hs]. unfold Json.escape_cp.
  destruct (Z.eqb_spec cp 34) as [->|N34]; [reflexivity|].
  destruct (Z.eqb_spec cp 92) as [->|N92]; [reflexivity|].
  destruct (Z.eqb_spec cp 10) as [->|N10]; [reflexivity|].
  destruct (Z.eqb_spec cp 13) as [->|N13]; [reflexivity|].
  destruct (Z.eqb_spec cp 9) as [->|N9]; [reflexivity|].
  destruct (Z.eqb_spec cp 8) as [->|N8]; [reflexivity|].
  destruct (Z.eqb_spec cp 12) as [->|N12]; [reflexivity|].
  destruct ((32 <=? cp) && (cp <=? 126)) eqn:Hp.
  { apply andb_prop in Hp. destruct Hp as [H1 H2]. apply Z.leb_le in H1, H2.
    cbn [app Json.scanstring].
    destruct (Z.eqb_spec cp 34); [contradiction|].
    destruct (Z.eqb_spec cp 92); [contradiction|].
    destruct (Z.ltb_spec cp 32); [lia|].
    rewrite encode_cp_1 by lia. reflexivity. }
  destruct (Z.ltb_spec cp 65536) as [Hlt|Hge].
  - destruct (decode_u_escape cp s ltac:(lia)) as [E1 E2].
    rewrite E1. cbn [app Json.scanstring].
    change (92 =? 34) with false. change (92 =? 92) with true. change (117 =? 117) with true.
    cbv iota. rewrite E2.
    destruct (Z.leb_spec 55296 cp); destruct (Z.leb_spec cp 56319); cbn [andb];
      try reflexivity. exfalso. apply Hs. lia.
  - set (v := cp - 65536).
    assert (Hv : 0 <= v < 1048576) by (unfold v; lia).
    assert (Hhi : 55296 <= 55296 + v / 1024 <= 56319) by (Z.div_mod_to_equations; lia).
    assert (Hlo : 56320 <= 56320 + v mod 1024 <= 57343) by (Z.div_mod_to_equations; lia).
    destruct (decode_u_escape (55296 + v / 1024)
                (Json.u_escape (56320 + v mod 1024) ++ s) ltac:(lia)) as [E1 E2].
    destruct (decode_u_escape (56320 + v mod 1024) s ltac:(lia)) as [F1 F2].
    rewrite <- app_assoc. rewrite E1. cbn [app Json.scanstring].
    change (92 =? 34) with false. change (92 =? 92) with true. change (117 =? 117) with true.
    cbv iota. rewrite E2.
    destruct (Z.leb_spec 55296 (55296 + v / 1024)); [|lia].
    destruct (Z.leb_spec (55296 + v / 1024) 56319); [|lia].
    cbn [andb]. rewrite F1. cbn [app].
    change (92 =? 92) with true. change (117 =? 117) with true. cbn [andb].
    rewrite F2.
    destruct (Z.leb_spec 56320 (56320 + v mod 1024)); [|lia].
    destruct (Z.leb_spec (56320 + v mod 1024) 57343); [|lia].
    cbn [andb]. do 2 f_equal. f_equal.
    unfold v. Z.div_mod_to_equations. lia.
Qed.

Lemma scanstring_escaped cps : forall fuel acc rest,
  Forall scalar cps -> (List.length cps < fuel)%nat ->
  Json.scanstring fuel (flat_map Json.escape_cp cps ++ 34 :: rest) acc
  = Some (acc ++ flat_map Utf8.encode_cp cps, rest).
Proof.
  induction cps as [|cp cps IH]; intros fuel acc rest Hs Hf.
  - destruct fuel as [|fuel]; [simpl in Hf; lia|]. cbn. rewrite app_nil_r. reflexivity.
  - inversion Hs as [|? ? H1 H2]; subst.
    destruct fuel as [|fuel]; [simpl in Hf; lia|].
    cbn [flat_map]. rewrite <- app_assoc, scanstring_char by exact H1.
    rewrite IH by (try assumption; simpl in Hf; lia).
    rewrite <- app_assoc. reflexivity.
Qed.

Lemma escape_cp_length cp : (1 <= List.length (Json.escape_cp cp))%nat.
Proof.
  unfold Json.escape_cp.
  repeat match goal with |- context [if ?c then _ else _] => destruct c end;
    try rewrite length_app; cbn; lia.
Qed.

Lemma escaped_length cps : (List.length cps <= List.length (flat_map Json.escape_cp cps))%nat.
Proof.
  induction cps as [|cp cps IH]; [reflexivity|].
  cbn [flat_map List.length]. rewrite length_app.
  pose proof (escape_cp_length cp). lia.
Qed.

(** The text of a string, read back from after its opening quote. *)
Lemma scan_encoded_string s rest : valid_text s ->
  exists body,
    Json.encode_basestring_ascii s = 34 :: body ++ [34]
    /\ Json.scanstring (List.length (body ++ 34 :: rest)) (body ++ 34 :: rest) []
       = Some (of_string s, rest).
Proof.
  intros Hv. destruct (chars_of_valid s Hv) as [He Hs].
  exists (flat_map Json.escape_cp (Json.chars_of s)). split; [reflexivity|].
  rewrite scanstring_escaped; [cbn [app]; rewrite He; reflexivity | exact Hs |].
  rewrite length_app. cbn [List.length]. pose proof (escaped_length (Json.chars_of s)). lia.
Qed.

(** ** Reading a number that [json.dumps] has written *)

Lemma digit_byte n c : c = Text.digit n ->
  Z.of_N (N_of_ascii c) = 48 + n mod 10.
Proof.
  intros ->. unfold Text.digit. pose proof (Z.mod_pos_bound n 10 ltac:(lia)).
  rewrite N_ascii_embedding by lia. lia.
Qed.

Lemma of_string_cons c s : of_string (String c s) = Z.of_N (N_of_ascii c) :: of_string s.
Proof. reflexivity. Qed.

Lemma int_of_digits_snoc D d :
  Json.int_of_digits (D ++ [d]) = Json.int_of_digits D * 10 + (d - 48).
Proof. unfold Json.int_of_digits. rewrite fold_left_app. reflexivity. Qed.

Lemma is_digit_mod n : Json.is_digit (48 + n mod 10) = true.
Proof.
  pose proof (Z.mod_pos_bound n 10 ltac:(lia)). unfold Json.is_digit.
  apply andb_true_intro. split; [apply Z.leb_le | apply Z.leb_le]; lia.
Qed.

(** The decimal digits of a number: no zero in front, and the number is
    their value. *)
Lemma decimal_digits : forall fuel n acc,
  0 <= n < 2 ^ Z.of_nat fuel -> (1 <= fuel)%nat ->
  exists d D,
    of_string (Text.decimal_aux fuel n acc) = d :: D ++ of_string acc
    /\ Forall (fun c => Json.is_digit c = true) (d :: D)
    /\ Json.int_of_digits (d :: D) = n
    /\ (d = 48 -> n = 0 /\ D = []).
Proof.
  induction fuel as [|fuel IH]; intros n acc Hn Hf; [lia|].
  cbn [Text.decimal_aux].
  destruct (Z.ltb_spec n 10) as [Hlt|Hge].
  - exists (48 + n mod 10), []. rewrite of_string_cons, (digit_byte n _ eq_refl).
    split; [reflexivity|]. split; [constructor; [apply is_digit_mod | constructor]|].
    rewrite Z.mod_small by lia.
    split; [unfold Json.int_of_digits; cbn [fold_left]; lia|]. intros H. split; [lia | reflexivity].
  - assert (Hk : (1 <= fuel)%nat).
    { destruct fuel; [|lia]. change (2 ^ Z.of_nat 1) with 2 in Hn. lia. }
    assert (Hp : 2 ^ Z.of_nat (S fuel) = 2 * 2 ^ Z.of_nat fuel)
      by (rewrite Nat2Z.inj_succ, Z.pow_succ_r by lia; reflexivity).
    assert (Hq : 0 <= n / 10 < 2 ^ Z.of_nat fuel) by (Z.div_mod_to_equations; lia).
    destruct (IH (n / 10) (String (Text.digit n) acc) Hq Hk) as (d & D & E & Hd & Hv & Hz).
    exists d, (D ++ [48 + n mod 10]).
    rewrite E, of_string_cons, (digit_byte n _ eq_refl), <- app_assoc.
    split; [reflexivity|]. split.
    + change (d :: D ++ [48 + n mod 10]) with ((d :: D) ++ [48 + n mod 10]).
      apply Forall_app. split; [exact Hd|]. constructor; [apply is_digit_mod | constructor].
    + split.
      * change (d :: D ++ [48 + n mod 10]) with ((d :: D) ++ [48 + n mod 10]).
        rewrite int_of_digits_snoc, Hv. Z.div_mod_to_equations. lia.
      * intros H. destruct (Hz H) as [Hz1 _]. exfalso. Z.div_mod_to_equations. lia.
Qed.

Lemma decimal_bytes n : 0 <= n ->
  exists d D,
    of_string (Text.decimal n) = d :: D
    /\ Forall (fun c => Json.is_digit c = true) (d :: D)
    /\ Json.int_of_digits (d :: D) = n
    /\ (d = 48 -> n = 0 /\ D = []).
Proof.
  intros Hn. unfold Text.decimal.
  assert (Hb : 0 <= n < 2 ^ Z.of_nat (S (Z.to_nat (Z.log2 n)))).
  { rewrite Nat2Z.inj_succ, Z2Nat.id by apply Z.log2_nonneg.
    destruct (Z.eq_dec n 0) as [->|Hz]; [cbn; lia|].
    pose proof (Z.log2_spec n ltac:(lia)). lia. }
  destruct (decimal_digits _ n EmptyString Hb ltac:(lia)) as (d & D & E & H).
  exists d, D. rewrite E. cbn [of_string list_ascii_of_string map]. rewrite app_nil_r.
  split; [reflexivity | exact H].
Qed.

Lemma take_digits_run D rest :
  Forall (fun c => Json.is_digit c = true) D ->
  match rest with [] => True | c :: _ => Json.is_digit c = false end ->
  Json.take_digits (D ++ rest) = (D, rest).
Proof.
  intros HD Hr. induction HD as [|c D Hc _ IH]; cbn [app Json.take_digits].
  - destruct rest as [|c r]; [reflexivity|]. cbn [Json.take_digits]. rewrite Hr. reflexivity.
  - rewrite Hc, IH. reflexivity.
Qed.

(** What follows a value is no part of a number. *)
Lemma ends_value_number rest : ends_value rest = true ->
  match rest with [] => True | c :: _ => Json.is_digit c = false end
  /\ Json.take_frac rest = ([], rest) /\ Json.take_exp rest = ([], rest).
Proof.
  destruct rest as [|c r]; [repeat split|]. cbn [ends_value]. intros H.
  assert (Hc : c = 44 \/ c = 93 \/ c = 125).
  { apply orb_prop in H. destruct H as [H|H]; [apply orb_prop in H; destruct H as [H|H]|];
      apply Z.eqb_eq in H; auto. }
  destruct Hc as [->|[->| ->]]; repeat split.
Qed.

Lemma scan_number_digits d D rest :
  Forall (fun c => Json.is_digit c = true) (d :: D) -> (d = 48 -> D = []) ->
  ends_value rest = true ->
  Json.scan_number (d :: D ++ rest) = Some (Json.PInt (Json.int_of_digits (d :: D)), rest)
  /\ Json.scan_number (45 :: d :: D ++ rest)
     = Some (Json.PInt (- Json.int_of_digits (d :: D)), rest).
Proof.
  intros HD Hz He. destruct (ends_value_number rest He) as (Hr & Hfrac & Hexp).
  inversion HD as [|? ? Hd HD']; subst.
  assert (Hd45 : (d =? 45) = false).
  { unfold Json.is_digit in Hd. apply andb_prop in Hd. destruct Hd as [H1 _].
    apply Z.leb_le in H1. apply Z.eqb_neq. lia. }
  unfold Json.scan_number.
  change (45 =? 45) with true. rewrite Hd45. cbv iota.
  destruct (Z.eqb_spec d 48) as [E|N].
  - rewrite (Hz E). cbn [app]. rewrite Hfrac, Hexp. split; reflexivity.
  - rewrite Hd, (take_digits_run D rest HD' Hr), Hfrac, Hexp. split; reflexivity.
Qed.

Lemma scan_number_int n rest : ends_value rest = true ->
  exists c r,
    of_string (Text.str_of_int n) = c :: r
    /\ (c = 45 \/ Json.is_digit c = true)
    /\ Json.scan_number (c :: r ++ rest) = Some (Json.PInt n, rest).
Proof.
  intros He. unfold Text.str_of_int.
  destruct (Z.ltb_spec n 0) as [Hneg|Hpos].
  - destruct (decimal_bytes (- n) ltac:(lia)) as (d & D & E & HD & Hv & Hz).
    exists 45, (d :: D). rewrite of_string_cons, E.
    split; [reflexivity|]. split; [left; reflexivity|].
    cbn [app]. rewrite (proj2 (scan_number_digits d D rest HD (fun H => proj2 (Hz H)) He)), Hv.
    do 3 f_equal. lia.
  - destruct (decimal_bytes n Hpos) as (d & D & E & HD & Hv & Hz).
    exists d, D. rewrite E. split; [reflexivity|].
    split; [right; inversion HD; assumption|].
    rewrite (proj1 (scan_number_digits d D rest HD (fun H => proj2 (Hz H)) He)), Hv.
    reflexivity.
Qed.

(** *** A number in front of something else *)

Lemma take_digits_more s rest : ends_value rest = true ->
  forall ds r, Json.take_digits s = (ds, r) -> Json.take_digits (s ++ rest) = (ds, r ++ rest).
Proof.
  intros He. destruct (ends_value_number rest He) as (Hr & _ & _).
  induction s as [|c s IH]; intros ds r H.
  - cbn in H. injection H as <- <-. apply (take_digits_run [] rest); [constructor | exact Hr].
  - cbn [app Json.take_digits] in H |- *. destruct (Json.is_digit c).
    + destruct (Json.take_digits s) as [ds' r'] eqn:E. injection H as <- <-.
      rewrite (IH ds' r' eq_refl). reflexivity.
    + injection H as <- <-. reflexivity.
Qed.

Lemma take_frac_more s rest : ends_value rest = true ->
  forall fr r, Json.take_frac s = (fr, r) -> Json.take_frac (s ++ rest) = (fr, r ++ rest).
Proof.
  intros He fr r H. destruct (ends_value_number rest He) as (_ & Hf & _).
  destruct s as [|c s]; [cbn in H; injection H as <- <-; exact Hf|].
  cbn [app Json.take_frac] in H |- *. destruct (c =? 46).
  - destruct (Json.take_digits s) as [ds r'] eqn:E.
    rewrite (take_digits_more s rest He ds r' E).
    destruct ds; injection H as <- <-; reflexivity.
  - injection H as <- <-. reflexivity.
Qed.

Lemma take_exp_more s rest : ends_value rest = true ->
  forall ex r, Json.take_exp s = (ex, r) -> Json.take_exp (s ++ rest) = (ex, r ++ rest).
Proof.
  intros He ex r H. destruct (ends_value_number rest He) as (Hd & _ & Hx).
  destruct s as [|c s]; [cbn in H; injection H as <- <-; exact Hx|].
  cbn [app Json.take_exp] in H |- *. destruct ((c =? 101) || (c =? 69)).
  - destruct s as [|g s1].
    + cbn in H. injection H as <- <-. cbn [app].
      destruct rest as [|g r']; [reflexivity|]. cbn [ends_value] in He.
      assert (Hg : g = 44 \/ g = 93 \/ g = 125).
      { apply orb_prop in He. destruct He as [He|He];
          [apply orb_prop in He; destruct He as [He|He]|]; apply Z.eqb_eq in He; auto. }
      destruct Hg as [->|[->| ->]]; reflexivity.
    + cbn [app] in H |- *.
      destruct ((g =? 43) || (g =? 45)).
      * destruct (Json.take_digits s1) as [ds r'] eqn:E.
        rewrite (take_digits_more s1 rest He ds r' E).
        destruct ds; injection H as <- <-; reflexivity.
      * destruct (Json.take_digits (g :: s1)) as [ds r'] eqn:E.
        change (g :: s1 ++ rest) with ((g :: s1) ++ rest).
        rewrite (take_digits_more (g :: s1) rest He ds r' E).
        destruct ds; injection H as <- <-; reflexivity.
  - injection H as <- <-. reflexivity.
Qed.

(** A number that is read from a text is read from the text with more
    after it, when what comes after may follow a value. *)
Lemma scan_number_more s rest v r : ends_value rest = true ->
  Json.scan_number s = Some (v, r) -> Json.scan_number (s ++ rest) = Some (v, r ++ rest).
Proof.
  intros He. unfold Json.scan_number.
  assert (Hint : forall s1 ds r1,
            match s1 with
            | d :: r0 =>
                if d =? 48 then Some ([d], r0)
                else if Json.is_digit d
                     then let (ds, r') := Json.take_digits r0 in Some (d :: ds, r')
                     else None
            | [] => None
            end = Some (ds, r1) ->
            match s1 ++ rest with
            | d :: r0 =>
                if d =? 48 then Some ([d], r0)
                else if Json.is_digit d
                     then let (ds, r') := Json.take_digits r0 in Some (d :: ds, r')
                     else None
            | [] => None
            end = Some (ds, r1 ++ rest)).
  { intros [|d r0] ds r1 H; [discriminate H|]. cbn [app].
    destruct (d =? 48); [injection H as <- <-; reflexivity|].
    destruct (Json.is_digit d); [|discriminate H].
    destruct (Json.take_digits r0) as [ds' r'] eqn:E.
    rewrite (take_digits_more r0 rest He ds' r' E). injection H as <- <-. reflexivity. }
  assert (Hrest : forall sign ds r1,
            (let (frac, r2) := Json.take_frac r1 in
             let (exp, r3) := Json.take_exp r2 in
             match frac, exp with
             | [], [] =>
                 Some (Json.PInt (match sign with
                                  | [] => Json.int_of_digits ds
                                  | _ :: _ => - Json.int_of_digits ds
                                  end), r3)
             | _, _ => Some (Json.PFloat (to_string (sign ++ ds ++ frac ++ exp)), r3)
             end) = Some (v, r) ->
            (let (frac, r2) := Json.take_frac (r1 ++ rest) in
             let (exp, r3) := Json.take_exp r2 in
             match frac, exp with
             | [], [] =>
                 Some (Json.PInt (match sign with
                                  | [] => Json.int_of_digits ds
                                  | _ :: _ => - Json.int_of_digits ds
                                  end), r3)
             | _, _ => Some (Json.PFloat (to_string (sign ++ ds ++ frac ++ exp)), r3)
             end) = Some (v, r ++ rest)).
  { intros sign ds r1 H.
    destruct (Json.take_frac r1) as [frac r2] eqn:Ef.
    rewrite (take_frac_more r1 rest He frac r2 Ef).
    destruct (Json.take_exp r2) as [exp r3] eqn:Ex.
    rewrite (take_exp_more r2 rest He exp r3 Ex).
    destruct frac, exp; injection H as <- <-; reflexivity. }
  destruct s as [|c s0]; [discriminate|]. cbn [app].
  destruct (c =? 45).
  - match goal with
    | |- match ?e with Some _ => _ | None => _ end = _ -> _ =>
        destruct e as [[ds r1]|] eqn:Ei; [|discriminate]
    end.
    rewrite (Hint s0 ds r1 Ei). intros H. exact (Hrest [c] ds r1 H).
  - match goal with
    | |- match ?e with Some _ => _ | None => _ end = _ -> _ =>
        destruct e as [[ds r1]|] eqn:Ei; [|discriminate]
    end.
    pose proof (Hint (c :: s0) ds r1 Ei) as Hi. cbn [app] in Hi.
    rewrite Hi. intros H. exact (Hrest [] ds r1 H).
Qed.

(** *** What a number is made of *)

Lemma take_digits_parts s : forall ds r, Json.take_digits s = (ds, r) ->
  s = ds ++ r /\ Forall (fun c => 0 <= c < 128) ds.
Proof.
  induction s as [|c s IH]; intros ds r H; cbn in H.
  - injection H as <- <-. split; [reflexivity | constructor].
  - destruct (Json.is_digit c) eqn:Hc.
    + destruct (Json.take_digits s) as [ds' r'] eqn:E. injection H as <- <-.
      destruct (IH ds' r' eq_refl) as [-> Hd]. split; [reflexivity|].
      constructor; [|exact Hd]. unfold Json.is_digit in Hc. apply andb_prop in Hc.
      destruct Hc as [H1 H2]. apply Z.leb_le in H1, H2. lia.
    + injection H as <- <-. split; [reflexivity | constructor].
Qed.

Lemma eqb_ascii c k : (c =? k) = true -> 0 <= k < 128 -> 0 <= c < 128.
Proof. intros H. apply Z.eqb_eq in H. subst. auto. Qed.

Lemma take_frac_parts s fr r : Json.take_frac s = (fr, r) ->
  s = fr ++ r /\ Forall (fun c => 0 <= c < 128) fr.
Proof.
  intros H. destruct s as [|c s]; cbn in H; [injection H as <- <-; split; [reflexivity | constructor]|].
  destruct (c =? 46) eqn:Hc.
  - destruct (Json.take_digits s) as [ds r'] eqn:E.
    destruct (take_digits_parts s ds r' E) as [-> Hd].
    destruct ds; injection H as <- <-; (split; [reflexivity|]); [constructor|].
    constructor; [apply (eqb_ascii c 46 Hc); lia | exact Hd].
  - injection H as <- <-. split; [reflexivity | constructor].
Qed.

Lemma take_exp_parts s ex r : Json.take_exp s = (ex, r) ->
  s = ex ++ r /\ Forall (fun c => 0 <= c < 128) ex.
Proof.
  intros H. destruct s as [|c s]; cbn [Json.take_exp] in H;
    [injection H as <- <-; split; [reflexivity | constructor]|].
  destruct ((c =? 101) || (c =? 69)) eqn:Hc.
  - assert (Hc' : 0 <= c < 128).
    { apply orb_prop in Hc. destruct Hc as [Hc|Hc]; apply Z.eqb_eq in Hc; lia. }
    destruct s as [|g s1].
    + cbn in H. injection H as <- <-. split; [reflexivity | constructor].
    + destruct ((g =? 43) || (g =? 45)) eqn:Hg.
      * assert (Hg' : 0 <= g < 128).
        { apply orb_prop in Hg. destruct Hg as [Hg|Hg]; apply Z.eqb_eq in Hg; lia. }
        destruct (Json.take_digits s1) as [ds r'] eqn:E.
        destruct (take_digits_parts s1 ds r' E) as [-> Hd].
        destruct ds; injection H as <- <-; (split; [reflexivity|]); [constructor|].
        constructor; [exact Hc'|]. constructor; [exact Hg' | exact Hd].
      * destruct (Json.take_digits (g :: s1)) as [ds r'] eqn:E.
        destruct (take_digits_parts (g :: s1) ds r' E) as [E' Hd].
        destruct ds; injection H as <- <-.
        -- split; [reflexivity | constructor].
        -- split; [cbn [app]; rewrite E'; reflexivity|].
           constructor; [exact Hc' | exact Hd].
  - injection H as <- <-. split; [reflexivity | constructor].
Qed.

(** A text that is a number to its end starts with a minus sign or a digit
    and is ASCII. *)
Lemma scan_number_whole s v : Json.scan_number s = Some (v, []) ->
  (exists c r, s = c :: r /\ (c = 45 \/ Json.is_digit c = true))
  /\ Forall (fun c => 0 <= c < 128) s.
Proof.
  unfold Json.scan_number. intros H.
  assert (Hint : forall s1 ds r1,
            match s1 with
            | d :: r0 =>
                if d =? 48 then Some ([d], r0)
                else if Json.is_digit d
                     then let (ds, r') := Json.take_digits r0 in Some (d :: ds, r')
                     else None
            | [] => None
            end = Some (ds, r1) ->
            s1 = ds ++ r1 /\ Forall (fun c => 0 <= c < 128) ds
            /\ exists d r0, s1 = d :: r0 /\ Json.is_digit d = true).
  { intros [|d r0] ds r1 Hi; [discriminate Hi|].
    destruct (d =? 48) eqn:Hd.
    - injection Hi as <- <-. apply Z.eqb_eq in Hd. subst d.
      split; [reflexivity|]. split; [constructor; [lia | constructor]|].
      exists 48, r0. split; reflexivity.
    - destruct (Json.is_digit d) eqn:Hdig; [|discriminate Hi].
      destruct (Json.take_digits r0) as [ds' r'] eqn:E. injection Hi as <- <-.
      destruct (take_digits_parts r0 ds' r' E) as [-> Hds].
      split; [reflexivity|]. split.
      + constructor; [|exact Hds]. unfold Json.is_digit in Hdig. apply andb_prop in Hdig.
        destruct Hdig as [H1 H2]. apply Z.leb_le in H1, H2. lia.
      + exists d, (ds' ++ r'). split; [reflexivity | exact Hdig]. }
  assert (Hrest : forall sign ds r1,
            (let (frac, r2) := Json.take_frac r1 in
             let (exp, r3) := Json.take_exp r2 in
             match frac, exp with
             | [], [] =>
                 Some (Json.PInt (match sign with
                                  | [] => Json.int_of_digits ds
                                  | _ :: _ => - Json.int_of_digits ds
                                  end), r3)
             | _, _ => Some (Json.PFloat (to_string (sign ++ ds ++ frac ++ exp)), r3)
             end) = Some (v, []) ->
            Forall (fun c => 0 <= c < 128) r1).
  { intros sign ds r1 Hr.
    destruct (Json.take_frac r1) as [frac r2] eqn:Ef.
    destruct (take_frac_parts r1 frac r2 Ef) as [-> Hf].
    destruct (Json.take_exp r2) as [exp r3] eqn:Ex.
    destruct (take_exp_parts r2 exp r3 Ex) as [-> Hx].
    assert (r3 = []) as -> by (destruct frac, exp; injection Hr as _ <-; reflexivity).
    rewrite app_nil_r. apply Forall_app. split; assumption. }
  destruct s as [|c s0]; [discriminate H|].
  destruct (c =? 45) eqn:Hc.
  - apply Z.eqb_eq in Hc. subst c.
    match type of H with
    | match ?e with Some _ => _ | None => _ end = _ =>
        destruct e as [[ds r1]|] eqn:Ei; [|discriminate H]
    end.
    destruct (Hint s0 ds r1 Ei) as (-> & Hds & _).
    split; [exists 45, (ds ++ r1); split; [reflexivity | left; reflexivity]|].
    constructor; [lia|]. apply Forall_app. split; [exact Hds | exact (Hrest [45] ds r1 H)].
  - match type of H with
    | match ?e with Some _ => _ | None => _ end = _ =>
        destruct e as [[ds r1]|] eqn:Ei; [|discriminate H]
    end.
    destruct (Hint (c :: s0) ds r1 Ei) as (E & Hds & d & r0 & E2 & Hd).
    injection E2 as <- <-.
    split; [exists c, s0; split; [reflexivity | right; exact Hd]|].
    rewrite E. apply Forall_app. split; [exact Hds | exact (Hrest [] ds r1 H)].
Qed.

(** ** Reading a value that [json.dumps] has written *)

Lemma encode_list items :
  Json.encode (Json.PList items) = 91 :: Json.join [44; 32] (map Json.encode items) ++ [93].
Proof. reflexivity. Qed.

Lemma encode_dict pairs :
  Json.encode (Json.PDict pairs) = 123 :: Json.join [44; 32] (map encode_pair pairs) ++ [125].
Proof. reflexivity. Qed.

Lemma cost_list items :
  cost (Json.PList items) = S (fold_right (fun x n => S (cost x + n)) O items).
Proof. reflexivity. Qed.

Lemma cost_dict pairs :
  cost (Json.PDict pairs) = S (fold_right (fun kv n => S (cost (snd kv) + n)) O pairs).
Proof.
  cbn [cost]. f_equal. induction pairs as [|[k x] pairs IH]; [reflexivity|].
  cbn [fold_right snd]. rewrite IH. reflexivity.
Qed.

Lemma json_data_list items :
  json_data (Json.PList items) = forallb json_data items.
Proof. reflexivity. Qed.

Lemma json_data_dict pairs :
  json_data (Json.PDict pairs)
  = forallb (fun kv => Utf8.valid (Utf8.str_encode (fst kv)) && json_data (snd kv)) pairs
    && distinct (map fst pairs).
Proof.
  cbn [json_data]. f_equal. induction pairs as [|[k x] pairs IH]; [reflexivity|].
  cbn [forallb fst snd]. rewrite IH. reflexivity.
Qed.

(** *** The first byte of a value *)

Lemma value_head_facts c : value_head c = true ->
  Json.is_ws c = false /\ (c =? 93) = false /\ (c =? 125) = false /\ (239 =? c) = false
  /\ 0 <= c < 128.
Proof.
  unfold value_head, Json.is_digit, Json.is_ws. intros H.
  assert (Hc : c = 34 \/ c = 123 \/ c = 91 \/ c = 110 \/ c = 116 \/ c = 102 \/ c = 73
               \/ c = 45 \/ 48 <= c <= 57).
  { repeat (apply orb_prop in H; destruct H as [H|H]);
      try (apply Z.eqb_eq in H; subst; tauto).
    apply andb_prop in H. destruct H as [H1 H2]. apply Z.leb_le in H1, H2. tauto. }
  repeat split; try lia;
    repeat match goal with
           | |- _ || _ = false => apply orb_false_intro
           | |- (_ =? _) = false => apply Z.eqb_neq; lia
           end.
Qed.

Lemma skip_ws_head c r : Json.is_ws c = false -> Json.skip_ws (c :: r) = c :: r.
Proof. intros H. cbn [Json.skip_ws]. rewrite H. reflexivity. Qed.

Lemma skip_ws_space r : Json.skip_ws (32 :: r) = Json.skip_ws r.
Proof. reflexivity. Qed.

Lemma float_text_cases l : float_text l = true ->
  Json.scan_number (of_string l) = Some (Json.PFloat l, [])
  \/ l = "Infinity"%string \/ l = "-Infinity"%string.
Proof.
  unfold float_text. intros H.
  apply orb_prop in H. destruct H as [H|H]; [apply orb_prop in H; destruct H as [H|H]|].
  - left. destruct (Json.scan_number (of_string l)) as [[[] [|]]|]; try discriminate H.
    apply String.eqb_eq in H. subst. reflexivity.
  - right. left. apply String.eqb_eq, H.
  - right. right. apply String.eqb_eq, H.
Qed.

Lemma number_head c : c = 45 \/ Json.is_digit c = true -> value_head c = true.
Proof.
  unfold value_head. intros [->|Hc]; [reflexivity|]. rewrite Hc, !orb_true_r. reflexivity.
Qed.

Lemma encode_head v : json_data v = true ->
  exists c r, Json.encode v = c :: r /\ value_head c = true.
Proof.
  destruct v as [|[|]|n|l|s|items|items|pairs]; intros H; try discriminate H.
  - exists 110, [117; 108; 108]. split; reflexivity.
  - exists 116, [114; 117; 101]. split; reflexivity.
  - exists 102, [97; 108; 115; 101]. split; reflexivity.
  - destruct (scan_number_int n [] eq_refl) as (c & r & E & Hc & _).
    exists c, r. split; [exact E | apply number_head, Hc].
  - destruct (float_text_cases l H) as [Hs|[->| ->]].
    + destruct (scan_number_whole _ _ Hs) as [(c & r & E & Hc) _].
      exists c, r. split; [exact E | apply number_head, Hc].
    + eexists. eexists. split; reflexivity.
    + eexists. eexists. split; reflexivity.
  - eexists. eexists. split; reflexivity.
  - eexists. eexists. split; [apply encode_list | reflexivity].
  - eexists. eexists. split; [apply encode_dict | reflexivity].
Qed.

Lemma join_head (p : bytes) ps c r : p = c :: r ->
  exists r', Json.join [44; 32] (p :: ps) = c :: r'.
Proof.
  intros ->. destruct ps as [|q ps]; cbn [Json.join]; eexists; reflexivity.
Qed.

(** *** Atoms *)

Lemma scan_literal_number c r res :
  c = 45 \/ Json.is_digit c = true ->
  Json.scan_number (c :: r) = Some res -> Json.scan_literal (c :: r) = Some res.
Proof.
  intros Hc Hs.
  assert (H : (110 =? c) = false /\ (116 =? c) = false /\ (102 =? c) = false).
  { destruct Hc as [->|Hc]; [repeat split|].
    unfold Json.is_digit in Hc. apply andb_prop in Hc. destruct Hc as [H1 H2].
    apply Z.leb_le in H1, H2. repeat split; apply Z.eqb_neq; lia. }
  destruct H as (H1 & H2 & H3).
  unfold Json.scan_literal. cbv zeta beta.
  change (of_string "null") with [110; 117; 108; 108].
  change (of_string "true") with [116; 114; 117; 101].
  change (of_string "false") with [102; 97; 108; 115; 101].
  cbn [Json.strip_prefix]. rewrite H1, H2, H3, Hs. reflexivity.
Qed.

Lemma scan_once_head fuel c r :
  (c =? 34) = false -> (c =? 123) = false -> (c =? 91) = false ->
  Json.scan_once (S fuel) (c :: r) = Json.scan_literal (c :: r).
Proof. intros H1 H2 H3. cbn [Json.scan_once]. rewrite H1, H2, H3. reflexivity. Qed.

Lemma scan_once_int n fuel rest : ends_value rest = true ->
  Json.scan_once (S fuel) (Json.encode (Json.PInt n) ++ rest) = Some (Json.PInt n, rest).
Proof.
  intros He. destruct (scan_number_int n rest He) as (c & r & E & Hc & Hs).
  change (Json.encode (Json.PInt n)) with (of_string (Text.str_of_int n)).
  rewrite E. cbn [app].
  rewrite scan_once_head, (scan_literal_number c (r ++ rest) _ Hc Hs); try reflexivity;
    destruct Hc as [->|Hc]; try reflexivity;
    unfold Json.is_digit in Hc; apply andb_prop in Hc; destruct Hc as [H1 H2];
    apply Z.leb_le in H1, H2; apply Z.eqb_neq; lia.
Qed.

Lemma digit_or_minus c : c = 45 \/ Json.is_digit c = true ->
  (c =? 34) = false /\ (c =? 123) = false /\ (c =? 91) = false.
Proof.
  intros [->|Hc]; [repeat split|].
  unfold Json.is_digit in Hc. apply andb_prop in Hc. destruct Hc as [H1 H2].
  apply Z.leb_le in H1, H2. repeat split; apply Z.eqb_neq; lia.
Qed.

Lemma scan_once_float l fuel rest : float_text l = true -> ends_value rest = true ->
  Json.scan_once (S fuel) (Json.encode (Json.PFloat l) ++ rest) = Some (Json.PFloat l, rest).
Proof.
  intros Hl He. change (Json.encode (Json.PFloat l)) with (of_string l).
  destruct (float_text_cases l Hl) as [Hs|[->| ->]]; [|reflexivity | reflexivity].
  destruct (scan_number_whole _ _ Hs) as [(c & r & E & Hc) _].
  pose proof (scan_number_more _ rest _ _ He Hs) as Hm. rewrite E in Hm |- *.
  cbn [app] in Hm |- *.
  destruct (digit_or_minus c Hc) as (H1 & H2 & H3).
  rewrite scan_once_head by assumption.
  apply scan_literal_number; assumption.
Qed.

Lemma scan_once_str s fuel rest : valid_text s ->
  Json.scan_once (S fuel) (Json.encode (Json.PStr s) ++ rest) = Some (Json.PStr s, rest).
Proof.
  intros Hv. destruct (scan_encoded_string s rest Hv) as (body & E & Hs).
  change (Json.encode (Json.PStr s)) with (Json.encode_basestring_ascii s).
  rewrite E. cbn [app]. rewrite <- app_assoc. cbn [app Json.scan_once].
  change (34 =? 34) with true. cbv iota. rewrite Hs, to_of_string. reflexivity.
Qed.

(** *** Lists and dictionaries *)

Lemma skip_ws_join v vs rest : json_data v = true ->
  Json.skip_ws (Json.join [44; 32] (map Json.encode (v :: vs)) ++ rest)
  = Json.join [44; 32] (map Json.encode (v :: vs)) ++ rest.
Proof.
  intros H. destruct (encode_head v H) as (c & r & E & Hc).
  cbn [map]. destruct (join_head _ (map Json.encode vs) c r E) as (r' & ->).
  cbn [app]. apply skip_ws_head. apply (value_head_facts c Hc).
Qed.

Lemma scan_array_items items : Forall reads_back items ->
  forallb json_data items = true -> items <> [] ->
  forall fuel acc rest,
    (fold_right (fun x n => S (cost x + n)) O items <= fuel)%nat ->
    Json.scan_array fuel (Json.join [44; 32] (map Json.encode items) ++ 93 :: rest) acc
    = Some (Json.PList (acc ++ items), rest).
Proof.
  induction 1 as [|v items Hv _ IH]; intros Hd Hne fuel acc rest Hf; [contradiction|].
  cbn [forallb] in Hd. apply andb_prop in Hd. destruct Hd as [Hdv Hd].
  cbn [fold_right] in Hf. destruct fuel as [|fuel]; [lia|].
  cbn [Json.scan_array].
  destruct items as [|v2 more].
  - cbn [map Json.join].
    rewrite (Hv Hdv fuel (93 :: rest)) by (try reflexivity; lia).
    rewrite skip_ws_head by reflexivity. change (93 =? 93) with true. reflexivity.
  - change (Json.join [44; 32] (map Json.encode (v :: v2 :: more)))
      with (Json.encode v ++ [44; 32] ++ Json.join [44; 32] (map Json.encode (v2 :: more))).
    rewrite <- !app_assoc. cbn [app].
    rewrite (Hv Hdv fuel) by (try reflexivity; lia).
    rewrite skip_ws_head by reflexivity.
    change (44 =? 93) with false. change (44 =? 44) with true. cbv iota.
    rewrite skip_ws_space.
    assert (Hd2 := Hd). cbn [forallb] in Hd2. apply andb_prop in Hd2.
    rewrite skip_ws_join by apply Hd2.
    rewrite IH by (try assumption; try discriminate; cbn [fold_right] in *; lia).
    rewrite <- app_assoc. reflexivity.
Qed.

Lemma skip_ws_pairs kv kvs rest :
  exists r, Json.join [44; 32] (map encode_pair (kv :: kvs)) ++ rest = 34 :: r.
Proof.
  destruct kv as [k x]. cbn [map].
  destruct (join_head (encode_pair (k, x)) (map encode_pair kvs) 34
              (flat_map Json.escape_cp (Json.chars_of k) ++ [34] ++ [58; 32] ++ Json.encode x))
    as (r' & E).
  - unfold encode_pair, Json.encode_basestring_ascii. cbn [app]. rewrite <- !app_assoc.
    reflexivity.
  - rewrite E. eexists. reflexivity.
Qed.

Lemma scan_object_pairs pairs : Forall (fun kv => reads_back (snd kv)) pairs ->
  forallb (fun kv => Utf8.valid (Utf8.str_encode (fst kv)) && json_data (snd kv)) pairs = true ->
  pairs <> [] ->
  forall fuel acc rest,
    (fold_right (fun kv n => S (cost (snd kv) + n)) O pairs <= fuel)%nat ->
    Json.scan_object fuel (Json.join [44; 32] (map encode_pair pairs) ++ 125 :: rest) acc
    = Some (Json.PDict (Json.dict_of_pairs (acc ++ pairs)), rest).
Proof.
  induction 1 as [|[k x] pairs Hx _ IH]; intros Hd Hne fuel acc rest Hf; [contradiction|].
  cbn [forallb fst snd] in Hd. apply andb_prop in Hd. destruct Hd as [Hdx Hd].
  apply andb_prop in Hdx. destruct Hdx as [Hk Hdx].
  cbn [fold_right snd] in Hf, Hx. destruct fuel as [|fuel]; [lia|].
  assert (Hstep : forall tail, ends_value tail = true ->
            exists body,
              encode_pair (k, x) ++ tail = 34 :: body
              /\ Json.scanstring (List.length body) body [] 
                 = Some (of_string k, 58 :: 32 :: Json.encode x ++ tail)).
  { intros tail _.
    destruct (scan_encoded_string k (58 :: 32 :: Json.encode x ++ tail) Hk) as (body & E & Hs).
    exists (body ++ 34 :: 58 :: 32 :: Json.encode x ++ tail). split; [|exact Hs].
    unfold encode_pair. rewrite E. cbn [app]. rewrite <- !app_assoc. reflexivity. }
  destruct pairs as [|kv2 more].
  - cbn [map Json.join].
    destruct (Hstep (125 :: rest) eq_refl) as (body & E & Hs).
    rewrite E. cbn [Json.scan_object]. change (negb (34 =? 34)) with false. cbv iota.
    rewrite Hs. rewrite skip_ws_head by reflexivity.
    change (negb (58 =? 58)) with false. cbv iota. rewrite skip_ws_space.
    destruct (encode_head x Hdx) as (c & r & Ex & Hc).
    rewrite Ex. cbn [app]. rewrite skip_ws_head by apply (value_head_facts c Hc).
    change (c :: r ++ 125 :: rest) with ((c :: r) ++ 125 :: rest). rewrite <- Ex.
    rewrite (Hx Hdx fuel (125 :: rest)) by (try reflexivity; lia).
    rewrite skip_ws_head by reflexivity. change (125 =? 125) with true. cbv iota.
    rewrite to_of_string. reflexivity.
  - change (Json.join [44; 32] (map encode_pair ((k, x) :: kv2 :: more)))
      with (encode_pair (k, x) ++ [44; 32] ++ Json.join [44; 32] (map encode_pair (kv2 :: more))).
    rewrite <- !app_assoc.
    set (tail := [44; 32] ++ Json.join [44; 32] (map encode_pair (kv2 :: more)) ++ 125 :: rest).
    destruct (Hstep tail eq_refl) as (body & E & Hs).
    rewrite E. cbn [Json.scan_object]. change (negb (34 =? 34)) with false. cbv iota.
    rewrite Hs. rewrite skip_ws_head by reflexivity.
    change (negb (58 =? 58)) with false. cbv iota. rewrite skip_ws_space.
    destruct (encode_head x Hdx) as (c & r & Ex & Hc).
    rewrite Ex. cbn [app]. rewrite skip_ws_head by apply (value_head_facts c Hc).
    change (c :: r ++ tail) with ((c :: r) ++ tail). rewrite <- Ex.
    rewrite (Hx Hdx fuel tail) by (try reflexivity; lia).
    unfold tail. cbn [app]. rewrite skip_ws_head by reflexivity.
    change (44 =? 125) with false. change (44 =? 44) with true. cbv iota.
    rewrite skip_ws_space.
    destruct (skip_ws_pairs kv2 more (125 :: rest)) as (r2 & E2).
    rewrite E2, skip_ws_head by reflexivity. rewrite <- E2.
    rewrite to_of_string.
    rewrite IH by (try assumption; try discriminate; cbn [fold_right] in *; lia).
    rewrite <- app_assoc. reflexivity.
Qed.

Lemma dict_set_new k v d : existsb (String.eqb k) (map fst d) = false ->
  Json.dict_set k v d = d ++ [(k, v)].
Proof.
  induction d as [|[k' v'] d IH]; intros H; [reflexivity|].
  cbn [map fst existsb] in H. apply orb_false_elim in H. destruct H as [H1 H2].
  cbn [Json.dict_set]. rewrite H1. cbn [app]. rewrite IH by exact H2. reflexivity.
Qed.

Lemma existsb_app_false (f : string -> bool) l1 l2 :
  existsb f l1 = false -> existsb f l2 = false -> existsb f (l1 ++ l2) = false.
Proof. intros H1 H2. rewrite existsb_app, H1, H2. reflexivity. Qed.

Lemma string_eqb_sym (a b : string) : (a =? b)%string = (b =? a)%string.
Proof.
  destruct (String.eqb_spec a b) as [->|N]; [symmetry; apply String.eqb_refl|].
  symmetry. apply String.eqb_neq. congruence.
Qed.

Lemma dict_fold_distinct pairs : forall d,
  distinct (map fst pairs) = true ->
  (forall k, In k (map fst pairs) -> existsb (String.eqb k) (map fst d) = false) ->
  fold_left (fun d kv => Json.dict_set (fst kv) (snd kv) d) pairs d = d ++ pairs.
Proof.
  induction pairs as [|[k v] pairs IH]; intros d Hd Hn; cbn [fold_left];
    [rewrite app_nil_r; reflexivity|].
  cbn [map fst distinct] in Hd. apply andb_prop in Hd. destruct Hd as [Hk Hd].
  apply negb_true_iff in Hk.
  cbn [fst snd]. rewrite dict_set_new by (apply Hn; left; reflexivity).
  rewrite IH; [rewrite <- app_assoc; reflexivity | exact Hd |].
  intros k' Hk'. rewrite map_app. apply existsb_app_false.
  - apply Hn. right. exact Hk'.
  - cbn [map fst existsb]. rewrite orb_false_r.
    destruct (String.eqb_spec k' k) as [->|N]; [|reflexivity].
    exfalso. assert (Hex : existsb (String.eqb k) (map fst pairs) = true).
    { apply existsb_exists. exists k. split; [exact Hk' | apply String.eqb_refl]. }
    congruence.
Qed.

Lemma dict_of_pairs_distinct pairs :
  distinct (map fst pairs) = true -> Json.dict_of_pairs pairs = pairs.
Proof.
  intros H. unfold Json.dict_of_pairs. rewrite dict_fold_distinct; [reflexivity | exact H |].
  reflexivity.
Qed.

(** The reader returns every value of JSON from its text. *)
Theorem scan_once_encode v : reads_back v.
Proof.
  induction v as [|b|n|l|s|items IH|items IH|pairs IH] using pyval_induction;
    unfold reads_back; intros Hd fuel rest Hf He; try discriminate Hd;
    (destruct fuel as [|fuel]; [cbn [cost] in Hf; lia|]).
  - reflexivity.
  - destruct b; reflexivity.
  - apply scan_once_int, He.
  - apply scan_once_float; assumption.
  - apply scan_once_str, Hd.
  - rewrite encode_list. cbn [app]. rewrite <- app_assoc. cbn [app Json.scan_once].
    change (91 =? 34) with false. change (91 =? 123) with false. change (91 =? 91) with true.
    cbv iota. rewrite json_data_list in Hd. rewrite cost_list in Hf.
    destruct items as [|v vs].
    + reflexivity.
    + rewrite skip_ws_join by (cbn [forallb] in Hd; apply andb_prop in Hd; apply Hd).
      destruct (encode_head v) as (c & r & E & Hc);
        [cbn [forallb] in Hd; apply andb_prop in Hd; apply Hd|].
      destruct (join_head _ (map Json.encode vs) c r E) as (r' & Ej).
      cbn [map]. rewrite Ej. cbn [app].
      rewrite (proj1 (proj2 (value_head_facts c Hc))).
      change (c :: r' ++ 93 :: rest) with ((c :: r') ++ 93 :: rest). rewrite <- Ej.
      apply (scan_array_items (v :: vs) IH Hd ltac:(discriminate) fuel [] rest). lia.
  - rewrite encode_dict. cbn [app]. rewrite <- app_assoc. cbn [app Json.scan_once].
    change (123 =? 34) with false. change (123 =? 123) with true. cbv iota.
    rewrite json_data_dict in Hd. apply andb_prop in Hd. destruct Hd as [Hd Hk].
    rewrite cost_dict in Hf.
    destruct pairs as [|kv kvs].
    + reflexivity.
    + destruct (skip_ws_pairs kv kvs (125 :: rest)) as (r & E).
      rewrite E, skip_ws_head by reflexivity. change (34 =? 125) with false. cbv iota.
      rewrite <- E.
      rewrite (scan_object_pairs (kv :: kvs) IH Hd ltac:(discriminate) fuel [] rest) by lia.
      cbn [app]. rewrite dict_of_pairs_distinct by exact Hk. reflexivity.
Qed.

(** *** The text is ASCII *)

Lemma hexchar_ascii d : 0 <= d < 16 -> 0 <= Json.hexchar d < 128.
Proof. intros H. unfold Json.hexchar. destruct (d <? 10); lia. Qed.

Lemma u_escape_ascii n : Forall (fun c => 0 <= c < 128) (Json.u_escape n).
Proof.
  unfold Json.u_escape.
  repeat (apply Forall_cons; [first [lia | apply hexchar_ascii, Z.mod_pos_bound; lia]|]).
  constructor.
Qed.

Lemma escape_cp_ascii cp : Forall (fun c => 0 <= c < 128) (Json.escape_cp cp).
Proof.
  unfold Json.escape_cp.
  do 7 (match goal with
        | |- context [if ?c then _ else _] =>
            destruct c; [repeat (apply Forall_cons; [lia|]); constructor|]
        end).
  destruct ((32 <=? cp) && (cp <=? 126)) eqn:Hp.
  { apply andb_prop in Hp. destruct Hp as [H1 H2]. apply Z.leb_le in H1, H2.
    constructor; [lia | constructor]. }
  destruct (cp <? 65536); [apply u_escape_ascii|].
  apply Forall_app. split; apply u_escape_ascii.
Qed.

Lemma string_text_ascii s : Forall (fun c => 0 <= c < 128) (Json.encode_basestring_ascii s).
Proof.
  unfold Json.encode_basestring_ascii. cbn [app]. constructor; [lia|].
  apply Forall_app. split; [|constructor; [lia | constructor]].
  apply Forall_flat_map, Forall_forall. intros cp _. apply escape_cp_ascii.
Qed.

Lemma int_text_ascii n : Forall (fun c => 0 <= c < 128) (of_string (Text.str_of_int n)).
Proof.
  assert (H : forall m, 0 <= m -> Forall (fun c => 0 <= c < 128) (of_string (Text.decimal m))).
  { intros m Hm. destruct (decimal_bytes m Hm) as (d & D & E & HD & _). rewrite E.
    revert HD. apply Forall_impl. intros c Hc. unfold Json.is_digit in Hc.
    apply andb_prop in Hc. destruct Hc as [H1 H2]. apply Z.leb_le in H1, H2. lia. }
  unfold Text.str_of_int. destruct (Z.ltb_spec n 0).
  - rewrite of_string_cons. constructor; [cbn; lia | apply H; lia].
  - apply H. lia.
Qed.

Lemma join_ascii parts :
  Forall (Forall (fun c => 0 <= c < 128)) parts ->
  Forall (fun c => 0 <= c < 128) (Json.join [44; 32] parts).
Proof.
  induction 1 as [|p ps Hp Hps IH]; [constructor|].
  destruct ps as [|q ps]; [exact Hp|].
  change (Json.join [44; 32] (p :: q :: ps)) with (p ++ [44; 32] ++ Json.join [44; 32] (q :: ps)).
  apply Forall_app. split; [exact Hp|]. cbn [app].
  constructor; [lia|]. constructor; [lia | exact IH].
Qed.

Lemma encode_json_ascii v : json_data v = true -> Forall (fun c => 0 <= c < 128) (Json.encode v).
Proof.
  induction v as [|b|n|l|s|items IH|items IH|pairs IH] using pyval_induction;
    intros Hd; try discriminate Hd.
  - repeat (apply Forall_cons; [cbn; lia|]). constructor.
  - destruct b; repeat (apply Forall_cons; [cbn; lia|]); constructor.
  - apply int_text_ascii.
  - change (Json.encode (Json.PFloat l)) with (of_string l).
    destruct (float_text_cases l Hd) as [Hs|[->| ->]].
    + apply (scan_number_whole _ _ Hs).
    + repeat (apply Forall_cons; [cbn; lia|]). constructor.
    + repeat (apply Forall_cons; [cbn; lia|]). constructor.
  - apply string_text_ascii.
  - rewrite encode_list. constructor; [lia|].
    apply Forall_app. split; [|constructor; [lia | constructor]].
    apply join_ascii. rewrite json_data_list in Hd. rewrite forallb_forall in Hd.
    apply Forall_forall. intros p Hp. apply in_map_iff in Hp. destruct Hp as (x & <- & Hx).
    rewrite Forall_forall in IH. apply (IH x Hx), Hd, Hx.
  - rewrite encode_dict. constructor; [lia|].
    apply Forall_app. split; [|constructor; [lia | constructor]].
    apply join_ascii. rewrite json_data_dict in Hd. apply andb_prop in Hd.
    destruct Hd as [Hd _]. rewrite forallb_forall in Hd.
    apply Forall_forall. intros p Hp. apply in_map_iff in Hp. destruct Hp as ([k x] & <- & Hx).
    unfold encode_pair. apply Forall_app. split; [apply string_text_ascii|].
    cbn [app]. constructor; [lia|]. constructor; [lia|].
    rewrite Forall_forall in IH. apply (IH (k, x) Hx).
    specialize (Hd (k, x) Hx). cbn [fst snd] in Hd. apply andb_prop in Hd. apply Hd.
Qed.

(** *** The depth of reading that the text needs *)

Lemma join_cost {A : Type} (enc : A -> bytes) (c : A -> nat) items :
  Forall (fun x => (c x <= 2 * List.length (enc x) + 1)%nat) items ->
  (fold_right (fun x n => S (c x + n)) O items
   <= 2 * List.length (Json.join [44%Z; 32%Z] (map enc items)) + 2)%nat.
Proof.
  induction 1 as [|x xs Hx _ IH]; [cbn; lia|].
  cbn [fold_right map]. destruct xs as [|y ys].
  - cbn [fold_right map Json.join]. lia.
  - change (Json.join [44; 32] (enc x :: map enc (y :: ys)))
      with (enc x ++ [44; 32] ++ Json.join [44; 32] (map enc (y :: ys))).
    rewrite !length_app. cbn [List.length]. lia.
Qed.

Lemma cost_bound v : (cost v <= 2 * List.length (Json.encode v) + 1)%nat.
Proof.
  induction v as [|b|n|l|s|items IH|items IH|pairs IH] using pyval_induction;
    try (cbn [cost]; lia).
  - rewrite cost_list, encode_list. cbn [List.length]. rewrite length_app.
    pose proof (join_cost Json.encode cost items IH). cbn [List.length]. lia.
  - change (Json.encode (Json.PTuple items)) with (Json.encode (Json.PList items)).
    change (cost (Json.PTuple items)) with (cost (Json.PList items)).
    rewrite cost_list, encode_list. cbn [List.length]. rewrite length_app.
    pose proof (join_cost Json.encode cost items IH). cbn [List.length]. lia.
  - rewrite cost_dict, encode_dict. cbn [List.length]. rewrite length_app.
    assert (H : Forall (fun kv => (cost (snd kv) <= 2 * List.length (encode_pair kv) + 1)%nat)
                       pairs).
    { revert IH. apply Forall_impl. intros [k x] Hx. cbn [snd] in *.
      unfold encode_pair. rewrite !length_app. lia. }
    pose proof (join_cost encode_pair (fun kv => cost (snd kv)) pairs H).
    cbn [List.length]. lia.
Qed.

(** [json.loads(json.dumps(v))] is [v] for every value of JSON. *)
Theorem loads_dumps v : json_data v = true -> Json.loads (Json.dumps v) = Ok v.
Proof.
  intros Hd. unfold Json.loads, Json.dumps.
  pose proof (encode_json_ascii v Hd) as Ha.
  rewrite of_to_string by (apply token_wf, Ha).
  destruct (encode_head v Hd) as (c & r & E & Hc).
  destruct (value_head_facts c Hc) as (Hws & _ & _ & Hbom & _).
  pose proof (scan_once_encode v Hd (2 * List.length (Json.encode v) + 2)%nat []) as Hs.
  rewrite app_nil_r in Hs.
  rewrite E in *. cbn [Json.strip_prefix]. rewrite Hbom.
  rewrite skip_ws_head by exact Hws.
  rewrite Hs; [reflexivity | | reflexivity].
  pose proof (cost_bound v) as Hb. rewrite E in Hb. lia.
Qed.

Lemma dumps_text v : json_data v = true -> valid_text (Json.dumps v).
Proof.
  intros Hd. unfold valid_text, Utf8.str_encode, Json.dumps.
  pose proof (encode_json_ascii v Hd) as Ha.
  rewrite of_to_string by (apply token_wf, Ha). apply ascii_valid, Ha.
Qed.

(** ** The profile *)

Lemma save_user_profile_ok db v w :
  block16 (Fernet.encryption_key (Database.fernet db)) ->
  Sqlite.closed (Database.connection db) = false ->
  profile_table_ok (Sqlite.current (Database.connection db)) ->
  json_data v = true ->
  exists enc w',
    Database.encrypt db (Json.dumps v) w = Ok (enc, w')
    /\ Database.decrypt db enc = Ok (Json.dumps v)
    /\ Database.save_user_profile db v w
       = Ok (Database.with_connection db
               (let s := Sqlite.with_profile (Sqlite.current (Database.connection db))
                           [Sqlite.ProfileRow 1 enc] in
                Sqlite.Connection s s false),
             w').
Proof.
  intros Hk Hc Ht Hd.
  destruct (encrypt_decrypt db (Json.dumps v) w Hk (dumps_text v Hd)) as (enc & He & Hdec).
  exists enc. eexists. split; [exact He|]. split; [exact Hdec|].
  unfold Database.save_user_profile. rewrite He. cbn [bind].
  rewrite query_open by exact Hc. cbn [bind]. unfold Sqlite.count_profile.
  destruct Ht as [Ht|(old & Ht)]; rewrite Ht; cbn [List.length Z.of_nat].
  - change (0 =? 0) with true. cbv iota.
    rewrite (execute_open (Sqlite.InsertProfile 1 enc) (Database.connection db)
               (Sqlite.with_profile (Sqlite.current (Database.connection db))
                                    [Sqlite.ProfileRow 1 enc]) Hc)
      by (cbn [Sqlite.run]; rewrite Ht; reflexivity).
    cbn [bind]. rewrite commit_open by reflexivity. reflexivity.
  - change (Z.pos (Pos.of_succ_nat 0) =? 0) with false. cbv iota.
    rewrite (execute_open (Sqlite.UpdateProfile enc 1) (Database.connection db)
               (Sqlite.with_profile (Sqlite.current (Database.connection db))
                                    [Sqlite.ProfileRow 1 enc]) Hc)
      by (cbn [Sqlite.run]; rewrite Ht; reflexivity).
    cbn [bind]. rewrite commit_open by reflexivity. reflexivity.
Qed.

Lemma get_user_profile_stored db enc v :
  Sqlite.closed (Database.connection db) = false ->
  Sqlite.user_profile (Sqlite.current (Database.connection db)) = [Sqlite.ProfileRow 1 enc] ->
  Database.decrypt db enc = Ok (Json.dumps v) ->
  json_data v = true ->
  Database.get_user_profile db = Ok v.
Proof.
  intros Hc Hrows Hdec Hd. unfold Database.get_user_profile.
  rewrite query_open by exact Hc. cbn [bind]. unfold Sqlite.select_profile.
  rewrite Hrows. cbn [filter Sqlite.pr_id Sqlite.pr_profile_data].
  change (1 =? 1) with true. cbv iota. cbn [Sqlite.pr_profile_data].
  rewrite Hdec. cbn [bind]. apply loads_dumps, Hd.
Qed.

Lemma json_data_equal_to_copy v : json_data v = true -> equal_to_copy v = true.
Proof.
  induction v as [| b | n | l | t | items IH | items IH | pairs IH] using pyval_induction;
    cbn [json_data equal_to_copy]; intros H; try reflexivity; try discriminate H.
  - destruct (String.eqb_spec l "NaN") as [->|]; [discriminate H | reflexivity].
  - rewrite forallb_forall in *. rewrite Forall_forall in IH. intros x I. auto.
  - apply andb_prop in H. destruct H as [H _].
    rewrite forallb_forall in *. rewrite Forall_forall in IH. intros [k x] I.
    specialize (H (k, x) I). cbn in H. apply andb_prop in H. destruct H as [_ H].
    apply (IH (k, x) I H).
Qed.

(** C7, amended: for every map [m] of JSON data -- string keys, each
    once, and values that are [None], booleans, integers, floats but NaN,
    strings, lists or such maps again, with no tuple in them -- two calls
    of [save_user_profile (m)] in succession succeed, and after each of them
    [get_user_profile ()] returns [m], a value that is equal to its copies.
    From the first call on the table holds exactly one row, in the file and
    for the connection, also between the update of the second call and its
    commit: the second call replaces the row. *)
Theorem profile_saved_twice db m w :
  block16 (Fernet.encryption_key (Database.fernet db)) ->
  Sqlite.closed (Database.connection db) = false ->
  profile_table_ok (Sqlite.current (Database.connection db)) ->
  json_data (Json.PDict m) = true ->
  exists db1 w1 enc2 c db2 w2,
    Database.save_user_profile db (Json.PDict m) w = Ok (db1, w1)
    /\ one_profile_row (Database.connection db1)
    /\ Database.get_user_profile db1 = Ok (Json.PDict m)
    /\ Database.encrypt db1 (Json.dumps (Json.PDict m)) w1 = Ok (enc2, w2)
    /\ Sqlite.execute (Sqlite.UpdateProfile enc2 1) (Database.connection db1) = Ok c
    /\ one_profile_row c
    /\ Database.save_user_profile db1 (Json.PDict m) w1 = Ok (db2, w2)
    /\ one_profile_row (Database.connection db2)
    /\ Database.get_user_profile db2 = Ok (Json.PDict m)
    /\ equal_to_copy (Json.PDict m) = true
    /\ save_twice db (Json.PDict m) w = Ok (db2, w2).
Proof.
  intros Hk Hc Ht Hd.
  destruct (save_user_profile_ok db (Json.PDict m) w Hk Hc Ht Hd) as (enc1 & w1 & _ & Hdec1 & Hs1).
  set (db1 := Database.with_connection db
                (let s := Sqlite.with_profile (Sqlite.current (Database.connection db))
                            [Sqlite.ProfileRow 1 enc1] in
                 Sqlite.Connection s s false)) in *.
  assert (Ht1 : profile_table_ok (Sqlite.current (Database.connection db1)))
    by (right; exists enc1; reflexivity).
  destruct (save_user_profile_ok db1 (Json.PDict m) w1 Hk eq_refl Ht1 Hd)
    as (enc2 & w2 & He2 & Hdec2 & Hs2).
  exists db1, w1, enc2. eexists. eexists. exists w2.
  split; [exact Hs1|]. split; [split; reflexivity|].
  split; [apply (get_user_profile_stored db1 enc1); try reflexivity; assumption|].
  split; [exact He2|].
  split; [apply (execute_open (Sqlite.UpdateProfile enc2 1) (Database.connection db1) _ eq_refl
                              eq_refl)|].
  split; [split; reflexivity|]. split; [exact Hs2|]. split; [split; reflexivity|].
  split; [apply (get_user_profile_stored _ enc2); try reflexivity; assumption|].
  split; [apply json_data_equal_to_copy, Hd|].
  unfold save_twice. rewrite Hs1. cbn [bind]. exact Hs2.
Qed.

Lemma profile_saved_twice_witness :
  (block16 (Fernet.encryption_key (Database.fernet demo_db))
   /\ Sqlite.closed (Database.connection demo_db) = false
   /\ profile_table_ok (Sqlite.current (Database.connection demo_db))
   /\ json_data demo_profile = true)
  /\ exists db2 w2,
       save_twice demo_db demo_profile demo_world = Ok (db2, w2)
       /\ one_profile_row (Database.connection db2)
       /\ Database.get_user_profile db2 = Ok demo_profile.
Proof.
  assert (Hk : block16 (Fernet.encryption_key (Database.fernet demo_db)))
    by (apply block16_check; reflexivity).
  assert (Ht : profile_table_ok (Sqlite.current (Database.connection demo_db)))
    by (left; reflexivity).
  split; [split; [exact Hk|]; split; [reflexivity|]; split; [exact Ht | reflexivity]|].
  destruct (profile_saved_twice demo_db
              [("name", Json.PStr "Test User"); ("age", Json.PInt 30);
               ("weight", Json.PFloat "61.5");
               ("goals", Json.PList [Json.PStr "Reduce anxiety"; Json.PStr "Sleep"]);
               ("partner", Json.PNone)]%string
              demo_world Hk eq_refl Ht eq_refl)
    as (db1 & w1 & enc2 & c & db2 & w2 & _ & _ & _ & _ & _ & _ & _ & H1 & H2 & _ & H3).
  exists db2, w2. split; [exact H3|]. split; [exact H1 | exact H2].
Defined.

(** C7 as stated fails for a map with a tuple in it, which [json.dumps]
    accepts: the tuple is written as an array and comes back as a list,
    which is not equal to it.  It fails for a map with a NaN in it as well,
    which [json.dumps] writes and [json.loads] reads: what comes back is
    another NaN, and no NaN is equal to another. *)
Lemma tuple_comes_back_as_list :
  (save_twice demo_db tuple_profile demo_world = Ok tuple_saved
   /\ Database.get_user_profile (fst tuple_saved)
      = Ok (Json.PDict [("languages", Json.PList [Json.PStr "en"; Json.PStr "fr"])]%string)
   /\ Json.PDict [("languages", Json.PList [Json.PStr "en"; Json.PStr "fr"])]%string
      <> tuple_profile)
  /\ (save_twice demo_db nan_profile demo_world = Ok nan_saved
      /\ Database.get_user_profile (fst nan_saved) = Ok nan_profile
      /\ equal_to_copy nan_profile = false).
Proof.
  split.
  - split; [vm_compute; reflexivity|]. split; [vm_compute; reflexivity|]. discriminate.
  - split; [vm_compute; reflexivity|]. split; [vm_compute; reflexivity|]. reflexivity.
Qed.

